(** * Shiv Accounts Cloud: a shallow embedding of the store, the posting
    flows, the payment server and the client-side utilities.

    Conventions of the embedding.
    - A JavaScript [number] that carries money or a quantity is an exact
      rational ([Q]) in the model of the store; a time value (milliseconds
      since the epoch), a counter or a size is an integer ([Z]).  The
      amounts that the posting flows write into the ledger are followed a
      second time as the doubles of the runtime ([float]), [NaN] included
      (module [Posting]).
    - A [Date] object is its time value, or the Invalid Date.
    - An optional property ([f?: T]) is an [option].
    - [Date.now()] and [new Date()] are read from an explicit clock
      argument.
    - A JavaScript [Map] whose iteration order matters is an association
      list in insertion order; one whose order is irrelevant is a [gmap]. *)

From Stdlib Require Import ZArith QArith Qminmax String Ascii List Lia Bool.
From Stdlib Require Import DecimalString Sorted Permutation Qround.
From Stdlib Require Import Floats.
From stdpp Require Import gmap strings list fin_maps.
Import ListNotations.

Set Warnings "-register-all".

Local Open Scope Z_scope.
Local Open Scope string_scope.

(** ** JavaScript primitives used by the sources *)

Module Js.

(** A [Date]: valid with a time value, or Invalid Date. *)
Inductive Date :=
| ValidDate (ms : Z)
| InvalidDate.

(** [String.prototype.toLowerCase], on the ASCII letters. *)
Definition lowerAscii (c : ascii) : ascii :=
  let n := nat_of_ascii c in
  if (Nat.leb 65 n && Nat.leb n 90)%bool then ascii_of_nat (n + 32) else c.

Fixpoint toLowerCase (s : string) : string :=
  match s with
  | EmptyString => EmptyString
  | String c s' => String (lowerAscii c) (toLowerCase s')
  end.

(** [String.prototype.startsWith]. *)
Definition startsWith (s p : string) : bool := String.prefix p s.

(** [String.prototype.includes]: [sub] occurs somewhere in [s]. *)
Fixpoint includes (s sub : string) : bool :=
  String.prefix sub s ||
  match s with
  | EmptyString => false
  | String _ s' => includes s' sub
  end.

(** Decimal rendering of an integer, as a template literal prints it. *)
Definition showZ (z : Z) : string := NilZero.string_of_int (Z.to_int z).

(** [a ?? b] on an optional number. *)
Definition nullish {A} (o : option A) (d : A) : A :=
  match o with Some x => x | None => d end.

(** Truthiness of a string: non-empty. *)
Definition truthyStr (s : string) : bool :=
  match s with EmptyString => false | _ => true end.

(** Number comparisons on rationals, as booleans. *)
Definition Qgtb (a b : Q) : bool := negb (Qle_bool a b).
Definition Qgeb (a b : Q) : bool := Qle_bool b a.

(** [Array.prototype.reduce((s, x) => s + f x, 0)]. *)
Definition sumQ {A} (f : A -> Q) (l : list A) : Q :=
  fold_left (fun s x => (s + f x)%Q) l 0%Q.

End Js.
Export Js.

(** ** The business types ([src/types/index.ts]) *)

Inductive ContactType := Customer | Vendor | Both.
Inductive ProductType := Goods | Service.
Inductive AccountType := Asset | Liability | Income | Expense | Equity.
Inductive ReferenceType :=
  Opening | RefInvoice | RefBill | RefPayment | RefPurchaseOrder
| RefSalesOrder | Adjustment.
Inductive EntityType :=
  EUser | EContact | EProduct | EAccount | EPurchaseOrder | EVendorBill
| ESalesOrder | EInvoice | EPayment | ELedger.
Inductive AuditAction := ACreate | AUpdate | ADelete | APost | AVoid.
Inductive PaymentType := Received | Made.
Inductive PaymentMethod := Cash | BankTransfer | Cheque | Online.
Inductive InvoiceStatus := IDraft | ISent | IPartiallyPaid | IPaid | IOverdue.
Inductive BillStatus := BUnpaid | BPartiallyPaid | BPaid | BOverdue.
Inductive PurchaseOrderStatus := PDraft | PSent | PApproved | PCompleted | PCancelled.
Inductive SalesOrderStatus := SDraft | SConfirmed | SInvoiced | SDelivered | SCancelled.

Definition ProductType_eqb (a b : ProductType) : bool :=
  match a, b with Goods, Goods | Service, Service => true | _, _ => false end.
Definition AccountType_eqb (a b : AccountType) : bool :=
  match a, b with
  | Asset, Asset | Liability, Liability | Income, Income
  | Expense, Expense | Equity, Equity => true
  | _, _ => false
  end.

Module Contact.
Record t := mk {
  id : string; name : string; type : ContactType; email : string;
  mobile : string; city : string; state : string;
  address : option string; gstNumber : option string; createdAt : Date }.
End Contact.

Module Product.
Record t := mk {
  id : string; name : string; type : ProductType; salesPrice : Q;
  purchasePrice : Q; taxPercentage : Q; hsnCode : string;
  category : string; description : option string; unit : string;
  stockQty : option Q; createdAt : Date }.
End Product.

Module Tax.
Inductive Method := Percentage | Fixed.
Inductive Applies := Sales | Purchase | SalesAndPurchase.
Record t := mk {
  id : string; name : string; rate : Q; computationMethod : Method;
  appliesOn : Applies; description : option string }.
End Tax.

Module Account.
Record t := mk {
  id : string; name : string; type : AccountType;
  parentId : option string; code : string; balance : Q }.
End Account.

Module LedgerEntry.
Record t := mk {
  id : string; date : Date; accountId : string; accountName : string;
  debit : Q; credit : Q; referenceType : ReferenceType;
  referenceId : option string; description : option string }.
End LedgerEntry.

Module AuditLog.
Record t := mk {
  id : string; entityType : EntityType; entityId : string;
  action : AuditAction; userId : option string; timestamp : Date }.
End AuditLog.

(** The line items of purchase orders, bills, sales orders and invoices
    have one shape. *)
Module LineItem.
Record t := mk {
  id : string; productId : string; productName : string; quantity : Q;
  unitPrice : Q; taxPercentage : Q; amount : Q }.
End LineItem.

Module PurchaseOrder.
Record t := mk {
  id : string; poNumber : string; vendorId : string; vendorName : string;
  date : Date; dueDate : Date; items : list LineItem.t; subtotal : Q;
  taxAmount : Q; total : Q; status : PurchaseOrderStatus;
  notes : option string }.
End PurchaseOrder.

Module VendorBill.
Record t := mk {
  id : string; billNumber : string; vendorId : string; vendorName : string;
  date : Date; dueDate : Date; amount : Q; paidAmount : Q;
  status : BillStatus; items : list LineItem.t; notes : option string }.
End VendorBill.

Module SalesOrder.
Record t := mk {
  id : string; soNumber : string; customerId : string;
  customerName : string; date : Date; items : list LineItem.t;
  subtotal : Q; taxAmount : Q; total : Q; status : SalesOrderStatus }.
End SalesOrder.

Module Invoice.
Record t := mk {
  id : string; invoiceNumber : string; customerId : string;
  customerName : string; date : Date; dueDate : Date;
  items : list LineItem.t; subtotal : Q; taxAmount : Q; total : Q;
  paidAmount : Q; status : InvoiceStatus; notes : option string }.
End Invoice.

Module Payment.
Record t := mk {
  id : string; type : PaymentType; amount : Q; date : Date;
  method : PaymentMethod; reference : string; contactId : string;
  contactName : string; invoiceId : option string; billId : option string;
  notes : option string }.
End Payment.

(** ** The store ([src/store/AppStore.tsx]) *)

Record AppState := mkAppState {
  contacts : list Contact.t;
  products : list Product.t;
  taxes : list Tax.t;
  accounts : list Account.t;
  purchaseOrders : list PurchaseOrder.t;
  invoices : list Invoice.t;
  salesOrders : list SalesOrder.t;
  vendorBills : list VendorBill.t;
  payments : list Payment.t;
  ledger : list LedgerEntry.t;
  audit : list AuditLog.t }.

(** [Partial<AppState>]: every property may be missing. *)
Record PartialAppState := mkPartial {
  p_contacts : option (list Contact.t);
  p_products : option (list Product.t);
  p_taxes : option (list Tax.t);
  p_accounts : option (list Account.t);
  p_purchaseOrders : option (list PurchaseOrder.t);
  p_invoices : option (list Invoice.t);
  p_salesOrders : option (list SalesOrder.t);
  p_vendorBills : option (list VendorBill.t);
  p_payments : option (list Payment.t);
  p_ledger : option (list LedgerEntry.t);
  p_audit : option (list AuditLog.t) }.

Inductive AppAction :=
| seed (payload : PartialAppState)
| contacts_set (payload : list Contact.t)
| products_set (payload : list Product.t)
| taxes_set (payload : list Tax.t)
| accounts_set (payload : list Account.t)
| purchaseOrders_set (payload : list PurchaseOrder.t)
| invoices_set (payload : list Invoice.t)
| salesOrders_set (payload : list SalesOrder.t)
| vendorBills_set (payload : list VendorBill.t)
| payments_set (payload : list Payment.t)
| ledger_append (payload : list LedgerEntry.t)
| ledger_set (payload : list LedgerEntry.t)
| audit_append (payload : AuditLog.t).

Definition initialState : AppState :=
  mkAppState [] [] [] [] [] [] [] [] [] [] [].

(** [{ ...state, ...payload }]: a property of the payload replaces the
    state's. *)
Definition spread (s : AppState) (p : PartialAppState) : AppState :=
  {| contacts := nullish (p_contacts p) (contacts s);
     products := nullish (p_products p) (products s);
     taxes := nullish (p_taxes p) (taxes s);
     accounts := nullish (p_accounts p) (accounts s);
     purchaseOrders := nullish (p_purchaseOrders p) (purchaseOrders s);
     invoices := nullish (p_invoices p) (invoices s);
     salesOrders := nullish (p_salesOrders p) (salesOrders s);
     vendorBills := nullish (p_vendorBills p) (vendorBills s);
     payments := nullish (p_payments p) (payments s);
     ledger := nullish (p_ledger p) (ledger s);
     audit := nullish (p_audit p) (audit s) |}.

Definition reducer (state : AppState) (action : AppAction) : AppState :=
  match action with
  | seed payload => spread state payload
  | contacts_set payload =>
      mkAppState payload (products state) (taxes state) (accounts state)
        (purchaseOrders state) (invoices state) (salesOrders state)
        (vendorBills state) (payments state) (ledger state) (audit state)
  | products_set payload =>
      mkAppState (contacts state) payload (taxes state) (accounts state)
        (purchaseOrders state) (invoices state) (salesOrders state)
        (vendorBills state) (payments state) (ledger state) (audit state)
  | taxes_set payload =>
      mkAppState (contacts state) (products state) payload (accounts state)
        (purchaseOrders state) (invoices state) (salesOrders state)
        (vendorBills state) (payments state) (ledger state) (audit state)
  | accounts_set payload =>
      mkAppState (contacts state) (products state) (taxes state) payload
        (purchaseOrders state) (invoices state) (salesOrders state)
        (vendorBills state) (payments state) (ledger state) (audit state)
  | purchaseOrders_set payload =>
      mkAppState (contacts state) (products state) (taxes state)
        (accounts state) payload (invoices state) (salesOrders state)
        (vendorBills state) (payments state) (ledger state) (audit state)
  | invoices_set payload =>
      mkAppState (contacts state) (products state) (taxes state)
        (accounts state) (purchaseOrders state) payload (salesOrders state)
        (vendorBills state) (payments state) (ledger state) (audit state)
  | salesOrders_set payload =>
      mkAppState (contacts state) (products state) (taxes state)
        (accounts state) (purchaseOrders state) (invoices state) payload
        (vendorBills state) (payments state) (ledger state) (audit state)
  | payments_set payload =>
      mkAppState (contacts state) (products state) (taxes state)
        (accounts state) (purchaseOrders state) (invoices state)
        (salesOrders state) (vendorBills state) payload (ledger state)
        (audit state)
  | vendorBills_set payload =>
      mkAppState (contacts state) (products state) (taxes state)
        (accounts state) (purchaseOrders state) (invoices state)
        (salesOrders state) payload (payments state) (ledger state)
        (audit state)
  | ledger_append payload =>
      mkAppState (contacts state) (products state) (taxes state)
        (accounts state) (purchaseOrders state) (invoices state)
        (salesOrders state) (vendorBills state) (payments state)
        (ledger state ++ payload) (audit state)
  | ledger_set payload =>
      mkAppState (contacts state) (products state) (taxes state)
        (accounts state) (purchaseOrders state) (invoices state)
        (salesOrders state) (vendorBills state) (payments state) payload
        (audit state)
  | audit_append payload =>
      mkAppState (contacts state) (products state) (taxes state)
        (accounts state) (purchaseOrders state) (invoices state)
        (salesOrders state) (vendorBills state) (payments state)
        (ledger state) (audit state ++ [payload])
  end.

(** The actions whose case in [reducer] writes the [ledger] property. *)
Definition writesLedger (a : AppAction) : bool :=
  match a with
  | ledger_append _ | ledger_set _ | seed _ => true
  | _ => false
  end.

(** [postLedgerEntries]: the entries it accepts carry the four picked
    properties and, optionally, any other property of a ledger entry. *)
Module EntryInput.
Record t := mk {
  accountId : string; accountName : string; debit : Q; credit : Q;
  id : option string; date : option Date;
  referenceType : option ReferenceType;
  referenceId : option string; description : option string }.
End EntryInput.

Module PostOpts.
Record t := mk {
  referenceType : option ReferenceType;
  referenceId : option string;
  description : option string }.
End PostOpts.

(** An optional property of the input replaces the default when it is
    there. *)
Definition override {A} (fromInput fromDefault : option A) : option A :=
  match fromInput with Some x => Some x | None => fromDefault end.

(** The entry written as an object literal with the four picked
    properties only. *)
Definition line (accountId accountName : string) (debit credit : Q)
  : EntryInput.t :=
  EntryInput.mk accountId accountName debit credit None None None None None.

Definition defaultId (now : Z) (idx : nat) : string :=
  showZ now ++ "-" ++ showZ (Z.of_nat idx).

Definition stamp (now : Z) (opts : option PostOpts.t) (idx : nat)
  (e : EntryInput.t) : LedgerEntry.t :=
  {| LedgerEntry.id := nullish (EntryInput.id e) (defaultId now idx);
     LedgerEntry.date := nullish (EntryInput.date e) (ValidDate now);
     LedgerEntry.accountId := EntryInput.accountId e;
     LedgerEntry.accountName := EntryInput.accountName e;
     LedgerEntry.debit := EntryInput.debit e;
     LedgerEntry.credit := EntryInput.credit e;
     LedgerEntry.referenceType :=
       nullish (EntryInput.referenceType e)
         (nullish (opts ≫= PostOpts.referenceType) Adjustment);
     LedgerEntry.referenceId :=
       override (EntryInput.referenceId e) (opts ≫= PostOpts.referenceId);
     LedgerEntry.description :=
       override (EntryInput.description e) (opts ≫= PostOpts.description) |}.

Definition postLedgerEntries (now : Z) (entries : list EntryInput.t)
  (opts : option PostOpts.t) : list LedgerEntry.t :=
  imap (stamp now opts) entries.

(** ** The posting flows

    Each flow is the list of actions it dispatches, in order.  The
    component closes over one [state]; [clk k] is the [k]-th reading of the
    clock during the call.  The writes to the external backend that follow
    a dispatch do not touch the store and are left out. *)

Definition Clock := nat -> Z.

Definition nameHas (sub : string) (a : Account.t) : bool :=
  includes (toLowerCase (Account.name a)) sub.

Definition auditOf (clk : Clock) (k : nat) (ty : EntityType) (eid : string)
  (act : AuditAction) : AuditLog.t :=
  {| AuditLog.id := "audit-" ++ showZ (clk k);
     AuditLog.entityType := ty; AuditLog.entityId := eid;
     AuditLog.action := act; AuditLog.userId := None;
     AuditLog.timestamp := ValidDate (clk (S k)) |}.

Definition setStockQty (p : Product.t) (q : Q) : Product.t :=
  {| Product.id := Product.id p; Product.name := Product.name p;
     Product.type := Product.type p; Product.salesPrice := Product.salesPrice p;
     Product.purchasePrice := Product.purchasePrice p;
     Product.taxPercentage := Product.taxPercentage p;
     Product.hsnCode := Product.hsnCode p; Product.category := Product.category p;
     Product.description := Product.description p; Product.unit := Product.unit p;
     Product.stockQty := Some q; Product.createdAt := Product.createdAt p |}.

(** The quantity of product [pid] over the lines of a document. *)
Definition lineQty (items : list LineItem.t) (pid : string) : Q :=
  sumQ LineItem.quantity
    (List.filter (fun i => String.eqb (LineItem.productId i) pid) items).

Module Invoices.

(** [postInvoice]: the accounts the flow looks up. *)
Definition findAr (state : AppState) :=
  List.find (nameHas "accounts receivable") (accounts state).
Definition findSales (state : AppState) :=
  List.find (fun a => AccountType_eqb (Account.type a) Income) (accounts state).
Definition findCogs (state : AppState) :=
  List.find (fun a => nameHas "cost of goods" a || startsWith (Account.code a) "E")
    (accounts state).
Definition findInventory (state : AppState) :=
  List.find (nameHas "inventory") (accounts state).

Definition totalCost (state : AppState) (inv : Invoice.t) : Q :=
  fold_left
    (fun sum it =>
       let prod := List.find (fun p => String.eqb (Product.id p) (LineItem.productId it))
                     (products state) in
       let cost := (nullish (Product.purchasePrice <$> prod) 0%Q * LineItem.quantity it)%Q in
       (sum + cost)%Q)
    (Invoice.items inv) 0%Q.

(** Reduce stock. *)
Definition reduceStock (inv : Invoice.t) (p : Product.t) : Product.t :=
  let outQty := lineQty (Invoice.items inv) (Product.id p) in
  if Qgtb outQty 0 && ProductType_eqb (Product.type p) Goods
  then setStockQty p (Qmax 0 ((nullish (Product.stockQty p) 0%Q - outQty)%Q))
  else p.

Definition updatedProducts (state : AppState) (inv : Invoice.t) : list Product.t :=
  List.map (reduceStock inv) (products state).

Definition postInvoice (state : AppState) (inv : Invoice.t) (clk : Clock)
  : list AppAction :=
  match findAr state, findSales state, findCogs state, findInventory state with
  | Some ar, Some sales, Some cogs, Some inventory =>
      let entries :=
        postLedgerEntries (clk 0%nat)
          [ line (Account.id ar) (Account.name ar) (Invoice.total inv) 0;
            line (Account.id sales) (Account.name sales) 0 (Invoice.total inv) ]
          (Some (PostOpts.mk (Some RefInvoice) (Some (Invoice.id inv))
                   (Some ("Invoice " ++ Invoice.invoiceNumber inv ++ " - "
                            ++ Invoice.customerName inv)))) in
      let totalCost := totalCost state inv in
      let cogsEntries :=
        postLedgerEntries (clk 1%nat)
          [ line (Account.id cogs) (Account.name cogs) totalCost 0;
            line (Account.id inventory) (Account.name inventory) 0 totalCost ]
          (Some (PostOpts.mk (Some RefInvoice) (Some (Invoice.id inv))
                   (Some ("COGS for " ++ Invoice.invoiceNumber inv)))) in
      [ ledger_append (entries ++ cogsEntries);
        products_set (updatedProducts state inv);
        audit_append (auditOf clk 2 EInvoice (Invoice.id inv) APost) ]
  | _, _, _, _ => []
  end.

(** The response the payment gateway hands to the success callback. *)
Record RazorpayResponse := mkResponse {
  razorpay_payment_id : string;
  razorpay_order_id : string;
  razorpay_signature : string }.

(** [verifyPaymentSignature] of the client library: the three strings are
    there and the identifiers carry their prefixes. *)
Definition verifyPaymentSignature (paymentId orderId signature : string) : bool :=
  truthyStr paymentId && truthyStr orderId && truthyStr signature
  && startsWith paymentId "pay_" && startsWith orderId "order_".

(** [{ ...inv, paidAmount: inv.paidAmount + amount, status: ... }] of
    [savePayment]: the status is the code's comparison of that sum with
    the total. *)
Definition payInvoice (inv : Invoice.t) (amount : Q) : Invoice.t :=
  {| Invoice.id := Invoice.id inv; Invoice.invoiceNumber := Invoice.invoiceNumber inv;
     Invoice.customerId := Invoice.customerId inv;
     Invoice.customerName := Invoice.customerName inv;
     Invoice.date := Invoice.date inv; Invoice.dueDate := Invoice.dueDate inv;
     Invoice.items := Invoice.items inv; Invoice.subtotal := Invoice.subtotal inv;
     Invoice.taxAmount := Invoice.taxAmount inv; Invoice.total := Invoice.total inv;
     Invoice.paidAmount := (Invoice.paidAmount inv + amount)%Q;
     Invoice.status :=
       if Qgeb (Invoice.paidAmount inv + amount)%Q (Invoice.total inv)
       then IPaid else IPartiallyPaid;
     Invoice.notes := Invoice.notes inv |}.

End Invoices.

Module VendorBills.

Definition increaseStock (bill : VendorBill.t) (p : Product.t) : Product.t :=
  let lineQty := lineQty (VendorBill.items bill) (Product.id p) in
  if Qgtb lineQty 0 && ProductType_eqb (Product.type p) Goods
  then setStockQty p (nullish (Product.stockQty p) 0%Q + lineQty)%Q
  else p.

Definition postToLedgerAndInventory (state : AppState) (bill : VendorBill.t)
  (clk : Clock) : list AppAction :=
  match List.find (nameHas "inventory") (accounts state),
        List.find (nameHas "accounts payable") (accounts state) with
  | Some inventory, Some ap =>
      let entries :=
        postLedgerEntries (clk 0%nat)
          [ line (Account.id inventory) (Account.name inventory)
              (VendorBill.amount bill) 0;
            line (Account.id ap) (Account.name ap) 0 (VendorBill.amount bill) ]
          (Some (PostOpts.mk (Some RefBill) (Some (VendorBill.id bill))
                   (Some ("Bill " ++ VendorBill.billNumber bill ++ " - "
                            ++ VendorBill.vendorName bill)))) in
      [ ledger_append entries;
        products_set (List.map (increaseStock bill) (products state));
        audit_append (auditOf clk 1 EVendorBill (VendorBill.id bill) APost) ]
  | _, _ => []
  end.

End VendorBills.

Module Payments.

Inductive LinkType := LinkInvoice | LinkBill | LinkNone.

Record Form := mkForm {
  f_type : PaymentType; f_contactId : string; f_amount : string;
  f_method : PaymentMethod; f_reference : string; f_linkType : LinkType;
  f_linkId : string; f_notes : option string }.

(** [String(n).padStart(4, '0')]. *)
Definition padStart4 (s : string) : string :=
  match (4 - String.length s)%nat with
  | 0%nat => s
  | 1%nat => "0" ++ s
  | 2%nat => "00" ++ s
  | 3%nat => "000" ++ s
  | _ => "0000" ++ s
  end.

Definition truthyOpt (o : option string) : bool :=
  match o with Some s => truthyStr s | None => false end.

Definition payBill (b : VendorBill.t) (amount : Q) : VendorBill.t :=
  {| VendorBill.id := VendorBill.id b; VendorBill.billNumber := VendorBill.billNumber b;
     VendorBill.vendorId := VendorBill.vendorId b;
     VendorBill.vendorName := VendorBill.vendorName b;
     VendorBill.date := VendorBill.date b; VendorBill.dueDate := VendorBill.dueDate b;
     VendorBill.amount := VendorBill.amount b;
     VendorBill.paidAmount := (VendorBill.paidAmount b + amount)%Q;
     VendorBill.status :=
       if Qgeb (VendorBill.paidAmount b + amount)%Q (VendorBill.amount b)
       then BPaid else BPartiallyPaid;
     VendorBill.items := VendorBill.items b; VendorBill.notes := VendorBill.notes b |}.

Section SavePayment.

(** [parseFloat] of the runtime; [None] stands for NaN. *)
Variable parseFloat : string -> option Q.

(** The ledger postings of [savePayment]. *)
Definition ledgerPostings (state : AppState) (payment : Payment.t) (clk : Clock)
  : list AppAction :=
  let cash :=
    match List.find (nameHas "cash") (accounts state) with
    | Some c => Some c
    | None => List.find (fun a => AccountType_eqb (Account.type a) Asset)
                (accounts state)
    end in
  match cash, List.find (nameHas "accounts receivable") (accounts state),
        List.find (nameHas "accounts payable") (accounts state) with
  | Some cash, Some ar, Some ap =>
      match Payment.type payment with
      | Received =>
          [ ledger_append
              (postLedgerEntries (clk 2%nat)
                 [ line (Account.id cash) (Account.name cash) (Payment.amount payment) 0;
                   line (Account.id ar) (Account.name ar) 0 (Payment.amount payment) ]
                 (Some (PostOpts.mk (Some RefPayment) (Some (Payment.id payment))
                          (Some ("Payment received from "
                                   ++ Payment.contactName payment))))) ]
      | Made =>
          [ ledger_append
              (postLedgerEntries (clk 2%nat)
                 [ line (Account.id ap) (Account.name ap) (Payment.amount payment) 0;
                   line (Account.id cash) (Account.name cash) 0 (Payment.amount payment) ]
                 (Some (PostOpts.mk (Some RefPayment) (Some (Payment.id payment))
                          (Some ("Payment made to "
                                   ++ Payment.contactName payment))))) ]
      end
  | _, _, _ => []
  end.

(** [savePayment]; [rnd] is [Math.floor(Math.random()*10000)].  A contact
    that is not found makes the construction of the payment throw before
    anything is dispatched.  The clock is read for the payment's id, for
    its date, by [postLedgerEntries] when the ledger is posted, and then
    for the audit entry. *)
Definition savePayment (state : AppState) (form : Form) (rnd : Z) (clk : Clock)
  : list AppAction :=
  match parseFloat (if truthyStr (f_amount form) then f_amount form else "0") with
  | None => []
  | Some amount =>
      if Qeq_bool amount 0 || negb (truthyStr (f_contactId form)) then []
      else
        match List.find (fun c => String.eqb (Contact.id c) (f_contactId form))
                (contacts state) with
        | None => []
        | Some contact =>
            let payment :=
              {| Payment.id := "PMT-" ++ showZ (clk 0%nat);
                 Payment.type := f_type form;
                 Payment.amount := amount;
                 Payment.date := ValidDate (clk 1%nat);
                 Payment.method := f_method form;
                 Payment.reference :=
                   if truthyStr (f_reference form) then f_reference form
                   else "PMT-" ++ padStart4 (showZ rnd);
                 Payment.contactId := Contact.id contact;
                 Payment.contactName := Contact.name contact;
                 Payment.invoiceId :=
                   match f_linkType form with
                   | LinkInvoice => Some (f_linkId form) | _ => None end;
                 Payment.billId :=
                   match f_linkType form with
                   | LinkBill => Some (f_linkId form) | _ => None end;
                 Payment.notes := f_notes form |} in
            ledgerPostings state payment clk
            ++ (if truthyOpt (Payment.invoiceId payment)
                then [ invoices_set
                         (List.map
                            (fun inv =>
                               if decide (Some (Invoice.id inv) = Payment.invoiceId payment)
                               then Invoices.payInvoice inv (Payment.amount payment)
                               else inv)
                            (invoices state)) ]
                else [])
            ++ (if truthyOpt (Payment.billId payment)
                then [ vendorBills_set
                         (List.map
                            (fun b =>
                               if decide (Some (VendorBill.id b) = Payment.billId payment)
                               then payBill b (Payment.amount payment)
                               else b)
                            (vendorBills state)) ]
                else [])
            ++ [ payments_set (payment :: payments state);
                 audit_append
                   (auditOf clk
                      (match ledgerPostings state payment clk with
                       | [] => 2%nat
                       | _ => 3%nat
                       end) EPayment (Payment.id payment) ACreate) ]
        end
  end.

End SavePayment.

End Payments.

(** ** Persistence: JSON snapshots and [reviveDates]

    A JSON text is identified with the tree it denotes: [JSON.stringify]
    produces such a tree and [JSON.parse] consumes one. *)

Inductive Json :=
| JNull
| JBool (b : bool)
| JNum (n : Q)
| JStr (s : string)
| JArr (items : list Json)
| JObj (fields : list (string * Json)).

(** The values a snapshot or a state is made of. *)
Inductive JsValue :=
| VUndefined
| VNull
| VBool (b : bool)
| VNum (n : Q)
| VStr (s : string)
| VDate (d : Date)
| VArr (items : list JsValue)
| VObj (fields : list (string * JsValue)).

(** [/\d/] *)
Definition isDigit (c : ascii) : bool :=
  let n := nat_of_ascii c in (Nat.leb 48 n && Nat.leb n 57)%bool.

(** The pattern [\d{4}-\d{2}-\d{2}T] matched at the start of [s]. *)
Definition datePatternAt (s : string) : bool :=
  match s with
  | String y1 (String y2 (String y3 (String y4 (String h1
      (String m1 (String m2 (String h2 (String d1 (String d2
        (String t _)))))))))) =>
      isDigit y1 && isDigit y2 && isDigit y3 && isDigit y4
      && Ascii.eqb h1 "-" && isDigit m1 && isDigit m2
      && Ascii.eqb h2 "-" && isDigit d1 && isDigit d2 && Ascii.eqb t "T"
  | _ => false
  end.

(** [/\d{4}-\d{2}-\d{2}T/.test(s)]: the pattern matches somewhere. *)
Fixpoint datePatternTest (s : string) : bool :=
  datePatternAt s ||
  match s with
  | EmptyString => false
  | String _ s' => datePatternTest s'
  end.

Module Persistence.

Section Runtime.

(** The runtime's [new Date(string)] and [Date.prototype.toISOString]. *)
Variable dateOfString : string -> Date.
Variable toISOString : Z -> string.

(** The reviver passed to [JSON.parse]. *)
Definition reviver (value : JsValue) : JsValue :=
  match value with
  | VStr s =>
      if datePatternTest s then
        match dateOfString s with
        | ValidDate ms => VDate (ValidDate ms)
        | InvalidDate => value
        end
      else value
  | _ => value
  end.

(** [JSON.parse(text)]. *)
Fixpoint parse (j : Json) : JsValue :=
  match j with
  | JNull => VNull
  | JBool b => VBool b
  | JNum n => VNum n
  | JStr s => VStr s
  | JArr items => VArr (List.map parse items)
  | JObj fields => VObj (List.map (fun kv => (fst kv, parse (snd kv))) fields)
  end.

(** [JSON.parse(text, reviver)]: the reviver visits every value, children
    before their holder. *)
Fixpoint parseWith (j : Json) : JsValue :=
  match j with
  | JNull => reviver VNull
  | JBool b => reviver (VBool b)
  | JNum n => reviver (VNum n)
  | JStr s => reviver (VStr s)
  | JArr items => reviver (VArr (List.map parseWith items))
  | JObj fields =>
      reviver (VObj (List.map (fun kv => (fst kv, parseWith (snd kv))) fields))
  end.

(** The properties [JSON.stringify] writes for an object, [write] being
    what it does to a value: a property whose value is not written is
    dropped. *)
Definition writeProps (write : JsValue -> option Json)
  : list (string * JsValue) -> list (string * Json) :=
  fix props fs :=
    match fs with
    | [] => []
    | (k, x) :: fs' =>
        match write x with
        | Some j => (k, j) :: props fs'
        | None => props fs'
        end
    end.

(** [JSON.stringify(value)]: [None] is the [undefined] it returns for
    [undefined].  A Date is rendered by [toJSON]; an array keeps its length,
    an object drops the properties that are [undefined]. *)
Fixpoint stringify (v : JsValue) : option Json :=
  match v with
  | VUndefined => None
  | VNull => Some JNull
  | VBool b => Some (JBool b)
  | VNum n => Some (JNum n)
  | VStr s => Some (JStr s)
  | VDate (ValidDate ms) => Some (JStr (toISOString ms))
  | VDate InvalidDate => Some JNull
  | VArr items =>
      Some (JArr (List.map (fun x => nullish (stringify x) JNull) items))
  | VObj fields => Some (JObj (writeProps stringify fields))
  end.

(** [reviveDates]; stringifying [undefined] leaves nothing to parse. *)
Definition reviveDates (obj : JsValue) : option JsValue :=
  parseWith <$> stringify obj.

(** What the persist effect writes and what the load reads back. *)
Definition save (state : JsValue) : option Json := stringify state.
Definition load (raw : Json) : option JsValue := reviveDates (parse raw).

(** Reading a property or an element along a path. *)
Inductive Step := Key (k : string) | Index (i : nat).

Definition getStep (v : JsValue) (st : Step) : option JsValue :=
  match st, v with
  | Key k, VObj fields =>
      snd <$> List.find (fun kv => String.eqb (fst kv) k) fields
  | Index i, VArr items => nth_error items i
  | _, _ => None
  end.

Fixpoint getPath (v : JsValue) (path : list Step) : option JsValue :=
  match path with
  | [] => Some v
  | st :: rest =>
      match getStep v st with
      | Some v' => getPath v' rest
      | None => None
      end
  end.

(** Saving a state and loading it back: [v] is what stands at [path]
    afterwards. *)
Definition restoredAt (state : JsValue) (path : list Step) (v : JsValue) : Prop :=
  exists raw loaded,
    save state = Some raw /\ load raw = Some loaded /\
    getPath loaded path = Some v.

End Runtime.

End Persistence.
Export Persistence.

(** ** Start-up seeding ([AppStoreProvider], [dbLoadAll]) *)

Module Startup.

Definition STORAGE_KEY : string := "shiv-accounts-store-v1".

(** What one [select] of the backend client settles to: the promise
    rejects, or resolves with an error, or resolves with rows. *)
Inductive SupaResp (T : Type) :=
| Rejected
| RespError (message : string)
| RespRows (data : list T).
Arguments Rejected {T}.
Arguments RespError {T} message.
Arguments RespRows {T} data.

Record Backend := mkBackend {
  b_contacts : SupaResp Contact.t;
  b_products : SupaResp Product.t;
  b_taxes : SupaResp Tax.t;
  b_accounts : SupaResp Account.t;
  b_purchaseOrders : SupaResp PurchaseOrder.t;
  b_invoices : SupaResp Invoice.t;
  b_salesOrders : SupaResp SalesOrder.t;
  b_vendorBills : SupaResp VendorBill.t;
  b_payments : SupaResp Payment.t;
  b_ledger : SupaResp LedgerEntry.t }.

Record DbData := mkDbData {
  d_contacts : list Contact.t;
  d_products : list Product.t;
  d_taxes : list Tax.t;
  d_accounts : list Account.t;
  d_purchaseOrders : list PurchaseOrder.t;
  d_invoices : list Invoice.t;
  d_salesOrders : list SalesOrder.t;
  d_vendorBills : list VendorBill.t;
  d_payments : list Payment.t;
  d_ledger : list LedgerEntry.t }.

(** The result of an asynchronous call: it throws, or returns. *)
Inductive Result (A : Type) := Threw | Returned (a : A).
Arguments Threw {A}.
Arguments Returned {A} a.

(** [get] of [dbLoadAll]: the rows of a select that settled with rows;
    [None] when the select rejected, which makes [Promise.all] throw, or
    settled with an error, which [get] throws. *)
Definition get {T} (r : SupaResp T) : option (list T) :=
  match r with RespRows d => Some d | _ => None end.

(** [dbLoadAll]: [null] without a client; otherwise the ten selects, all of
    which must settle with rows. *)
Definition dbLoadAll (supabase : bool) (b : Backend) : Result (option DbData) :=
  if negb supabase then Returned None
  else
    match get (b_contacts b), get (b_products b), get (b_taxes b),
          get (b_accounts b), get (b_purchaseOrders b), get (b_invoices b),
          get (b_salesOrders b), get (b_vendorBills b), get (b_payments b),
          get (b_ledger b) with
    | Some c, Some p, Some t, Some a, Some po, Some i, Some so, Some vb,
      Some pm, Some l =>
        Returned (Some (mkDbData c p t a po i so vb pm l))
    | _, _, _, _, _, _, _, _, _, _ => Threw
    end.

(** [{ ...p, stockQty: p.type === 'Goods' ? (p.stockQty ?? 0) : 0 }] *)
Definition normaliseStock (p : Product.t) : Product.t :=
  setStockQty p
    (if ProductType_eqb (Product.type p) Goods
     then nullish (Product.stockQty p) 0%Q else 0%Q).

(** What the start-up effect does that can be seen from outside. *)
Inductive Effect :=
| QueryBackend
| Dispatch (a : AppAction).

Section Runtime.

Variable dateOfString : string -> Date.
Variable toISOString : Z -> string.
(** [JSON.parse] on a text; [None] when it throws. *)
Variable JSON_parse : string -> option Json.
(** The unchecked view [as AppState] of a revived snapshot. *)
Variable asAppState : JsValue -> PartialAppState.
(** The bundled mock data ([src/data/mockData]). *)
Variable mockContacts : list Contact.t.
Variable mockProducts : list Product.t.
Variable mockTaxes : list Tax.t.
Variable mockAccounts : list Account.t.
Variable mockPurchaseOrders : list PurchaseOrder.t.
Variable mockInvoices : list Invoice.t.

Definition mockPayload : PartialAppState :=
  {| p_contacts := Some mockContacts;
     p_products := Some (List.map normaliseStock mockProducts);
     p_taxes := Some mockTaxes;
     p_accounts := Some mockAccounts;
     p_purchaseOrders := Some mockPurchaseOrders;
     p_invoices := Some mockInvoices;
     p_salesOrders := Some [];
     p_vendorBills := Some [];
     p_payments := Some [];
     p_ledger := Some [];
     p_audit := Some [] |}.

Definition backendPayload (data : DbData) : PartialAppState :=
  {| p_contacts := Some (d_contacts data);
     p_products := Some (List.map normaliseStock (d_products data));
     p_taxes := Some (d_taxes data);
     p_accounts := Some (d_accounts data);
     p_purchaseOrders := Some (d_purchaseOrders data);
     p_invoices := Some (d_invoices data);
     p_salesOrders := Some (d_salesOrders data);
     p_vendorBills := Some (d_vendorBills data);
     p_payments := Some (d_payments data);
     p_ledger := Some (d_ledger data);
     p_audit := Some [] |}.

(** The part of [init] that runs when no snapshot was found. *)
Definition seedWithoutSnapshot (supabase : bool) (b : Backend) : list Effect :=
  if supabase then
    QueryBackend ::
    match dbLoadAll supabase b with
    | Returned (Some data) => [ Dispatch (seed (backendPayload data)) ]
    | _ => [ Dispatch (seed mockPayload) ]
    end
  else [ Dispatch (seed mockPayload) ].

(** [init]: [localStorage] maps a key to the text stored under it.  A text
    that does not parse makes [init] throw before it dispatches. *)
Definition init (localStorage : string -> option string) (supabase : bool)
  (b : Backend) : list Effect :=
  match localStorage STORAGE_KEY with
  | Some raw =>
      if truthyStr raw then
        match JSON_parse raw with
        | None => []
        | Some j =>
            match reviveDates dateOfString toISOString (parse j) with
            | Some parsed => [ Dispatch (seed (asAppState parsed)) ]
            | None => []
            end
        end
      else seedWithoutSnapshot supabase b
  | None => seedWithoutSnapshot supabase b
  end.

End Runtime.

End Startup.
Export Startup.

(** ** The payment server: [POST /api/payment/verify] *)

Module Server.

Record Order := mkOrder {
  o_id : string; o_amount : Q; o_currency : string; o_receipt : string;
  o_status : string; o_created_at : Date }.

(** What [razorpay.payments.fetch] returns, as far as the handler reads it. *)
Record PaymentDetails := mkDetails {
  pd_status : option string; pd_method : option string }.

Record StoredPayment := mkStored {
  sp_id : string;
  sp_razorpay_order_id : string;
  sp_razorpay_payment_id : string;
  sp_razorpay_signature : string;
  sp_amount : Q;
  sp_currency : string;
  sp_status : string;
  sp_method : string;
  sp_invoice_id : option string;
  sp_contact_id : option string;
  sp_created_at : Date;
  sp_verified_at : Date;
  sp_payment_details : option PaymentDetails }.

(** The in-memory storage. *)
Record Storage := mkStorage {
  payments : list StoredPayment;
  orders : list Order }.

(** [req.body] after [express.json()], for requests whose ids are texts
    and whose amount is a number: a property that is missing is [None]. *)
Record Body := mkBody {
  razorpay_order_id : option string;
  razorpay_payment_id : option string;
  razorpay_signature : option string;
  invoice_id : option string;
  contact_id : option string;
  amount : option Q }.

Record Env := mkEnv {
  RAZORPAY_KEY_SECRET : option string;
  VITE_RAZORPAY_KEY_SECRET : option string }.

Inductive ResponseBody :=
| ErrorBody (error message : string)
| VerifiedBody (id : string) (amount : Q) (currency status method : string)
    (created_at : Date).

Record Response := mkResponse { status : Z; body : ResponseBody }.

(** A string property that is there and not empty. *)
Definition truthy (o : option string) : option string :=
  match o with
  | Some s => if truthyStr s then Some s else None
  | None => None
  end.

(** [a || b] on optional strings. *)
Definition orElse (a b : option string) : option string :=
  match truthy a with Some s => Some s | None => b end.

Section Verify.

(** [crypto.createHmac('sha256', key).update(msg).digest('hex')] *)
Variable hmacSha256Hex : string -> string -> string.

(** The handler.  [fetched] is what [razorpay.payments.fetch] settled to,
    [rnd] the random suffix of the record's id, [clk] the clock. *)
Definition verify (env : Env) (st : Storage) (b : Body)
  (fetched : Result PaymentDetails) (rnd : string) (clk : Clock)
  : Response * Storage :=
  match truthy (razorpay_order_id b), truthy (razorpay_payment_id b),
        truthy (razorpay_signature b) with
  | Some order_id, Some payment_id, Some signature =>
      match truthy (orElse (RAZORPAY_KEY_SECRET env) (VITE_RAZORPAY_KEY_SECRET env)) with
      | None =>
          (mkResponse 500 (ErrorBody "Configuration error"
                             "Payment gateway is not properly configured"), st)
      | Some razorpay_secret =>
          let generated_signature :=
            hmacSha256Hex razorpay_secret (order_id ++ "|" ++ payment_id) in
          if negb (String.eqb generated_signature signature) then
            (mkResponse 400 (ErrorBody "Invalid signature"
               "Payment verification failed due to signature mismatch"), st)
          else
            match List.find (fun o => String.eqb (o_id o) order_id) (orders st) with
            | None =>
                (mkResponse 404 (ErrorBody "Order not found"
                   "The specified order could not be found"), st)
            | Some order =>
                let paymentDetails :=
                  match fetched with Returned d => Some d | Threw => None end in
                let payment :=
                  {| sp_id := "payment_" ++ showZ (clk 0%nat) ++ "_" ++ rnd;
                     sp_razorpay_order_id := order_id;
                     sp_razorpay_payment_id := payment_id;
                     sp_razorpay_signature := signature;
                     sp_amount := (o_amount order / 100)%Q;
                     sp_currency := o_currency order;
                     sp_status :=
                       nullish (truthy (paymentDetails ≫= pd_status)) "captured";
                     sp_method :=
                       nullish (truthy (paymentDetails ≫= pd_method)) "unknown";
                     sp_invoice_id := invoice_id b;
                     sp_contact_id := contact_id b;
                     sp_created_at := ValidDate (clk 1%nat);
                     sp_verified_at := ValidDate (clk 2%nat);
                     sp_payment_details := paymentDetails |} in
                (mkResponse 200
                   (VerifiedBody (sp_id payment) (sp_amount payment)
                      (sp_currency payment) (sp_status payment)
                      (sp_method payment) (sp_created_at payment)),
                 mkStorage (payments st ++ [payment]) (orders st))
            end
      end
  | _, _, _ =>
      (mkResponse 400 (ErrorBody "Missing payment details"
         "Order ID, Payment ID, and Signature are required"), st)
  end.

End Verify.

(** [POST /api/payment/create-order] *)
Record CreateBody := mkCreateBody {
  c_amount : option Q;
  c_currency : option string;
  c_receipt : option string }.

(** The options handed to [razorpay.orders.create], and the order it
    answers with. *)
Record OrderOptions := mkOrderOptions {
  opt_amount : Z; opt_currency : string; opt_receipt : string }.

Record RazorpayOrder := mkRazorpayOrder {
  ro_id : string; ro_amount : Q; ro_currency : string; ro_receipt : string;
  ro_status : string }.

Inductive CreateReply :=
| CreateError (status : Z) (error : string)
| CreateSuccess (id : string) (amount : Q) (currency receipt status : string).

Section Paise.

(** [toPaise amount] is what [Math.round(amount * 100)] evaluates to in the
    runtime's arithmetic. *)
Variable toPaise : Q -> Z.

Definition orderOptions (amount : Q) (b : CreateBody) (clk : Clock) : OrderOptions :=
  {| opt_amount := toPaise amount;
     opt_currency := nullish (c_currency b) "INR";
     opt_receipt := nullish (truthy (c_receipt b)) ("receipt_" ++ showZ (clk 0%nat)) |}.

(** The handler; [created] is what [razorpay.orders.create] settles to for
    the options. *)
Definition createOrder (st : Storage) (b : CreateBody)
  (created : OrderOptions -> Result RazorpayOrder) (clk : Clock)
  : CreateReply * Storage :=
  match c_amount b with
  | None => (CreateError 400 "Invalid amount", st)
  | Some amount =>
      if Qle_bool amount 0 then (CreateError 400 "Invalid amount", st)
      else
        match created (orderOptions amount b clk) with
        | Threw => (CreateError 500 "Order creation failed", st)
        | Returned order =>
            (CreateSuccess (ro_id order) (ro_amount order) (ro_currency order)
               (ro_receipt order) (ro_status order),
             mkStorage (payments st)
               (orders st
                ++ [ mkOrder (ro_id order) (ro_amount order) (ro_currency order)
                       (ro_receipt order) (ro_status order)
                       (ValidDate (clk 1%nat)) ]))
        end
  end.

End Paise.

(** [GET /api/payment/:payment_id] *)
Inductive LookupReply :=
| LookupError (status : Z) (error : string)
| LookupFound (id razorpay_payment_id : string) (amount : Q)
    (currency status method : string) (created_at verified_at : Date).

Definition getPayment (st : Storage) (payment_id : string) : LookupReply :=
  match List.find
          (fun p => String.eqb (sp_id p) payment_id
                    || String.eqb (sp_razorpay_payment_id p) payment_id)
          (payments st) with
  | None => LookupError 404 "Payment not found"
  | Some payment =>
      LookupFound (sp_id payment) (sp_razorpay_payment_id payment)
        (sp_amount payment) (sp_currency payment) (sp_status payment)
        (sp_method payment) (sp_created_at payment) (sp_verified_at payment)
  end.

(** The server's life: its two arrays start empty and the handlers are the
    only code that writes them.  A request, with what the outside world
    answered while it was handled. *)
Inductive Request :=
| PostCreateOrder (b : CreateBody)
    (created : OrderOptions -> Result RazorpayOrder) (clk : Clock)
| PostVerify (b : Body) (fetched : Result PaymentDetails) (rnd : string)
    (clk : Clock)
| GetPayment (payment_id : string).

Definition start : Storage := mkStorage [] [].

Definition serve (hmacSha256Hex : string -> string -> string)
  (toPaise : Q -> Z) (env : Env) (st : Storage) (req : Request) : Storage :=
  match req with
  | PostCreateOrder b created clk => snd (createOrder toPaise st b created clk)
  | PostVerify b fetched rnd clk =>
      snd (verify hmacSha256Hex env st b fetched rnd clk)
  | GetPayment _ => st
  end.

End Server.

(** ** The rate limiter ([src/utils/rateLimiter.ts]) *)

Module RateLimiter.

Record RateLimitConfig := mkConfig {
  maxRequests : Z;
  windowMs : Z;
  blockDurationMs : option Z }.

Record t := mk {
  requests : gmap string (list Z);
  blockedUsers : gmap string Z }.

Definition empty : t := mk ∅ ∅.

(** Truthiness of an optional number: there, and not zero. *)
Definition truthyNum (o : option Z) : option Z :=
  match o with
  | Some n => if Z.eqb n 0 then None else Some n
  | None => None
  end.

Definition maxAge : Z := 24 * 60 * 60 * 1000.

(** [cleanup], with [now] its own reading of the clock. *)
Definition cleanup (now : Z) (rl : t) : t :=
  {| requests :=
       omap (fun reqs : list Z =>
               let validRequests := List.filter (fun time => (now - time <? maxAge)%Z) reqs in
               match validRequests with
               | [] => None
               | _ => Some validRequests
               end) (requests rl);
     blockedUsers :=
       filter (fun kv : string * Z => ¬ (now >= snd kv)%Z) (blockedUsers rl) |}.

(** The first steps of [isRateLimited]: is the identifier blocked now, and
    the limiter once a block that has expired is removed. *)
Definition blockedNow (rl : t) (identifier : string) (now : Z) : bool :=
  match truthyNum (blockedUsers rl !! identifier) with
  | Some blockedUntil => (now <? blockedUntil)%Z
  | None => false
  end.

Definition removeExpiredBlock (rl : t) (identifier : string) (now : Z) : t :=
  match truthyNum (blockedUsers rl !! identifier) with
  | Some blockedUntil =>
      if (now >=? blockedUntil)%Z
      then mk (requests rl) (delete identifier (blockedUsers rl))
      else rl
  | None => rl
  end.

(** [isRateLimited]: [now] is the reading at entry, [now'] the one
    [cleanup] makes. *)
Definition isRateLimited (rl : t) (identifier : string)
  (config : RateLimitConfig) (now now' : Z) : bool * t :=
  if blockedNow rl identifier now then (true, rl)
  else
    let rl := removeExpiredBlock rl identifier now in
    let userRequests := nullish (requests rl !! identifier) [] in
    let validRequests :=
      List.filter (fun time => (now - time <? windowMs config)%Z) userRequests in
    if (Z.of_nat (length validRequests) >=? maxRequests config)%Z then
      (true,
       match truthyNum (blockDurationMs config) with
       | Some d => mk (requests rl) (<[identifier := (now + d)%Z]> (blockedUsers rl))
       | None => rl
       end)
    else
      (false,
       cleanup now'
         (mk (<[identifier := (validRequests ++ [now])%list]> (requests rl))
            (blockedUsers rl))).

(** [getRemainingRequests] *)
Definition getRemainingRequests (rl : t) (identifier : string)
  (config : RateLimitConfig) (now : Z) : Z :=
  let userRequests := nullish (requests rl !! identifier) [] in
  let validRequests :=
    List.filter (fun time => (now - time <? windowMs config)%Z) userRequests in
  Z.max 0 (maxRequests config - Z.of_nat (length validRequests)).

(** [getTimeUntilReset]; [Math.min(...userRequests)] is taken of a list
    that is not empty. *)
Definition getTimeUntilReset (rl : t) (identifier : string)
  (config : RateLimitConfig) (now : Z) : Z :=
  match nullish (requests rl !! identifier) [] with
  | [] => 0%Z
  | first :: rest =>
      let oldestRequest := fold_left Z.min rest first in
      let resetTime := (oldestRequest + windowMs config)%Z in
      Z.max 0 (resetTime - now)
  end.

(** [clearUser] *)
Definition clearUser (rl : t) (identifier : string) : t :=
  mk (delete identifier (requests rl)) (delete identifier (blockedUsers rl)).

End RateLimiter.

(** ** The LRU cache ([src/utils/cache.ts])

    The [Map] of the cache is kept in insertion order, which is the order
    [entries()] yields and a stable sort preserves among equal keys. *)

Module Cache.

Section WithData.

(** The cached data, of whatever type the caller stores. *)
Variable T : Type.
(** [estimateSize]: twice the length of the data's JSON text, or 1024. *)
Variable estimateSize : T -> Z.
(** [Math.ceil(n * 0.2)] in the runtime's arithmetic. *)
Variable ceilFifth : Z -> Z.

Record CacheItem := mkItem {
  data : T;
  timestamp : Z;
  ttl : Z;
  accessCount : Z;
  lastAccessed : Z }.

Definition Entries := list (string * CacheItem).

(** The [Map] operations. *)
Definition mapGet (key : string) (m : Entries) : option CacheItem :=
  snd <$> List.find (fun kv => String.eqb (fst kv) key) m.

Definition mapHas (key : string) (m : Entries) : bool :=
  existsb (fun kv => String.eqb (fst kv) key) m.

Definition mapDelete (key : string) (m : Entries) : Entries :=
  List.filter (fun kv => negb (String.eqb (fst kv) key)) m.

(** [Map.prototype.set]: a key that is there keeps its place, a new key
    goes to the end. *)
Definition mapSet (key : string) (item : CacheItem) (m : Entries) : Entries :=
  if mapHas key m
  then List.map (fun kv => if String.eqb (fst kv) key then (key, item) else kv) m
  else (m ++ [(key, item)])%list.

Record CacheOptions := mkOptions {
  o_maxSize : option Z;
  o_defaultTTL : option Z;
  o_maxMemoryUsage : option Q }.

Record LRUCache := mkCache {
  cache : Entries;
  maxSize : Z;
  defaultTTL : Z;
  maxMemoryUsage : Q }.

(** [x || d] on an optional number. *)
Definition orZ (o : option Z) (d : Z) : Z :=
  match o with
  | Some n => if Z.eqb n 0 then d else n
  | None => d
  end.

Definition orQ (o : option Q) (d : Q) : Q :=
  match o with
  | Some n => if Qeq_bool n 0 then d else n
  | None => d
  end.

Definition new (options : CacheOptions) : LRUCache :=
  {| cache := [];
     maxSize := orZ (o_maxSize options) 1000;
     defaultTTL := orZ (o_defaultTTL options) (5 * 60 * 1000);
     maxMemoryUsage := orQ (o_maxMemoryUsage options) 50 |}.

Definition withCache (c : LRUCache) (m : Entries) : LRUCache :=
  {| cache := m; maxSize := maxSize c; defaultTTL := defaultTTL c;
     maxMemoryUsage := maxMemoryUsage c |}.

Definition size (c : LRUCache) : Z := Z.of_nat (length (cache c)).

Definition expired (now : Z) (item : CacheItem) : bool :=
  (now - timestamp item >? ttl item)%Z.

(** [cleanup]: the number of entries removed, and the cache. *)
Definition cleanup (now : Z) (c : LRUCache) : Z * LRUCache :=
  let kept := List.filter (fun kv => negb (expired now (snd kv))) (cache c) in
  ((Z.of_nat (length (cache c)) - Z.of_nat (length kept))%Z, withCache c kept).

(** [getStats().memoryUsageMB] *)
Definition memoryUsageMB (c : LRUCache) : Q :=
  let totalMemory :=
    fold_left
      (fun total kv =>
         (total + (estimateSize (data (snd kv))
                   + Z.of_nat (String.length (fst kv)) * 2))%Z)
      (cache c) 0%Z in
  (inject_Z totalMemory / inject_Z (1024 * 1024))%Q.

(** A stable sort by [lastAccessed], ascending. *)
Fixpoint insertByAccess (x : string * CacheItem) (l : Entries) : Entries :=
  match l with
  | [] => [x]
  | y :: l' =>
      if (lastAccessed (snd x) <=? lastAccessed (snd y))%Z
      then x :: y :: l'
      else y :: insertByAccess x l'
  end.

Fixpoint sortByAccess (l : Entries) : Entries :=
  match l with
  | [] => []
  | x :: l' => insertByAccess x (sortByAccess l')
  end.

(** [evictLRU] *)
Definition evictLRU (count : Z) (c : LRUCache) : LRUCache :=
  let entries := sortByAccess (cache c) in
  let n := Z.to_nat (Z.min count (Z.of_nat (length entries))) in
  withCache c
    (fold_left (fun m kv => mapDelete (fst kv) m) (firstn n entries) (cache c)).

(** The two checks of [evictIfNecessary]: memory usage, then size. *)
Definition memoryCheck (c : LRUCache) : LRUCache :=
  if Qgtb (memoryUsageMB c) (maxMemoryUsage c)
  then evictLRU (ceilFifth (size c)) c
  else c.

Definition sizeCheck (c : LRUCache) : LRUCache :=
  if (size c >? maxSize c)%Z
  then evictLRU (size c - maxSize c)%Z c
  else c.

(** [evictIfNecessary]; [now] is the reading [cleanup] makes. *)
Definition evictIfNecessary (now : Z) (c : LRUCache) : LRUCache :=
  sizeCheck (memoryCheck (snd (cleanup now c))).

(** The first half of [set]: the old entry of the key goes, the new one is
    added. *)
Definition store (key : string) (value : T) (ttl : option Z) (now : Z)
  (c : LRUCache) : LRUCache :=
  let cacheItem :=
    {| data := value; timestamp := now; ttl := orZ ttl (defaultTTL c);
       accessCount := 0; lastAccessed := now |} in
  let m := if mapHas key (cache c) then mapDelete key (cache c) else cache c in
  withCache c (mapSet key cacheItem m).

(** [set]; [now] is the reading at entry, [now'] the one the eviction
    makes. *)
Definition set (key : string) (value : T) (ttl : option Z) (now now' : Z)
  (c : LRUCache) : LRUCache :=
  evictIfNecessary now' (store key value ttl now c).

(** [has] *)
Definition has (key : string) (now : Z) (c : LRUCache) : bool * LRUCache :=
  match mapGet key (cache c) with
  | None => (false, c)
  | Some item =>
      if expired now item then (false, withCache c (mapDelete key (cache c)))
      else (true, c)
  end.

(** [delete] *)
Definition delete (key : string) (c : LRUCache) : bool * LRUCache :=
  (mapHas key (cache c), withCache c (mapDelete key (cache c))).

(** [clear] *)
Definition clear (c : LRUCache) : LRUCache := withCache c [].

(** [getHitRate]: the accesses per entry. *)
Definition getHitRate (c : LRUCache) : Q :=
  if (size c =? 0)%Z then 0%Q
  else
    let totalAccess :=
      fold_left (fun total kv => (total + accessCount (snd kv))%Z) (cache c) 0%Z in
    (inject_Z totalAccess / inject_Z (size c))%Q.

Record Stats := mkStats {
  totalEntries : Z;
  activeEntries : Z;
  expiredEntries : Z;
  statsMemoryUsageMB : Q;
  hitRate : Q }.

(** [getStats]: the loop counts an entry as expired or as active. *)
Definition getStats (now : Z) (c : LRUCache) : Stats :=
  let counts :=
    fold_left
      (fun (n : Z * Z) kv =>
         if expired now (snd kv) then (fst n + 1, snd n)%Z else (fst n, snd n + 1)%Z)
      (cache c) (0, 0)%Z in
  {| totalEntries := size c;
     activeEntries := snd counts;
     expiredEntries := fst counts;
     statsMemoryUsageMB := memoryUsageMB c;
     hitRate := getHitRate c |}.

End WithData.

Arguments data {T} _.
Arguments timestamp {T} _.
Arguments ttl {T} _.
Arguments accessCount {T} _.
Arguments lastAccessed {T} _.
Arguments mkItem {T} _ _ _ _ _.
Arguments cache {T} _.
Arguments maxSize {T} _.
Arguments defaultTTL {T} _.
Arguments maxMemoryUsage {T} _.
Arguments mkCache {T} _ _ _ _.
Arguments mapGet {T} _ _.
Arguments mapHas {T} _ _.
Arguments mapDelete {T} _ _.
Arguments mapSet {T} _ _ _.
Arguments size {T} _.
Arguments expired {T} _ _.
Arguments sortByAccess {T} _.
Arguments insertByAccess {T} _ _.
Arguments withCache {T} _ _.
Arguments has {T} _ _ _.
Arguments delete {T} _ _.
Arguments clear {T} _.
Arguments cleanup {T} _ _.
Arguments evictLRU {T} _ _.
Arguments new {T} _.
Arguments sizeCheck {T} _.
Arguments store {T} _ _ _ _ _.
Arguments getHitRate {T} _.
Arguments getStats {T} _ _.
Arguments Entries T : clear implicits.

(** [get] returns [item.data] or [null], and the data may be [null]
    themselves: the cache stores what it is given.  The data are therefore
    taken as [option V], with [V] the data other than [null] and [None]
    for [null]; what [get] returns is of the same type. *)
Section Nullable.

Variable V : Type.
Variable estimateSize : option V -> Z.
Variable ceilFifth : Z -> Z.

Local Abbreviation LRUCache := (LRUCache (option V)).

(** [get]; [now] is the reading of the clock, made once the key is
    found. *)
Definition get (key : string) (now : Z) (c : LRUCache) : option V * LRUCache :=
  match mapGet key (cache c) with
  | None => (None, c)
  | Some item =>
      if expired now item then (None, withCache c (mapDelete key (cache c)))
      else
        let item :=
          {| data := data item; timestamp := timestamp item; ttl := ttl item;
             accessCount := (accessCount item + 1)%Z; lastAccessed := now |} in
        (data item,
         withCache c (mapSet key item (mapDelete key (cache c))))
  end.

(** [CacheManager.getOrSet]: [fetcher] is what the fetcher settles to when
    it is called; the answer says whether it was.  [get] reads the clock
    when it finds the key, and not otherwise; [set] and its eviction then
    make the next two readings.  An entry whose data are [null] is found
    by [get] and taken for a miss by [cached !== null]. *)
Definition getOrSet (key : string) (fetcher : Result (option V))
  (ttl : option Z) (clk : Clock) (c : LRUCache)
  : Result (option V) * LRUCache * bool :=
  let read :=
    match mapGet key (cache c) with None => 0%nat | Some _ => 1%nat end in
  match get key (clk 0%nat) c with
  | (Some cached, c) => (Returned (Some cached), c, false)
  | (None, c) =>
      match fetcher with
      | Threw => (Threw, c, true)
      | Returned data =>
          (Returned data,
           set (option V) estimateSize ceilFifth key data ttl
             (clk read) (clk (S read)) c,
           true)
      end
  end.

End Nullable.

Arguments get {V} _ _ _.

End Cache.

(** ** The amounts of the ledger, as the runtime has them

    The store model above carries amounts as exact rationals.  Whether the
    debits and the credits of a batch have the same sum depends on what
    the rationals do not have: a [number] of the runtime is an IEEE 754
    double, and the text of a form that does not read as a number becomes
    [NaN], which differs from itself.  The amounts that the posting flows
    write into the ledger are therefore followed here once more, from the
    same source lines, with the doubles of the runtime. *)

Module Number.

Local Open Scope float_scope.

(** Truthiness of a number: neither zero nor [NaN]. *)
Definition truthy (x : float) : bool := negb (x =? 0) && negb (is_nan x).

(** [a.reduce((s, x) => s + f(x), 0)]. *)
Definition sum {A} (f : A -> float) (l : list A) : float :=
  fold_left (fun s x => s + f x) l 0.

End Number.

Module Posting.

Local Open Scope float_scope.

(** An entry as a flow hands it to [postLedgerEntries], which keeps these
    four properties as they are. *)
Record Line := mkLine {
  accountId : string; accountName : string; debit : float; credit : float }.

Definition line (a : Account.t) (debit credit : float) : Line :=
  mkLine (Account.id a) (Account.name a) debit credit.

(** The sums of a batch are equal: [===] on the two sums. *)
Definition balanced (batch : list Line) : bool :=
  (Number.sum debit batch =? Number.sum credit batch).

(** A row of the invoice or bill form: free text. *)
Record Row := mkRow {
  r_productId : string; r_qty : string; r_unitPrice : string; r_taxPct : string }.

(** An invoice and a product, as far as posting reads their numbers. *)
Record Item := mkItem { productId : string; quantity : float }.
Record Invoice := mkInvoice {
  items : list Item; total : float; paidAmount : float }.
Record Product := mkProduct { id : string; purchasePrice : float }.

Section Runtime.

(** [parseFloat] of the runtime. *)
Variable parseFloat : string -> float.

(** [text || '0'] *)
Definition orZero (text : string) : string :=
  if truthyStr text then text else "0".

(** [totals] of the invoice form and [computeTotals] of the bill form:
    subtotal, tax amount and total. *)
Definition totals (rows : list Row) : float * float * float :=
  let sums :=
    fold_left
      (fun (acc : float * float) it =>
         let qty := parseFloat (orZero (r_qty it)) in
         let price := parseFloat (orZero (r_unitPrice it)) in
         let line := qty * price in
         let tax := parseFloat (orZero (r_taxPct it)) in
         (fst acc + line, snd acc + line * (tax / 100)))
      rows (0, 0) in
  (fst sums, snd sums, fst sums + snd sums).

(** The numbers of the invoice that [saveInvoice] builds from the rows; the
    customer and every product of a row are taken to be found. *)
Definition savedInvoice (rows : list Row) : Invoice :=
  {| items :=
       List.map (fun it => mkItem (r_productId it) (parseFloat (orZero (r_qty it))))
         rows;
     total := snd (totals rows);
     paidAmount := 0 |}.

(** The amount of the bill that [saveBill] builds from the rows. *)
Definition savedBillAmount (rows : list Row) : float := snd (totals rows).

End Runtime.

(** [postInvoice]: the payloads of the ['ledger/append'] actions it
    dispatches. *)
Definition totalCost (products : list Product) (inv : Invoice) : float :=
  fold_left
    (fun sum it =>
       let prod := List.find (fun p => String.eqb (id p) (productId it)) products in
       let cost :=
         (match prod with Some p => purchasePrice p | None => 0 end) * quantity it in
       sum + cost)
    (items inv) 0.

Definition revenueLines (ar sales : Account.t) (inv : Invoice) : list Line :=
  [ line ar (total inv) 0; line sales 0 (total inv) ].

Definition cogsLines (cogs inventory : Account.t) (totalCost : float)
  : list Line :=
  [ line cogs totalCost 0; line inventory 0 totalCost ].

Definition postInvoice (accounts : list Account.t) (products : list Product)
  (inv : Invoice) : list (list Line) :=
  match List.find (nameHas "accounts receivable") accounts,
        List.find (fun a => AccountType_eqb (Account.type a) Income) accounts,
        List.find (fun a => nameHas "cost of goods" a || startsWith (Account.code a) "E")
          accounts,
        List.find (nameHas "inventory") accounts with
  | Some ar, Some sales, Some cogs, Some inventory =>
      let entries := revenueLines ar sales inv in
      let totalCost := totalCost products inv in
      let cogsEntries := cogsLines cogs inventory totalCost in
      [ (entries ++ cogsEntries)%list ]
  | _, _, _, _ => []
  end.

(** [handleRazorpayPayment] with the success callback: [answer] is the
    gateway's successful response, or nothing when the payment failed or
    was dismissed. *)
Definition handleRazorpayPayment (razorpayAvailable : bool)
  (accounts : list Account.t) (invoice : Invoice)
  (answer : option Invoices.RazorpayResponse) : list (list Line) :=
  if negb razorpayAvailable then []
  else
    let remainingAmount := total invoice - paidAmount invoice in
    if (remainingAmount <=? 0) then []
    else
      match answer with
      | None => []
      | Some razorpayResponse =>
          if negb (Invoices.verifyPaymentSignature
                     (Invoices.razorpay_payment_id razorpayResponse)
                     (Invoices.razorpay_order_id razorpayResponse)
                     (Invoices.razorpay_signature razorpayResponse))
          then []
          else
            match List.find (nameHas "cash") accounts,
                  List.find (nameHas "accounts receivable") accounts with
            | Some cash, Some ar =>
                [ [ line cash remainingAmount 0; line ar 0 remainingAmount ] ]
            | _, _ => []
            end
      end.

(** [savePayment]: a contact that is not found makes it throw before it
    dispatches. *)
Definition savePayment (parseFloat : string -> float)
  (accounts : list Account.t) (contacts : list Contact.t)
  (form : Payments.Form) : list (list Line) :=
  let amount := parseFloat (orZero (Payments.f_amount form)) in
  if negb (Number.truthy amount) || negb (truthyStr (Payments.f_contactId form))
  then []
  else
    match List.find (fun c => String.eqb (Contact.id c) (Payments.f_contactId form))
            contacts with
    | None => []
    | Some contact =>
        let cash :=
          match List.find (nameHas "cash") accounts with
          | Some c => Some c
          | None => List.find (fun a => AccountType_eqb (Account.type a) Asset) accounts
          end in
        match cash, List.find (nameHas "accounts receivable") accounts,
              List.find (nameHas "accounts payable") accounts with
        | Some cash, Some ar, Some ap =>
            match Payments.f_type form with
            | Received => [ [ line cash amount 0; line ar 0 amount ] ]
            | Made => [ [ line ap amount 0; line cash 0 amount ] ]
            end
        | _, _, _ => []
        end
    end.

(** [postToLedgerAndInventory] of the vendor bills. *)
Definition postToLedgerAndInventory (accounts : list Account.t)
  (billAmount : float) : list (list Line) :=
  match List.find (nameHas "inventory") accounts,
        List.find (nameHas "accounts payable") accounts with
  | Some inventory, Some ap =>
      [ [ line inventory billAmount 0; line ap 0 billAmount ] ]
  | _, _ => []
  end.

End Posting.

(** ** Reducing what a flow dispatched *)

(** The store after the actions of a flow, reduced in order. *)
Definition dispatchAll (state : AppState) (actions : list AppAction) : AppState :=
  fold_left reducer actions state.

(** ** The reports ([src/pages/Reports.tsx]) *)

Module Reports.

Record Totals := mkTotals { debit : Q; credit : Q }.

(** [ledgerTotals]: the debits and credits of the ledger, by account id. *)
Definition ledgerTotals (ledger : list LedgerEntry.t) : gmap string Totals :=
  fold_left
    (fun (map : gmap string Totals) e =>
       let cur := nullish (map !! LedgerEntry.accountId e) (mkTotals 0 0) in
       <[LedgerEntry.accountId e :=
           mkTotals (debit cur + LedgerEntry.debit e)%Q
                    (credit cur + LedgerEntry.credit e)%Q]> map)
    ledger ∅.

(** The [computedBalance] of [accountBalances]. *)
Definition computedBalance (totals : gmap string Totals) (acc : Account.t) : Q :=
  let t := nullish (totals !! Account.id acc) (mkTotals 0 0) in
  match Account.type acc with
  | Asset => (Account.balance acc + debit t - credit t)%Q
  | Liability | Equity => (Account.balance acc - debit t + credit t)%Q
  | Income => (credit t - debit t)%Q
  | Expense => (debit t - credit t)%Q
  end.

End Reports.

(** ** Roles, permissions and guarded routes
    ([src/lib/roles.ts], the permission table, [RoleBasedRoute.tsx]) *)

Module Roles.

Inductive UserRole := SuperUser | Admin | InvoicingUser | ContactMaster.

(** The text of a role, as [ROLES] spells it. *)
Definition roleName (r : UserRole) : string :=
  match r with
  | SuperUser => "SuperUser"
  | Admin => "Admin"
  | InvoicingUser => "InvoicingUser"
  | ContactMaster => "ContactMaster"
  end.

Definition ROLE_HIERARCHY (r : UserRole) : Z :=
  match r with
  | SuperUser => 4
  | Admin => 3
  | InvoicingUser => 2
  | ContactMaster => 1
  end.

Definition ROLE_DASHBOARDS (r : UserRole) : string :=
  match r with
  | SuperUser => "/dashboard/system"
  | Admin => "/dashboard/admin"
  | InvoicingUser => "/dashboard/invoicer"
  | ContactMaster => "/dashboard/contact"
  end.

Definition hasRolePermission (userRole requiredRole : UserRole) : bool :=
  (ROLE_HIERARCHY userRole >=? ROLE_HIERARCHY requiredRole)%Z.

Definition getDashboardRoute (role : UserRole) : string :=
  if truthyStr (ROLE_DASHBOARDS role) then ROLE_DASHBOARDS role else "/dashboard".

End Roles.

Module Rbac.
Import Roles.

Record User := mkUser {
  u_id : string; u_email : string; u_name : string; u_role : UserRole;
  u_companyName : string; u_contactId : option string }.

Inductive Permission :=
| masters_view
| transactions_view
| masters_contacts_edit
| masters_products_edit
| masters_tax_edit
| masters_accounts_edit
| transactions_edit
| payments_make
| reports_view
| ledger_view.

Definition hasPermission (user : option User) (perm : Permission) : bool :=
  match user with
  | None => false
  | Some user =>
      match u_role user with
      | SuperUser => true
      | Admin =>
          match perm with
          | masters_view | transactions_view | masters_contacts_edit
          | masters_products_edit | masters_tax_edit | masters_accounts_edit
          | transactions_edit | payments_make | reports_view | ledger_view => true
          end
      | InvoicingUser =>
          match perm with
          | masters_view | transactions_view | masters_contacts_edit
          | masters_products_edit | masters_tax_edit | masters_accounts_edit
          | transactions_edit | payments_make | reports_view | ledger_view => true
          end
      | ContactMaster =>
          match perm with
          | transactions_view | payments_make => true
          | _ => false
          end
      end
  end.

End Rbac.

Module Routes.
Import Roles Rbac.

(** What a guarded route renders. *)
Inductive Outcome :=
| Navigate (to : string)
| Children.

Definition RoleBasedRoute (user : option User) (allowedRoles : list string)
  (fallbackRoute : option string) : Outcome :=
  match user with
  | None => Navigate "/login"
  | Some user =>
      if negb (existsb (String.eqb (roleName (u_role user))) allowedRoles) then
        Navigate
          (match fallbackRoute with
           | Some route => if truthyStr route then route
                           else getDashboardRoute (u_role user)
           | None => getDashboardRoute (u_role user)
           end)
      else Children
  end.

Definition SystemPersonRoute (user : option User) : Outcome :=
  RoleBasedRoute user [roleName SuperUser] None.
Definition AdminRoute (user : option User) : Outcome :=
  RoleBasedRoute user [roleName SuperUser; roleName Admin] None.
Definition InvoicingUserRoute (user : option User) : Outcome :=
  RoleBasedRoute user [roleName SuperUser; roleName Admin; roleName InvoicingUser]
    None.
Definition ContactMasterRoute (user : option User) : Outcome :=
  RoleBasedRoute user
    [roleName SuperUser; roleName Admin; roleName InvoicingUser;
     roleName ContactMaster] None.

End Routes.

(** ** Paging a long list ([src/hooks/useVirtualScroll.ts]) *)

Module VirtualScroll.

Section WithItems.

Variable T : Type.
(** The filter in force: the one given, or the default one. *)
Variable filter : T -> string -> bool.

Definition pageSize : nat := 1000.

Definition filteredItems (allItems : list T) (searchTerm : string) : list T :=
  if negb (truthyStr searchTerm) then allItems
  else List.filter (fun item => filter item searchTerm) allItems.

Definition paginatedItems (allItems : list T) (searchTerm : string) (page : nat)
  : list T :=
  firstn (page * pageSize) (filteredItems allItems searchTerm).

Definition hasMore (allItems : list T) (searchTerm : string) (page : nat) : bool :=
  (length (paginatedItems allItems searchTerm page)
   <? length (filteredItems allItems searchTerm))%nat.

(** [loadMore], as it leaves the page. *)
Definition loadMore (allItems : list T) (searchTerm : string) (page : nat) : nat :=
  if hasMore allItems searchTerm page then (page + 1)%nat else page.

End WithItems.

End VirtualScroll.

(** ** Predicates the properties are stated with *)

(** The payloads of the ['ledger/append'] actions among [actions]. *)
Definition appended (actions : list AppAction) : list (list LedgerEntry.t) :=
  omap (fun a => match a with ledger_append p => Some p | _ => None end) actions.

(** An action that leaves the entries the ledger holds where they are: any
    action but ['ledger/set'] and ['seed']. *)
Definition keepsLedger (a : AppAction) : Prop :=
  match a with
  | ledger_set _ | seed _ => False
  | _ => True
  end.

(** The stock on hand, an absent one counting as none. *)
Definition stockOf (p : Product.t) : Q := nullish (Product.stockQty p) 0%Q.

(** The identifier is inside an active block: a block is recorded for it
    and ends in the future. *)
Definition activeBlock (rl : RateLimiter.t) (identifier : string) (now : Z) : Prop :=
  exists blockedUntil : Z,
    RateLimiter.blockedUsers rl !! identifier = Some blockedUntil /\
    (now < blockedUntil)%Z.

(** The recorded requests of the identifier that are younger than the
    window. *)
Definition recentRequests (rl : RateLimiter.t) (identifier : string)
  (config : RateLimiter.RateLimitConfig) (now : Z) : list Z :=
  List.filter (fun time => (now - time <? RateLimiter.windowMs config)%Z)
    (nullish (RateLimiter.requests rl !! identifier) []).

(** The keys of a cache, in insertion order, and the invariant of a [Map]:
    no key twice. *)
Definition keys {T} (m : Cache.Entries T) : list string := List.map fst m.

Definition wellFormed {T} (c : Cache.LRUCache T) : Prop :=
  List.NoDup (keys (Cache.cache c)).

(** The number of entries [evictLRU count] removes: the iterations of its
    loop. *)
Definition evicted {T} (count : Z) (c : Cache.LRUCache T) : nat :=
  Z.to_nat (Z.min count (Z.of_nat (length (Cache.cache c)))).

(** Entry [a] was accessed no later than entry [b]. *)
Definition olderThan {T} (a b : string * Cache.CacheItem T) : Prop :=
  (Cache.lastAccessed (snd a) <= Cache.lastAccessed (snd b))%Z.

(** ** Sample data, used to run the definitions *)

Module Samples.

Definition epoch : Date := ValidDate 0.

Definition acct (i n : string) (ty : AccountType) (c : string) : Account.t :=
  Account.mk i n ty None c 0.

Definition chart : list Account.t :=
  [ acct "a1" "Cash" Asset "A100";
    acct "a2" "Accounts Receivable" Asset "A200";
    acct "a3" "Inventory" Asset "A300";
    acct "a4" "Accounts Payable" Liability "L100";
    acct "a5" "Sales Revenue" Income "I100";
    acct "a6" "Cost of Goods Sold" Expense "E100" ].

Definition chair : Product.t :=
  Product.mk "p1" "Chair" Goods 100 60 18 "9401" "Furniture" None "pcs"
    (Some 10%Q) epoch.

Definition delivery : Product.t :=
  Product.mk "p2" "Delivery" Service 50 0 18 "9965" "Services" None "job"
    (Some 0%Q) epoch.

Definition buyer : Contact.t :=
  Contact.mk "c1" "Asha Traders" Customer "asha@example.com" "9000000000"
    "Pune" "MH" None None epoch.

Definition item (pid : string) (qty : Q) : LineItem.t :=
  LineItem.mk "li" pid "Chair" qty 100 18 (qty * 100).

Definition invoiceOf (lines : list LineItem.t) (total : Q) : Invoice.t :=
  Invoice.mk "INV-1" "INV-0001" "c1" "Asha Traders" epoch epoch lines
    total 0 total 0 ISent None.

Definition bill : VendorBill.t :=
  VendorBill.mk "BILL-1" "BILL-0001" "v1" "Wood Co" epoch epoch 600 0 BUnpaid
    [ item "p1" 10 ] None.

Definition state : AppState :=
  mkAppState [ buyer ] [ chair; delivery ] [] chart [] [] [] [] [] [] [].

Definition clk : Clock := fun k => (1700000000000 + Z.of_nat k)%Z.

Definition entry : EntryInput.t :=
  EntryInput.mk "a1" "Cash" 25 0 (Some "fixed-id") None None None
    (Some "own text").

Definition form : Payments.Form :=
  Payments.mkForm Made "c1" "40" Cash "" Payments.LinkNone "" None.

(** A stand-in for [parseFloat] on the texts of the sample rows: a text
    that is no number reads as [NaN]. *)
Definition parseText (s : string) : float :=
  if String.eqb s "0" then 0%float
  else if String.eqb s "3" then 3%float
  else if String.eqb s "18" then 18%float
  else if String.eqb s "100" then 100%float
  else nan.

(** A stand-in for [parseFloat] on the one text the sample form holds. *)
Definition parseSample (s : string) : option Q :=
  if String.eqb s "40" then Some 40%Q else None.

(** An instance of the runtime's [Date] for running the definitions: it
    writes the ISO format of [toISOString] for the years 0000 to 9999 and
    reads that format and nothing else. *)
Definition pad (width : nat) (n : Z) : string :=
  let digits := showZ n in
  String.concat "" (List.repeat "0" (width - String.length digits)) ++ digits.

(** The civil date of a day count from 1970-01-01. *)
Definition civilFromDays (days : Z) : Z * Z * Z :=
  let z := (days + 719468)%Z in
  let era := (z / 146097)%Z in
  let doe := (z - era * 146097)%Z in
  let yoe := ((doe - doe / 1460 + doe / 36524 - doe / 146096) / 365)%Z in
  let doy := (doe - (365 * yoe + yoe / 4 - yoe / 100))%Z in
  let mp := ((5 * doy + 2) / 153)%Z in
  let d := (doy - (153 * mp + 2) / 5 + 1)%Z in
  let m := (if mp <? 10 then mp + 3 else mp - 9)%Z in
  let y := (yoe + era * 400 + (if m <=? 2 then 1 else 0))%Z in
  (y, m, d).

Definition daysFromCivil (y m d : Z) : Z :=
  let y := (if m <=? 2 then y - 1 else y)%Z in
  let era := (y / 400)%Z in
  let yoe := (y - era * 400)%Z in
  let doy := ((153 * (if m >? 2 then m - 3 else m + 9) + 2) / 5 + d - 1)%Z in
  let doe := (yoe * 365 + yoe / 4 - yoe / 100 + doy)%Z in
  (era * 146097 + doe - 719468)%Z.

Definition sampleISO (ms : Z) : string :=
  let '(y, m, d) := civilFromDays (ms / 86400000) in
  let t := (ms mod 86400000)%Z in
  pad 4 y ++ "-" ++ pad 2 m ++ "-" ++ pad 2 d ++ "T"
  ++ pad 2 (t / 3600000) ++ ":" ++ pad 2 (t / 60000 mod 60) ++ ":"
  ++ pad 2 (t / 1000 mod 60) ++ "." ++ pad 3 (t mod 1000) ++ "Z".

(** The number written by the [len] digits of [s] from position [from]. *)
Definition digitsAt (s : string) (from len : nat) : Z :=
  fold_left
    (fun n c => (10 * n + (Z.of_nat (nat_of_ascii c) - 48))%Z)
    (list_ascii_of_string (String.substring from len s)) 0%Z.

Definition sampleDate (s : string) : Date :=
  let days := daysFromCivil (digitsAt s 0 4) (digitsAt s 5 2) (digitsAt s 8 2) in
  let ms := (days * 86400000 + digitsAt s 11 2 * 3600000 + digitsAt s 14 2 * 60000
             + digitsAt s 17 2 * 1000 + digitsAt s 20 3)%Z in
  if String.eqb (sampleISO ms) s then ValidDate ms else InvalidDate.

Definition instant : Z := 1700000000000.
Definition instantText : string := "2023-11-14T22:13:20.000Z".

(** A state with a date, a text that reads like one, an ordinary text and
    a date that is not valid. *)
Definition snapshot : JsValue :=
  VObj [ ("invoices",
          VArr [ VObj [ ("id", VStr "INV-1");
                        ("date", VDate (ValidDate instant));
                        ("dueDate", VDate InvalidDate);
                        ("notes", VStr instantText);
                        ("customerName", VStr "Asha Traders") ] ]) ].

(** Stand-ins for [JSON.parse] and for the typed view of a snapshot, on the
    one text the samples store. *)
Definition sampleParse (raw : string) : option Json :=
  if String.eqb raw "{}" then Some (JObj [])
  else None.

Definition sampleView (v : JsValue) : PartialAppState :=
  mkPartial None None None None None None None None None (Some []) None.

Definition store (raw : string) (key : string) : option string :=
  if String.eqb key STORAGE_KEY then Some raw else None.

Definition nothingStored (key : string) : option string := None.

Definition noBackend : Backend :=
  mkBackend Rejected Rejected Rejected Rejected Rejected Rejected Rejected
    Rejected Rejected Rejected.

Definition backend : Backend :=
  mkBackend (RespRows [buyer]) (RespRows [chair; delivery]) (RespRows [])
    (RespRows chart) (RespRows []) (RespRows []) (RespRows []) (RespRows [])
    (RespRows []) (RespRows []).

(** A stand-in for the keyed digest of the server. *)
Definition sampleMac (key msg : string) : string := key ++ "/" ++ msg.

(** A stand-in for the paise of an amount of rupees, right where the
    hundredfold of the amount is computed exactly, as for whole rupees. *)
Definition toPaise (amount : Q) : Z := Qfloor (amount * 100 + (1 # 2))%Q.

Definition env : Server.Env := Server.mkEnv None (Some "secret").

Definition storage : Server.Storage :=
  Server.mkStorage []
    [ Server.mkOrder "order_1" 35400 "INR" "INV-0001" "created" epoch ].

Definition body : Server.Body :=
  Server.mkBody (Some "order_1") (Some "pay_1") (Some "secret/order_1|pay_1")
    (Some "INV-1") (Some "c1") (Some 354%Q).

Definition details : Server.PaymentDetails :=
  Server.mkDetails (Some "captured") (Some "upi").

Definition limiter : RateLimiter.t :=
  RateLimiter.mk {[ "10.0.0.7" := [1000; 59000; 60500]%Z ]} ∅.

Definition tight : RateLimiter.RateLimitConfig :=
  RateLimiter.mkConfig 2 60000 (Some 300000%Z).

(** A cache of texts holding at most two entries; the size of a text is
    estimated by twice its length, a fifth is rounded up. *)
Definition textSize (s : string) : Z := (2 * Z.of_nat (String.length s))%Z.
Definition fifth (n : Z) : Z := ((n + 4) / 5)%Z.

Definition small : Cache.LRUCache string :=
  Cache.new (Cache.mkOptions (Some 2%Z) (Some 1000%Z) None).

Definition filled : Cache.LRUCache string :=
  Cache.set string textSize fifth "b" "beta" None 20 20
    (Cache.set string textSize fifth "a" "alpha" None 10 10 small).

(** The same for texts that may be [null]; the size is twice the length of
    the JSON text, a text between its quotes and [null] as four letters. *)
Definition nullableSize (d : option string) : Z :=
  match d with
  | Some s => (2 * (Z.of_nat (String.length s) + 2))%Z
  | None => 8%Z
  end.

Definition smallN : Cache.LRUCache (option string) :=
  Cache.new (Cache.mkOptions (Some 2%Z) (Some 1000%Z) None).

Definition filledN : Cache.LRUCache (option string) :=
  Cache.set (option string) nullableSize fifth "b" (Some "beta") None 20 20
    (Cache.set (option string) nullableSize fifth "a" (Some "alpha") None 10 10
       smallN).

End Samples.

(** * Properties *)

(** ** The reducer *)

(** C10.  ['ledger/append'] appends the payload to the ledger and leaves the
    ten other properties of the state as they were; an action other than
    ['ledger/append'], ['ledger/set'] and ['seed'] leaves the ledger as it
    was. *)
Theorem reducer_ledger_frame :
  (forall state payload,
     let s' := reducer state (ledger_append payload) in
     ledger s' = (ledger state ++ payload)%list /\
     firstn (length (ledger state)) (ledger s') = ledger state /\
     contacts s' = contacts state /\ products s' = products state /\
     taxes s' = taxes state /\ accounts s' = accounts state /\
     purchaseOrders s' = purchaseOrders state /\ invoices s' = invoices state /\
     salesOrders s' = salesOrders state /\ vendorBills s' = vendorBills state /\
     payments s' = payments state /\ audit s' = audit state) /\
  (forall state action,
     writesLedger action = false ->
     ledger (reducer state action) = ledger state).
Proof.
  split.
  - intros state payload; cbn.
    repeat split; try reflexivity.
    rewrite firstn_app, Nat.sub_diag, firstn_all; cbn.
    apply app_nil_r.
  - intros state [] Hw; cbn in *; congruence.
Qed.

(** The frame property at work on the sample state. *)
Lemma reducer_ledger_frame_witness :
  ledger (reducer Samples.state (products_set [])) = ledger Samples.state /\
  ledger (reducer Samples.state (ledger_append (postLedgerEntries 5 [Samples.entry] None)))
  = (ledger Samples.state ++ postLedgerEntries 5 [Samples.entry] None)%list.
Proof.
  split.
  - apply (proj2 reducer_ledger_frame); reflexivity.
  - apply (proj1 reducer_ledger_frame).
Defined.

(** The three remaining actions do write the ledger. *)
Lemma reducer_ledger_writers state :
  (forall payload, ledger (reducer state (ledger_set payload)) = payload) /\
  (forall p l, p_ledger p = Some l -> ledger (reducer state (seed p)) = l) /\
  (forall p, p_ledger p = None -> ledger (reducer state (seed p)) = ledger state).
Proof.
  repeat split; intros; cbn; try rewrite H; reflexivity.
Qed.

(** ** [postLedgerEntries] *)

Lemma postLedgerEntries_length now entries opts :
  length (postLedgerEntries now entries opts) = length entries.
Proof. unfold postLedgerEntries. apply length_imap. Qed.

Lemma postLedgerEntries_lookup now entries opts (i : nat) :
  postLedgerEntries now entries opts !! i = stamp now opts i <$> entries !! i.
Proof. unfold postLedgerEntries. apply list_lookup_imap. Qed.

(** C3.  The result has the length and the order of the input; entry [i]
    keeps the account and the two amounts of input [i], and every other
    property is the input's when the input has it, else the default:
    the id [<now>-<i>], the date [now], the reference type of the options or
    ['Adjustment'], the reference id and the description of the options. *)
Theorem postLedgerEntries_stamps (now : Z) (entries : list EntryInput.t)
  (opts : option PostOpts.t) :
  length (postLedgerEntries now entries opts) = length entries /\
  forall (i : nat) (e : EntryInput.t),
    entries !! i = Some e ->
    exists o : LedgerEntry.t,
      postLedgerEntries now entries opts !! i = Some o /\
      LedgerEntry.accountId o = EntryInput.accountId e /\
      LedgerEntry.accountName o = EntryInput.accountName e /\
      LedgerEntry.debit o = EntryInput.debit e /\
      LedgerEntry.credit o = EntryInput.credit e /\
      LedgerEntry.id o =
        match EntryInput.id e with
        | Some own => own
        | None => showZ now ++ "-" ++ showZ (Z.of_nat i)
        end /\
      LedgerEntry.date o =
        match EntryInput.date e with
        | Some own => own
        | None => ValidDate now
        end /\
      LedgerEntry.referenceType o =
        match EntryInput.referenceType e, opts with
        | Some own, _ => own
        | None, Some given =>
            match PostOpts.referenceType given with
            | Some r => r
            | None => Adjustment
            end
        | None, None => Adjustment
        end /\
      LedgerEntry.referenceId o =
        match EntryInput.referenceId e, opts with
        | Some own, _ => Some own
        | None, Some given => PostOpts.referenceId given
        | None, None => None
        end /\
      LedgerEntry.description o =
        match EntryInput.description e, opts with
        | Some own, _ => Some own
        | None, Some given => PostOpts.description given
        | None, None => None
        end.
Proof.
  split; [apply postLedgerEntries_length|].
  intros i e Hi.
  exists (stamp now opts i e).
  rewrite postLedgerEntries_lookup, Hi.
  destruct e as [aid aname d c oid odate ort orid odesc]; cbn.
  repeat split;
    destruct oid, odate, ort, orid, odesc, opts as [[gt gi gd]|]; reflexivity.
Qed.

(** The stamping run on two entries, the first with an id and a
    description of its own. *)
Lemma postLedgerEntries_stamps_witness :
  exists o : LedgerEntry.t,
    postLedgerEntries 1700000000000
      [Samples.entry; line "a2" "Accounts Receivable" 0 25]
      (Some (PostOpts.mk (Some RefPayment) (Some "PMT-1") None)) !! 1%nat
    = Some o /\
    LedgerEntry.id o = "1700000000000-1" /\
    LedgerEntry.referenceType o = RefPayment /\
    LedgerEntry.referenceId o = Some "PMT-1" /\
    LedgerEntry.description o = None /\
    LedgerEntry.credit o = 25%Q.
Proof.
  destruct (proj2 (postLedgerEntries_stamps 1700000000000
              [Samples.entry; line "a2" "Accounts Receivable" 0 25]
              (Some (PostOpts.mk (Some RefPayment) (Some "PMT-1") None)))
              1%nat (line "a2" "Accounts Receivable" 0 25) eq_refl)
    as (o & Ho & _ & _ & _ & Hc & Hid & _ & Hrt & Hri & Hd).
  exists o. repeat split; assumption.
Defined.

(** ** Sums *)

Lemma sumQ_app {A} (f : A -> Q) (l1 l2 : list A) :
  (sumQ f (l1 ++ l2)%list == sumQ f l1 + sumQ f l2)%Q.
Proof.
  unfold sumQ.
  assert (G : forall l (a b : Q), (a == b)%Q ->
            (fold_left (fun s x => s + f x) l a
             == fold_left (fun s x => s + f x) l b)%Q).
  { induction l as [|y l IH]; intros a b Hab; cbn; [exact Hab|].
    apply IH. rewrite Hab. reflexivity. }
  assert (H : forall l (a : Q),
            (fold_left (fun s x => s + f x) l a
             == a + fold_left (fun s x => s + f x) l 0)%Q).
  { induction l as [|y l IH]; intros a; cbn; [ring|].
    rewrite (IH (a + f y)%Q), (IH (0 + f y)%Q). ring. }
  rewrite fold_left_app, H. reflexivity.
Qed.

(** ** The doubles of the runtime *)

Module NumberSpec.

Local Open Scope float_scope.

Lemma is_nan_spec (x : float) : is_nan x = true <-> Prim2SF x = S754_nan.
Proof.
  unfold is_nan. rewrite FloatAxioms.eqb_spec.
  destruct (Prim2SF x) as [s|s| |s m e].
  - destruct s; cbn; split; discriminate.
  - destruct s; cbn; split; discriminate.
  - split; reflexivity.
  - unfold SFeqb, SFcompare.
    destruct s; rewrite Z.compare_refl, Pos.compare_cont_refl; cbn;
      split; discriminate.
Qed.

(** [NaN] is contagious. *)
Lemma is_nan_add_l (x y : float) : is_nan x = true -> is_nan (x + y) = true.
Proof. rewrite !is_nan_spec, add_spec. intros ->. reflexivity. Qed.

Lemma is_nan_add_r (x y : float) : is_nan y = true -> is_nan (x + y) = true.
Proof.
  rewrite !is_nan_spec, add_spec. intros ->.
  destruct (Prim2SF x); reflexivity.
Qed.

Lemma is_nan_mul_l (x y : float) : is_nan x = true -> is_nan (x * y) = true.
Proof. rewrite !is_nan_spec, mul_spec. intros ->. reflexivity. Qed.

Lemma is_nan_sub_l (x y : float) : is_nan x = true -> is_nan (x - y) = true.
Proof. rewrite !is_nan_spec, sub_spec. intros ->. reflexivity. Qed.

(** Adding zero makes no number [NaN] and leaves [NaN] what it is. *)
Lemma is_nan_zero_add (x : float) : is_nan (0 + x) = is_nan x.
Proof.
  apply eq_true_iff_eq. rewrite !is_nan_spec, add_spec.
  change (Prim2SF 0) with (S754_zero false).
  destruct (Prim2SF x) as [s|s| |s m e];
    try (split; first [reflexivity | discriminate]).
  destruct s; cbn; split; discriminate.
Qed.

Lemma is_nan_add_zero (x : float) : is_nan (x + 0) = is_nan x.
Proof.
  apply eq_true_iff_eq. rewrite !is_nan_spec, add_spec.
  change (Prim2SF 0) with (S754_zero false).
  destruct (Prim2SF x) as [s|s| |s m e];
    try (split; first [reflexivity | discriminate]).
  destruct s; cbn; split; discriminate.
Qed.

(** [y + 0 === y] for every number but [NaN]. *)
Lemma add_zero_eqb (y : float) : (y + 0 =? y) = negb (is_nan y).
Proof.
  unfold is_nan. rewrite negb_involutive, !FloatAxioms.eqb_spec, add_spec.
  change (Prim2SF 0) with (S754_zero false).
  destruct (Prim2SF y) as [s|s| |s m e]; try reflexivity.
  destruct s; reflexivity.
Qed.

Lemma truthy_not_nan (x : float) : Number.truthy x = true -> is_nan x = false.
Proof.
  unfold Number.truthy. intros H. apply andb_true_iff in H.
  destruct H as [_ H]. apply negb_true_iff in H. exact H.
Qed.

End NumberSpec.

(** ** Double entry in the posting flows *)

Module PostingSpec.
Import Posting NumberSpec.

Local Open Scope float_scope.

(** A debit line and a credit line of one amount balance exactly when the
    amount is a number. *)
Lemma pair_balanced (a b : Account.t) (x : float) :
  balanced [ line a x 0; line b 0 x ] = negb (is_nan x).
Proof.
  unfold balanced, Number.sum. cbn.
  change (0 + 0) with 0.
  rewrite add_zero_eqb, is_nan_zero_add. reflexivity.
Qed.

(** The four lines of an invoice balance exactly when their sum is a
    number. *)
Lemma quad_sums (a b c d : Account.t) (x y : float) :
  let batch := [ line a x 0; line b 0 x; line c y 0; line d 0 y ] in
  Number.sum debit batch = 0 + x + 0 + y + 0 /\
  Number.sum credit batch = 0 + x + 0 + y.
Proof. unfold Number.sum. cbn. change (0 + 0) with 0. split; reflexivity. Qed.

Lemma quad_balanced (a b c d : Account.t) (x y : float) :
  let batch := [ line a x 0; line b 0 x; line c y 0; line d 0 y ] in
  balanced batch = negb (is_nan (Number.sum debit batch)) /\
  (is_nan x = true \/ is_nan y = true -> balanced batch = false).
Proof.
  intros batch. destruct (quad_sums a b c d x y) as [Hd Hc].
  fold batch in Hd, Hc. unfold balanced. rewrite Hd, Hc.
  rewrite add_zero_eqb, is_nan_add_zero. split; [reflexivity|].
  intros H. apply negb_false_iff.
  destruct H as [H|H].
  - apply is_nan_add_l, is_nan_add_l, is_nan_add_r. exact H.
  - apply is_nan_add_r. exact H.
Qed.

(** C1.  The batch of every ['ledger/append'] a posting flow dispatches,
    with the amounts as the runtime has them.  The debits and the credits
    have the same sum exactly when the amount posted is a number: for an
    invoice the revenue pair balances unless the total is [NaN], the cost
    pair unless the total cost is, and the batch of the four unless their
    sum is; for the online payment the pair balances unless the remaining
    amount is [NaN], which the guard [remainingAmount <= 0] lets through;
    for a vendor bill unless the bill's amount is.  A payment recorded by
    hand always balances: [savePayment] refuses an amount that is [NaN]
    or zero. *)
Theorem batches_balance_unless_nan (accounts : list Account.t) :
  (forall products inv batch,
     In batch (postInvoice accounts products inv) ->
     exists ar sales cogs inventory,
       batch = (revenueLines ar sales inv
                ++ cogsLines cogs inventory (totalCost products inv))%list /\
       balanced (revenueLines ar sales inv) = negb (is_nan (total inv)) /\
       balanced (cogsLines cogs inventory (totalCost products inv))
       = negb (is_nan (totalCost products inv)) /\
       balanced batch = negb (is_nan (Number.sum debit batch)) /\
       (is_nan (total inv) = true \/ is_nan (totalCost products inv) = true ->
        balanced batch = false)) /\
  (forall available inv answer batch,
     In batch (handleRazorpayPayment available accounts inv answer) ->
     balanced batch = negb (is_nan (total inv - paidAmount inv)) /\
     (is_nan (total inv) = true -> balanced batch = false)) /\
  (forall parseFloat contacts form batch,
     In batch (savePayment parseFloat accounts contacts form) ->
     balanced batch = true) /\
  (forall billAmount batch,
     In batch (postToLedgerAndInventory accounts billAmount) ->
     balanced batch = negb (is_nan billAmount)).
Proof.
  repeat split.
  - intros products inv batch. unfold postInvoice.
    destruct (List.find (nameHas "accounts receivable") accounts) as [ar|];
      [|intros []].
    destruct (List.find _ accounts) as [sales|]; [|intros []].
    destruct (List.find _ accounts) as [cogs|]; [|intros []].
    destruct (List.find (nameHas "inventory") accounts) as [inventory|];
      [|intros []].
    intros [<-|[]]. exists ar, sales, cogs, inventory.
    split; [reflexivity|].
    split; [apply pair_balanced|]. split; [apply pair_balanced|].
    apply (quad_balanced ar sales cogs inventory).
  - revert H. unfold handleRazorpayPayment.
    destruct (negb available); [intros []|].
    destruct (_ <=? _); [intros []|].
    destruct answer as [response|]; [|intros []].
    destruct (negb _); [intros []|].
    destruct (List.find (nameHas "cash") accounts) as [cash|]; [|intros []].
    destruct (List.find _ accounts) as [ar|]; [|intros []].
    intros [<-|[]]. apply pair_balanced.
  - intros Hnan. revert H. unfold handleRazorpayPayment.
    destruct (negb available); [intros []|].
    destruct (_ <=? _); [intros []|].
    destruct answer as [response|]; [|intros []].
    destruct (negb _); [intros []|].
    destruct (List.find (nameHas "cash") accounts) as [cash|]; [|intros []].
    destruct (List.find _ accounts) as [ar|]; [|intros []].
    intros [<-|[]]. rewrite pair_balanced.
    apply negb_false_iff, is_nan_sub_l. exact Hnan.
  - intros parseFloat contacts form batch. unfold savePayment.
    destruct (Number.truthy _) eqn:Ht; [|intros []]. cbn [negb orb].
    destruct (negb _); [intros []|].
    destruct (List.find _ contacts) as [contact|]; [|intros []].
    destruct (match List.find (nameHas "cash") accounts with
              | Some c => Some c | None => _ end) as [cash|]; [|intros []].
    destruct (List.find (nameHas "accounts receivable") accounts) as [ar|];
      [|intros []].
    destruct (List.find (nameHas "accounts payable") accounts) as [ap|];
      [|intros []].
    apply truthy_not_nan in Ht.
    destruct (Payments.f_type form); intros [<-|[]];
      rewrite pair_balanced, Ht; reflexivity.
  - intros billAmount batch. unfold postToLedgerAndInventory.
    destruct (List.find (nameHas "inventory") accounts) as [inventory|];
      [|intros []].
    destruct (List.find _ accounts) as [ap|]; [|intros []].
    intros [<-|[]]. apply pair_balanced.
Qed.

(** An invoice saved from a row whose quantity was typed as ["abc"], then
    posted on the sample books: its total is [NaN], one batch of four
    lines is dispatched, the debit of its first line is [NaN], and its
    sums are not equal.  The same invoice with the quantity typed as
    ["3"] posts a batch that balances.  A vendor bill saved from the
    spoiled row has [NaN] for its amount and posts a pair that does not
    balance either. *)
Lemma batches_balance_unless_nan_witness :
  let typed := fun qty => [ mkRow "p1" qty "100" "18" ] in
  let products := [ mkProduct "p1" 60 ] in
  let spoiled := savedInvoice Samples.parseText (typed "abc") in
  let sound := savedInvoice Samples.parseText (typed "3") in
  is_nan (total spoiled) = true /\
  (exists batch,
     postInvoice Samples.chart products spoiled = [ batch ] /\
     length batch = 4%nat /\
     (debit <$> head batch) = Some nan /\
     balanced batch = false) /\
  total sound = 354 /\
  (exists batch,
     postInvoice Samples.chart products sound = [ batch ] /\
     balanced batch = true) /\
  (exists batch,
     postToLedgerAndInventory Samples.chart
       (savedBillAmount Samples.parseText (typed "abc")) = [ batch ] /\
     balanced batch = false).
Proof.
  intros typed products spoiled sound.
  destruct (batches_balance_unless_nan Samples.chart) as (Hinv & _ & _ & Hbill).
  split; [reflexivity|]. split; [|split; [reflexivity|split]].
  - eexists. split; [reflexivity|]. split; [reflexivity|].
    split; [reflexivity|].
    destruct (Hinv products spoiled _ (or_introl eq_refl))
      as (ar & sales & cogs & inventory & _ & _ & _ & _ & Hnan).
    apply Hnan. left. reflexivity.
  - eexists. split; [reflexivity|].
    destruct (Hinv products sound _ (or_introl eq_refl))
      as (ar & sales & cogs & inventory & _ & _ & _ & Hsum & _).
    rewrite Hsum. reflexivity.
  - eexists. split; [reflexivity|].
    rewrite (Hbill _ _ (or_introl eq_refl)). reflexivity.
Defined.

End PostingSpec.

(** ** Stock after posting an invoice *)

Section Stock.

Local Open Scope Q_scope.

Lemma Qgtb_true (a b : Q) : Qgtb a b = true <-> b < a.
Proof.
  unfold Qgtb. rewrite negb_true_iff, <- not_true_iff_false, Qle_bool_iff.
  split; [apply Qnot_le_lt | apply Qlt_not_le].
Qed.

Lemma Qgtb_false (a b : Q) : Qgtb a b = false <-> a <= b.
Proof.
  unfold Qgtb. rewrite negb_false_iff. apply Qle_bool_iff.
Qed.

Lemma lineQty_absent (items : list LineItem.t) (pid : string) :
  (forall it, In it items -> LineItem.productId it <> pid) ->
  lineQty items pid = 0.
Proof.
  intros H. unfold lineQty.
  replace (List.filter _ items) with (@nil LineItem.t); [reflexivity|].
  induction items as [|it items IH]; cbn; [reflexivity|].
  destruct (String.eqb_spec (LineItem.productId it) pid) as [E|_].
  - exfalso. apply (H it); [left; reflexivity | exact E].
  - apply IH. intros it' Hin. apply H. right; exact Hin.
Qed.

Lemma reduceStock_sold inv p :
  Product.type p = Goods ->
  0 < lineQty (Invoice.items inv) (Product.id p) ->
  Invoices.reduceStock inv p
  = setStockQty p (Qmax 0 (stockOf p - lineQty (Invoice.items inv) (Product.id p))).
Proof.
  intros Hg Hq. unfold Invoices.reduceStock.
  apply Qgtb_true in Hq. rewrite Hq, Hg. reflexivity.
Qed.

Lemma reduceStock_unsold inv p :
  lineQty (Invoice.items inv) (Product.id p) <= 0 ->
  Invoices.reduceStock inv p = p.
Proof.
  intros Hq. unfold Invoices.reduceStock.
  apply Qgtb_false in Hq. rewrite Hq. reflexivity.
Qed.

Lemma reduceStock_service inv p :
  Product.type p <> Goods -> Invoices.reduceStock inv p = p.
Proof.
  intros Hg. unfold Invoices.reduceStock.
  destruct (Product.type p); [congruence|].
  rewrite andb_false_r. reflexivity.
Qed.

End Stock.

(** C8, as the code has it.  Posting an invoice maps the products one by
    one.  A product of type Goods whose invoiced quantity, summed over the
    lines of the invoice, is greater than zero gets the stock
    [max(0, old - quantity)], which is not negative, and keeps every other
    property; a product that is not of type Goods, or is on no line, or
    whose invoiced quantity is zero or less, is left as it was. *)
Theorem postInvoice_stock (state : AppState) (inv : Invoice.t) :
  length (Invoices.updatedProducts state inv) = length (products state) /\
  forall (i : nat) (p : Product.t),
    products state !! i = Some p ->
    exists p' : Product.t,
      Invoices.updatedProducts state inv !! i = Some p' /\
      Product.id p' = Product.id p /\
      Product.type p' = Product.type p /\
      (Product.type p = Goods ->
       (0 < lineQty (Invoice.items inv) (Product.id p))%Q ->
       Product.stockQty p'
       = Some (Qmax 0 (stockOf p - lineQty (Invoice.items inv) (Product.id p))) /\
       (0 <= stockOf p')%Q) /\
      (Product.type p <> Goods -> p' = p) /\
      ((lineQty (Invoice.items inv) (Product.id p) <= 0)%Q -> p' = p) /\
      ((forall it, In it (Invoice.items inv) ->
                   LineItem.productId it <> Product.id p) -> p' = p).
Proof.
  unfold Invoices.updatedProducts. split; [apply length_map|].
  intros i p Hp. exists (Invoices.reduceStock inv p).
  split; [rewrite list_lookup_fmap_Some; eauto|].
  split; [unfold Invoices.reduceStock; destruct (_ && _); reflexivity|].
  split; [unfold Invoices.reduceStock; destruct (_ && _); reflexivity|].
  split; [|split; [|split]].
  - intros Hg Hq. rewrite (reduceStock_sold inv p Hg Hq). cbn.
    split; [reflexivity | apply Q.le_max_l].
  - apply reduceStock_service.
  - apply reduceStock_unsold.
  - intros Habs. apply reduceStock_unsold.
    rewrite (lineQty_absent _ _ Habs). apply Qle_refl.
Qed.

(** Three chairs sold out of ten leave seven; the service is untouched. *)
Lemma postInvoice_stock_witness :
  let inv := Samples.invoiceOf [Samples.item "p1" 3] 354 in
  (exists p', Invoices.updatedProducts Samples.state inv !! 0%nat = Some p' /\
              Product.stockQty p' = Some (Qmax 0 (10 - lineQty (Invoice.items inv) "p1"))
              /\ (Qmax 0 (10 - lineQty (Invoice.items inv) "p1") == 7)%Q) /\
  (exists p', Invoices.updatedProducts Samples.state inv !! 1%nat = Some p' /\
              p' = Samples.delivery).
Proof.
  intros inv.
  pose proof (proj2 (postInvoice_stock Samples.state inv)) as H.
  split.
  - destruct (H 0%nat Samples.chair eq_refl) as (p' & Hl & _ & _ & Hs & _).
    exists p'. split; [exact Hl|].
    split; [apply Hs; reflexivity | reflexivity].
  - destruct (H 1%nat Samples.delivery eq_refl) as (p' & Hl & _ & _ & _ & Hn & _).
    exists p'. split; [exact Hl|]. apply Hn. discriminate.
Defined.

(** C8 as stated fails on a line with a negative quantity: the chair is of
    type Goods and is on the invoice, the claim puts its stock at
    [max(0, 10 - (-3)) = 13], the code leaves it at ten. *)
Lemma postInvoice_stock_negative_line :
  let inv := Samples.invoiceOf [Samples.item "p1" (-3)] (-354) in
  let p := Samples.chair in
  let p' := Invoices.reduceStock inv p in
  In p (products Samples.state) /\
  Product.type p = Goods /\
  (exists it, In it (Invoice.items inv) /\ LineItem.productId it = Product.id p) /\
  Invoices.updatedProducts Samples.state inv = [p'; Samples.delivery] /\
  Product.stockQty p' = Some 10%Q /\
  (Qmax 0 (stockOf p - lineQty (Invoice.items inv) (Product.id p)) == 13)%Q /\
  ~ (stockOf p' == Qmax 0 (stockOf p - lineQty (Invoice.items inv) (Product.id p)))%Q.
Proof.
  cbv zeta. split; [left; reflexivity|]. split; [reflexivity|].
  split; [eexists; split; [left; reflexivity | reflexivity]|].
  split; [reflexivity|]. split; [reflexivity|].
  split; [reflexivity|]. intros H; vm_compute in H; discriminate.
Qed.

(** ** The payment server *)

Module ServerSpec.
Import Server.

Section Verify.

Variable hmacSha256Hex : string -> string -> string.

Local Abbreviation verify := (Server.verify hmacSha256Hex).

(** A response other than the success leaves the storage as it was. *)
Lemma verify_failure_keeps env st b fetched rnd clk :
  status (fst (verify env st b fetched rnd clk)) <> 200 ->
  snd (verify env st b fetched rnd clk) = st.
Proof.
  unfold Server.verify.
  destruct (truthy (razorpay_order_id b)), (truthy (razorpay_payment_id b)),
    (truthy (razorpay_signature b)); try reflexivity.
  destruct (truthy (orElse _ _)); [|reflexivity].
  destruct (negb _); [reflexivity|].
  destruct (List.find _ _); [|reflexivity].
  cbn. congruence.
Qed.

(** The success appends one record and touches nothing else. *)
Lemma verify_success_appends env st b fetched rnd clk :
  status (fst (verify env st b fetched rnd clk)) = 200 ->
  exists payment,
    snd (verify env st b fetched rnd clk)
    = mkStorage (payments st ++ [payment]) (orders st).
Proof.
  unfold Server.verify.
  destruct (truthy (razorpay_order_id b)), (truthy (razorpay_payment_id b)),
    (truthy (razorpay_signature b)); try (cbn; discriminate).
  destruct (truthy (orElse _ _)); [|cbn; discriminate].
  destruct (negb _); [cbn; discriminate|].
  destruct (List.find _ _); [|cbn; discriminate].
  cbn. eauto.
Qed.

Lemma find_order_none (oid : string) (l : list Order) :
  List.find (fun o => String.eqb (o_id o) oid) l = None
  <-> forall o, In o l -> o_id o <> oid.
Proof.
  split.
  - intros H o Hin E.
    pose proof (find_none _ _ H o Hin) as F. cbn in F.
    rewrite E, String.eqb_refl in F. discriminate.
  - intros H. induction l as [|o l IH]; cbn; [reflexivity|].
    destruct (String.eqb_spec (o_id o) oid) as [E|_].
    + exfalso. apply (H o); [left; reflexivity | exact E].
    + apply IH. intros o' Hin. apply H. right; exact Hin.
Qed.

(** C2.  With the secret configured: a missing (or empty) order id, payment
    id or signature gives 400; otherwise a digest of [order_id|payment_id]
    that differs from the signature gives 400, no stored order of that id
    gives 404, and the first stored order of that id gives the success,
    which appends one record whose amount is the order's divided by 100.
    The payments are unchanged on every other response, and a record is
    appended exactly on the success. *)
Theorem verify_outcomes (env : Env) (st : Storage) (b : Body)
  (fetched : Result PaymentDetails) (rnd : string) (clk : Clock)
  (secret : string) :
  truthy (orElse (RAZORPAY_KEY_SECRET env) (VITE_RAZORPAY_KEY_SECRET env))
  = Some secret ->
  let r := fst (verify env st b fetched rnd clk) in
  let st' := snd (verify env st b fetched rnd clk) in
  ((truthy (razorpay_order_id b) = None \/
    truthy (razorpay_payment_id b) = None \/
    truthy (razorpay_signature b) = None) ->
   status r = 400 /\ st' = st) /\
  (forall oid pid sig,
     truthy (razorpay_order_id b) = Some oid ->
     truthy (razorpay_payment_id b) = Some pid ->
     truthy (razorpay_signature b) = Some sig ->
     (hmacSha256Hex secret (oid ++ "|" ++ pid) <> sig ->
      status r = 400 /\ st' = st) /\
     (hmacSha256Hex secret (oid ++ "|" ++ pid) = sig ->
      (forall o, In o (orders st) -> o_id o <> oid) ->
      status r = 404 /\ st' = st) /\
     (hmacSha256Hex secret (oid ++ "|" ++ pid) = sig ->
      (exists o, In o (orders st) /\ o_id o = oid) ->
      status r = 200) /\
     (hmacSha256Hex secret (oid ++ "|" ++ pid) = sig ->
      forall order,
        List.find (fun o => String.eqb (o_id o) oid) (orders st) = Some order ->
        status r = 200 /\
        exists payment,
          st' = mkStorage (payments st ++ [payment]) (orders st) /\
          sp_amount payment = (o_amount order / 100)%Q /\
          sp_razorpay_order_id payment = oid /\
          sp_razorpay_payment_id payment = pid)) /\
  (status r <> 200 -> payments st' = payments st) /\
  (status r = 200 <-> exists payment, payments st' = (payments st ++ [payment])%list).
Proof.
  intros Hsecret r st'.
  split; [|split; [|split]].
  - subst r st'. unfold Server.verify. intros [H|[H|H]]; rewrite H;
      repeat match goal with |- context [match ?x with _ => _ end] =>
               destruct x end; split; reflexivity.
  - intros oid pid sig Ho Hp Hs. subst r st'. unfold Server.verify.
    rewrite Ho, Hp, Hs, Hsecret.
    split; [|split; [|split]].
    + intros Hne. apply String.eqb_neq in Hne. rewrite Hne. cbn.
      split; reflexivity.
    + intros He Hnone. apply String.eqb_eq in He. rewrite He. cbn.
      apply find_order_none in Hnone. rewrite Hnone. split; reflexivity.
    + intros He (o & Hin & Hid). apply String.eqb_eq in He. rewrite He. cbn.
      destruct (List.find _ (orders st)) as [order|] eqn:Hfind; [reflexivity|].
      exfalso. apply (proj1 (find_order_none oid (orders st)) Hfind o Hin Hid).
    + intros He order Hfind. apply String.eqb_eq in He. rewrite He. cbn.
      rewrite Hfind. cbn. split; [reflexivity|].
      eexists. split; [reflexivity|]. cbn. repeat split; reflexivity.
  - intros Hne. subst r st'. rewrite verify_failure_keeps by exact Hne.
    reflexivity.
  - split.
    + intros H200. subst r st'.
      destruct (verify_success_appends env st b fetched rnd clk H200) as [p Hp].
      exists p. rewrite Hp. reflexivity.
    + intros [p Hp]. subst r st'.
      destruct (Z.eq_dec (status (fst (verify env st b fetched rnd clk))) 200)
        as [E|Hne]; [exact E|].
      rewrite verify_failure_keeps in Hp by exact Hne.
      apply (f_equal (@length _)) in Hp. rewrite length_app in Hp. cbn in Hp. lia.
Qed.

(** Without a secret the handler answers 500 and stores nothing. *)
Lemma verify_unconfigured env st b fetched rnd clk oid pid sig :
  truthy (razorpay_order_id b) = Some oid ->
  truthy (razorpay_payment_id b) = Some pid ->
  truthy (razorpay_signature b) = Some sig ->
  truthy (orElse (RAZORPAY_KEY_SECRET env) (VITE_RAZORPAY_KEY_SECRET env)) = None ->
  status (fst (verify env st b fetched rnd clk)) = 500 /\
  snd (verify env st b fetched rnd clk) = st.
Proof.
  intros Ho Hp Hs He. unfold Server.verify.
  rewrite Ho, Hp, Hs, He. split; reflexivity.
Qed.

End Verify.

(** A signed request for a stored order of 35400 paise is verified and
    stored as a payment of 354 rupees. *)
Lemma verify_outcomes_witness :
  let out := Server.verify Samples.sampleMac Samples.env Samples.storage
               Samples.body (Returned Samples.details) "k3x9" Samples.clk in
  status (fst out) = 200 /\
  exists payment,
    snd out = mkStorage [payment] (orders Samples.storage) /\
    (sp_amount payment == 354)%Q.
Proof.
  intros out.
  pose proof (verify_outcomes Samples.sampleMac Samples.env Samples.storage
                Samples.body (Returned Samples.details) "k3x9" Samples.clk
                "secret" eq_refl) as (_ & H & _ & _).
  destruct (H "order_1" "pay_1" "secret/order_1|pay_1" eq_refl eq_refl eq_refl)
    as (_ & _ & _ & Hok).
  destruct (Hok eq_refl _ eq_refl) as (H200 & payment & Hst & Hamount & _).
  split; [exact H200|].
  exists payment. split; [exact Hst|].
  rewrite Hamount. reflexivity.
Defined.

End ServerSpec.

(** ** The rate limiter *)

Module RateLimiterSpec.
Import RateLimiter.

Lemma blockedNow_iff (rl : t) (identifier : string) (now : Z) :
  (0 <= now)%Z ->
  blockedNow rl identifier now = true <-> activeBlock rl identifier now.
Proof.
  intros Hnow. unfold blockedNow, activeBlock, truthyNum.
  destruct (blockedUsers rl !! identifier) as [u|]; cbn.
  - destruct (Z.eqb_spec u 0) as [->|Hu].
    + split; [discriminate|]. intros (u & [= <-] & Hlt). lia.
    + rewrite Z.ltb_lt. split; [eauto|]. intros (u' & [= <-] & Hlt). exact Hlt.
  - split; [discriminate|]. intros (u & [=] & _).
Qed.

(** Removing a stale block does not touch the recorded requests. *)
Lemma removeExpiredBlock_requests (rl : t) (identifier : string) (now : Z) :
  requests (removeExpiredBlock rl identifier now) = requests rl.
Proof.
  unfold removeExpiredBlock.
  destruct (truthyNum _); [destruct (_ >=? _)%Z|]; reflexivity.
Qed.

Lemma cleanup_keeps_now (now now' : Z) (identifier : string) (valid : list Z)
  (reqs : gmap string (list Z)) (blocked : gmap string Z) :
  (now' - now < maxAge)%Z ->
  requests (cleanup now' (mk (<[identifier := (valid ++ [now])%list]> reqs) blocked))
    !! identifier
  = Some (List.filter (fun time => (now' - time <? maxAge)%Z) valid ++ [now])%list.
Proof.
  intros Hage. unfold cleanup; cbn [requests].
  rewrite lookup_omap, lookup_insert_eq. cbn.
  rewrite List.filter_app. cbn.
  apply Z.ltb_lt in Hage. rewrite Hage.
  destruct (List.filter _ valid); reflexivity.
Qed.

(** C5.  With the clock at a time [now >= 0] and [cleanup] reading it less
    than a day later: the call answers [true] exactly when the identifier
    is inside an active block or has at least [maxRequests] recorded requests
    younger than [windowMs]; a call that answers [false] records [now] as
    the identifier's latest request; a call that answers [true] leaves the
    recorded requests as they were; when the count has reached the limit
    outside an active block, with a [blockDurationMs] that is set, the
    identifier is blocked until [now + blockDurationMs]; and a call inside
    an active block changes nothing at all, so that the block stays as
    long as it was. *)
Theorem isRateLimited_spec (rl : t) (identifier : string)
  (config : RateLimitConfig) (now now' : Z) :
  (0 <= now)%Z ->
  (now' - now < maxAge)%Z ->
  let limited := fst (isRateLimited rl identifier config now now') in
  let rl' := snd (isRateLimited rl identifier config now now') in
  let count := Z.of_nat (length (recentRequests rl identifier config now)) in
  (limited = true <->
   activeBlock rl identifier now \/ (maxRequests config <= count)%Z) /\
  (limited = false ->
   exists earlier, requests rl' !! identifier = Some (earlier ++ [now])%list) /\
  (limited = true -> requests rl' = requests rl) /\
  (forall d : Z,
     ~ activeBlock rl identifier now ->
     (maxRequests config <= count)%Z ->
     blockDurationMs config = Some d -> d <> 0%Z ->
     blockedUsers rl' !! identifier = Some (now + d)%Z) /\
  (activeBlock rl identifier now -> limited = true /\ rl' = rl).
Proof.
  intros Hnow Hage limited rl' count.
  pose proof (blockedNow_iff rl identifier now Hnow) as Hblk.
  subst limited rl' count. unfold isRateLimited, recentRequests.
  destruct (blockedNow rl identifier now) eqn:Eb.
  - (* inside an active block *)
    cbn. repeat split; try discriminate; try reflexivity.
    + intros _. left. apply Hblk. reflexivity.
    + intros d Hn. exfalso. apply Hn, Hblk. reflexivity.
  - assert (Hnb : ~ activeBlock rl identifier now).
    { intros H. apply Hblk in H. discriminate. }
    cbv zeta. rewrite !removeExpiredBlock_requests.
    set (valid := List.filter _ (nullish (requests rl !! identifier) [])).
    destruct (Z.geb_spec (Z.of_nat (length valid)) (maxRequests config)) as [Hge|Hlt];
      cbn [fst snd].
    + (* the limit is reached *)
      split; [|split; [|split; [|split]]]; try discriminate.
      * split; [intros _; right; lia | reflexivity].
      * intros _. destruct (truthyNum (blockDurationMs config)); cbn;
          first [reflexivity | apply removeExpiredBlock_requests].
      * intros d _ _ Hd Hd0. rewrite Hd. cbn.
        destruct (Z.eqb_spec d 0) as [?|_]; [contradiction|]. cbn.
        apply lookup_insert_eq.
      * intros H. contradiction.
    + (* the request is let through and recorded *)
      split; [|split; [|split; [|split]]]; try discriminate.
      * split; [discriminate|]. intros [H|H]; [contradiction | lia].
      * intros _. eexists. apply cleanup_keeps_now. exact Hage.
      * intros d _ Hle. lia.
      * intros H. contradiction.
Qed.

(** Two of the three recorded requests are younger than a minute at
    [now = 61000]: with a limit of two the caller is refused, nothing is
    recorded, and a block of five minutes starts. *)
Lemma isRateLimited_spec_witness :
  let out := isRateLimited Samples.limiter "10.0.0.7" Samples.tight 61000 61001 in
  fst out = true /\
  requests (snd out) = requests Samples.limiter /\
  blockedUsers (snd out) !! "10.0.0.7" = Some 361000%Z.
Proof.
  intros out.
  pose proof (isRateLimited_spec Samples.limiter "10.0.0.7" Samples.tight
                61000 61001 ltac:(lia) ltac:(reflexivity))
    as (Hiff & _ & Hkeep & Hblock & _).
  assert (Hl : fst out = true).
  { apply Hiff. right. vm_compute. discriminate. }
  split; [exact Hl|]. split; [apply Hkeep; exact Hl|].
  apply (Hblock 300000%Z).
  - intros (u & Hu & _). vm_compute in Hu. discriminate.
  - vm_compute. discriminate.
  - reflexivity.
  - discriminate.
Defined.

(** The claim, taken to the letter, fails inside a block.  The caller
    above, blocked at 61000 until 361000, calls again at 100000: two of
    its requests are younger than a minute, the limit is two and the
    block duration is set, yet the call returns at once and the block ends
    at 361000 as before, not at 100000 + 300000. *)
Lemma block_is_not_extended :
  let blocked :=
    snd (isRateLimited Samples.limiter "10.0.0.7" Samples.tight 61000 61001) in
  let out := isRateLimited blocked "10.0.0.7" Samples.tight 100000 100001 in
  (maxRequests Samples.tight
   <= Z.of_nat (length (recentRequests blocked "10.0.0.7" Samples.tight 100000)))%Z /\
  blockDurationMs Samples.tight = Some 300000%Z /\
  fst out = true /\
  blockedUsers (snd out) !! "10.0.0.7" = Some 361000%Z /\
  blockedUsers (snd out) !! "10.0.0.7" <> Some (100000 + 300000)%Z.
Proof.
  cbv zeta. repeat split; try (vm_compute; discriminate).
  all: vm_compute; reflexivity.
Qed.

End RateLimiterSpec.

(** ** The cache *)

Module CacheSpec.
Import Cache.

Section WithData.

Context {T : Type}.
Variable estimateSize : T -> Z.
Variable ceilFifth : Z -> Z.

Implicit Types (m : Entries T) (c : LRUCache T) (key : string)
  (item : CacheItem T).

Local Abbreviation set := (Cache.set T estimateSize ceilFifth).
Local Abbreviation evictIfNecessary := (Cache.evictIfNecessary T estimateSize ceilFifth).
Local Abbreviation memoryCheck := (Cache.memoryCheck T estimateSize ceilFifth).

(** *** The [Map] operations *)

Lemma mapGet_Some_In key m item :
  mapGet key m = Some item -> In (key, item) m.
Proof.
  unfold mapGet. destruct (List.find _ m) as [[k it]|] eqn:E; [|discriminate].
  intros [= <-]. apply find_some in E as [Hin Hk]. cbn in Hk.
  apply String.eqb_eq in Hk. subst k. exact Hin.
Qed.

Lemma mapGet_None_keys key m :
  mapGet key m = None <-> ~ In key (keys m).
Proof.
  unfold mapGet, keys. induction m as [|[k it] m IH]; cbn.
  - tauto.
  - destruct (String.eqb_spec k key) as [->|Hne]; cbn.
    + split; [discriminate | tauto].
    + rewrite IH. tauto.
Qed.

Lemma mapHas_keys key m :
  mapHas key m = true <-> In key (keys m).
Proof.
  unfold mapHas, keys. rewrite existsb_exists, in_map_iff.
  split; intros (kv & H1 & H2).
  - apply String.eqb_eq in H2. eauto.
  - exists kv. split; [exact H2 | apply String.eqb_eq; exact H1].
Qed.

Lemma mapHas_mapGet key m :
  mapHas key m = false <-> mapGet key m = None.
Proof.
  rewrite mapGet_None_keys, <- mapHas_keys. destruct (mapHas key m); split; congruence.
Qed.

Lemma In_mapDelete key m kv :
  In kv (mapDelete key m) <-> In kv m /\ fst kv <> key.
Proof.
  unfold mapDelete. rewrite filter_In, negb_true_iff, String.eqb_neq. tauto.
Qed.

Lemma keys_mapDelete key m k :
  In k (keys (mapDelete key m)) <-> In k (keys m) /\ k <> key.
Proof.
  unfold keys. rewrite !in_map_iff. split.
  - intros (kv & <- & Hin). apply In_mapDelete in Hin as [Hin Hne]. eauto.
  - intros [(kv & <- & Hin) Hne]. exists kv. split; [reflexivity|].
    apply In_mapDelete. tauto.
Qed.

Lemma mapGet_mapDelete key m : mapGet key (mapDelete key m) = None.
Proof. apply mapGet_None_keys. rewrite keys_mapDelete. tauto. Qed.

Lemma mapSet_fresh key item m :
  mapGet key m = None -> mapSet key item m = (m ++ [(key, item)])%list.
Proof.
  intros H. apply mapHas_mapGet in H. unfold mapSet. rewrite H. reflexivity.
Qed.

Lemma mapGet_app_last key item m :
  mapGet key m = None -> mapGet key (m ++ [(key, item)])%list = Some item.
Proof.
  unfold mapGet. induction m as [|[k it] m IH]; cbn.
  - rewrite String.eqb_refl. reflexivity.
  - destruct (String.eqb_spec k key); [discriminate | exact IH].
Qed.

Lemma NoDup_keys_filter (f : string * CacheItem T -> bool) m :
  List.NoDup (keys m) -> List.NoDup (keys (List.filter f m)).
Proof.
  unfold keys. induction m as [|kv m IH]; cbn; [constructor|].
  intros H. apply NoDup_cons_iff in H as [Hn Hd].
  destruct (f kv); cbn; [|apply IH; exact Hd].
  constructor; [|apply IH; exact Hd].
  intros Hin. apply Hn. apply in_map_iff in Hin as (x & Hx & Hin).
  apply filter_In in Hin as [Hin _]. apply in_map_iff. eauto.
Qed.

Lemma NoDup_keys_inj m (a b : string * CacheItem T) :
  List.NoDup (keys m) -> In a m -> In b m -> fst a = fst b -> a = b.
Proof.
  unfold keys. induction m as [|kv m IH]; cbn; [tauto|].
  intros H. apply NoDup_cons_iff in H as [Hn Hd].
  intros [->|Ha] [->|Hb] E; try reflexivity.
  - exfalso. apply Hn. rewrite E. apply in_map. exact Hb.
  - exfalso. apply Hn. rewrite <- E. apply in_map. exact Ha.
  - apply IH; assumption.
Qed.

(** *** The stable sort by last access *)

Lemma insertByAccess_perm (x : string * CacheItem T) m :
  Permutation (insertByAccess x m) (x :: m).
Proof.
  induction m as [|y m IH]; cbn; [reflexivity|].
  destruct (_ <=? _)%Z; [reflexivity|].
  rewrite IH. apply perm_swap.
Qed.

Lemma sortByAccess_perm m : Permutation (sortByAccess m) m.
Proof.
  induction m as [|x m IH]; cbn; [reflexivity|].
  rewrite insertByAccess_perm, IH. reflexivity.
Qed.

Lemma insertByAccess_sorted (x : string * CacheItem T) m :
  StronglySorted olderThan m -> StronglySorted olderThan (insertByAccess x m).
Proof.
  induction m as [|y m IH]; cbn; intros Hs.
  - repeat constructor.
  - apply StronglySorted_inv in Hs as [Hs Hy].
    destruct (Z.leb_spec (lastAccessed (snd x)) (lastAccessed (snd y))) as [Hle|Hgt].
    + constructor; [constructor; assumption|].
      constructor; [exact Hle|].
      eapply List.Forall_impl; [|exact Hy].
      intros z Hz. unfold olderThan in *. lia.
    + constructor; [apply IH; exact Hs|].
      rewrite insertByAccess_perm. constructor; [|exact Hy].
      unfold olderThan. lia.
Qed.

Lemma sortByAccess_sorted m : StronglySorted olderThan (sortByAccess m).
Proof.
  induction m as [|x m IH]; cbn; [constructor|].
  apply insertByAccess_sorted, IH.
Qed.

Lemma sorted_app_older (l1 l2 : Entries T) a b :
  StronglySorted olderThan (l1 ++ l2)%list -> In a l1 -> In b l2 -> olderThan a b.
Proof.
  induction l1 as [|x l1 IH]; cbn; [tauto|].
  intros Hs [->|Ha] Hb; apply StronglySorted_inv in Hs as [Hs Hx].
  - rewrite List.Forall_forall in Hx. apply Hx, in_or_app. right; exact Hb.
  - apply IH; assumption.
Qed.

(** The newest entry, standing last, stays last. *)
Lemma insertByAccess_last (x y : string * CacheItem T) m :
  olderThan x y ->
  insertByAccess x (m ++ [y])%list = (insertByAccess x m ++ [y])%list.
Proof.
  intros Hxy. induction m as [|z m IH]; cbn.
  - unfold olderThan in Hxy. apply Z.leb_le in Hxy. rewrite Hxy. reflexivity.
  - destruct (_ <=? _)%Z; [reflexivity|]. rewrite IH. reflexivity.
Qed.

Lemma sortByAccess_last (y : string * CacheItem T) m :
  List.Forall (fun x => olderThan x y) m ->
  sortByAccess (m ++ [y])%list = (sortByAccess m ++ [y])%list.
Proof.
  induction m as [|x m IH]; cbn; intros H; [reflexivity|].
  apply List.Forall_cons_iff in H as [Hx Hm].
  rewrite IH by exact Hm. apply insertByAccess_last, Hx.
Qed.

Lemma sortByAccess_length m : length (sortByAccess m) = length m.
Proof. apply Permutation_length, sortByAccess_perm. Qed.

(** *** Eviction *)

(** Deleting the keys of [victims] one after the other. *)
Local Abbreviation deleteAll victims m :=
  (fold_left (fun m' (kv : string * CacheItem T) => mapDelete (fst kv) m') victims m).

Lemma In_deleteAll (victims : Entries T) m kv :
  In kv (deleteAll victims m) <-> In kv m /\ ~ In (fst kv) (keys victims).
Proof.
  revert m. induction victims as [|v victims IH]; intros m; cbn; [tauto|].
  rewrite IH, In_mapDelete. intuition congruence.
Qed.

Lemma NoDup_deleteAll (victims : Entries T) m :
  List.NoDup (keys m) -> List.NoDup (keys (deleteAll victims m)).
Proof.
  revert m. induction victims as [|v victims IH]; intros m H; cbn; [exact H|].
  apply IH, NoDup_keys_filter, H.
Qed.

Lemma mapDelete_length key m :
  List.NoDup (keys m) -> In key (keys m) ->
  S (length (mapDelete key m)) = length m.
Proof.
  unfold keys, mapDelete. induction m as [|[k it] m IH]; cbn; [tauto|].
  intros H. apply NoDup_cons_iff in H as [Hn Hd].
  destruct (String.eqb_spec k key) as [->|Hne]; cbn.
  - intros _. f_equal.
    clear IH Hd. induction m as [|[k' it'] m IH]; cbn; [reflexivity|].
    cbn in Hn. destruct (String.eqb_spec k' key) as [->|_]; cbn; [tauto|].
    f_equal. apply IH. tauto.
  - intros [?|Hin]; [contradiction|]. f_equal. apply IH; assumption.
Qed.

Lemma deleteAll_length (victims : Entries T) m :
  List.NoDup (keys m) -> List.NoDup (keys victims) ->
  (forall k, In k (keys victims) -> In k (keys m)) ->
  (length (deleteAll victims m) + length victims = length m)%nat.
Proof.
  revert m. induction victims as [|v victims IH]; intros m Hm Hv Hsub; cbn; [lia|].
  cbn in Hv. apply NoDup_cons_iff in Hv as [Hn Hv].
  rewrite Nat.add_succ_r, IH.
  - apply mapDelete_length; [exact Hm|]. apply Hsub. left; reflexivity.
  - apply NoDup_keys_filter, Hm.
  - exact Hv.
  - intros k Hk. apply keys_mapDelete. split; [apply Hsub; right; exact Hk|].
    intros ->. contradiction.
Qed.

Lemma firstn_incl {A} (n : nat) (l : list A) (x : A) :
  In x (firstn n l) -> In x l.
Proof.
  intros H. rewrite <- (firstn_skipn n l). apply in_or_app. left; exact H.
Qed.

Lemma keys_perm (l1 l2 : Entries T) :
  Permutation l1 l2 -> Permutation (keys l1) (keys l2).
Proof. apply Permutation_map. Qed.

Lemma NoDup_keys_firstn n m :
  List.NoDup (keys m) -> List.NoDup (keys (firstn n m)).
Proof.
  intros H. rewrite <- (firstn_skipn n m) in H.
  unfold keys in *. rewrite map_app in H.
  apply NoDup_app_remove_r in H. exact H.
Qed.

Lemma evictLRU_cache count c :
  cache (evictLRU count c)
  = deleteAll (firstn (evicted count c) (sortByAccess (cache c))) (cache c).
Proof.
  unfold evictLRU, evicted. cbn. rewrite sortByAccess_length. reflexivity.
Qed.

Lemma evictLRU_length count c :
  wellFormed c ->
  (length (cache (evictLRU count c)) + evicted count c = length (cache c))%nat.
Proof.
  intros Hwf. rewrite evictLRU_cache.
  assert (Hlen : length (firstn (evicted count c) (sortByAccess (cache c)))
                 = evicted count c).
  { apply firstn_length_le. rewrite sortByAccess_length. unfold evicted. lia. }
  rewrite <- Hlen at 2. apply deleteAll_length.
  - exact Hwf.
  - apply NoDup_keys_firstn.
    eapply Permutation_NoDup; [|exact Hwf].
    symmetry. apply keys_perm, sortByAccess_perm.
  - intros k Hk. unfold keys in *. apply in_map_iff in Hk as (kv & <- & Hin).
    apply in_map. apply (Permutation_in _ (sortByAccess_perm (cache c))).
    eapply firstn_incl; exact Hin.
Qed.

Lemma evictLRU_wellFormed count c : wellFormed c -> wellFormed (evictLRU count c).
Proof. intros H. unfold wellFormed. rewrite evictLRU_cache. apply NoDup_deleteAll, H. Qed.

(** Least recently used first: whatever is evicted was accessed no later
    than whatever stays. *)
Lemma evictLRU_oldest count c (gone kept : string * CacheItem T) :
  wellFormed c ->
  In gone (cache c) -> ~ In gone (cache (evictLRU count c)) ->
  In kept (cache (evictLRU count c)) ->
  olderThan gone kept.
Proof.
  intros Hwf Hg Hng Hk. rewrite evictLRU_cache in Hng, Hk.
  set (n := evicted count c) in *. set (sorted := sortByAccess (cache c)) in *.
  assert (Hperm : Permutation sorted (cache c)) by apply sortByAccess_perm.
  rewrite In_deleteAll in Hng, Hk. destruct Hk as [Hk Hkk].
  apply (sorted_app_older (firstn n sorted) (skipn n sorted)).
  - rewrite firstn_skipn. apply sortByAccess_sorted.
  - destruct (in_dec string_dec (fst gone) (keys (firstn n sorted))) as [Hin|Hout];
      [|tauto].
    unfold keys in Hin. apply in_map_iff in Hin as (g' & Hfst & Hin).
    replace gone with g'; [exact Hin|].
    apply (NoDup_keys_inj (cache c)); try assumption.
    apply (Permutation_in _ Hperm). eapply firstn_incl; exact Hin.
  - assert (Hs : In kept sorted) by (apply (Permutation_in _ (Permutation_sym Hperm)), Hk).
    rewrite <- (firstn_skipn n sorted) in Hs. apply in_app_or in Hs as [Hf|Hs];
      [|exact Hs].
    exfalso. apply Hkk. unfold keys. apply in_map, Hf.
Qed.

(** *** The invariant of the map *)

Lemma mapDelete_absent key m : mapGet key m = None -> mapDelete key m = m.
Proof.
  rewrite mapGet_None_keys. unfold mapDelete, keys.
  induction m as [|[k it] m IH]; cbn; [reflexivity|].
  intros H. destruct (String.eqb_spec k key) as [->|_]; cbn; [tauto|].
  f_equal. apply IH. tauto.
Qed.

Lemma In_mapGet key item m :
  List.NoDup (keys m) -> In (key, item) m -> mapGet key m = Some item.
Proof.
  intros Hnd Hin. destruct (mapGet key m) as [item'|] eqn:E.
  - apply mapGet_Some_In in E.
    pose proof (NoDup_keys_inj m _ _ Hnd Hin E eq_refl) as [= ->]. reflexivity.
  - apply mapGet_None_keys in E. exfalso. apply E.
    unfold keys. apply (in_map fst _ _ Hin).
Qed.

Lemma NoDup_keys_snoc key item m :
  List.NoDup (keys m) -> List.NoDup (keys (mapDelete key m ++ [(key, item)])%list).
Proof.
  intros H.
  eapply Permutation_NoDup with (l := keys ((key, item) :: mapDelete key m)).
  - apply keys_perm. apply Permutation_cons_append.
  - cbn. constructor; [|apply NoDup_keys_filter, H].
    intros Hin. apply keys_mapDelete in Hin. tauto.
Qed.

(** What [store] leaves in the map. *)
Lemma store_cache key value ttl' now c :
  cache (store key value ttl' now c)
  = (mapDelete key (cache c)
     ++ [(key, mkItem value now (orZ ttl' (defaultTTL c)) 0 now)])%list.
Proof.
  unfold store. cbn. destruct (mapHas key (cache c)) eqn:E.
  - apply mapSet_fresh, mapGet_mapDelete.
  - apply mapHas_mapGet in E. rewrite (mapDelete_absent _ _ E).
    apply mapSet_fresh, E.
Qed.

Lemma store_wellFormed key value ttl' now c :
  wellFormed c -> wellFormed (store key value ttl' now c).
Proof.
  intros H. unfold wellFormed. rewrite store_cache. apply NoDup_keys_snoc, H.
Qed.

Lemma cleanup_wellFormed now c : wellFormed c -> wellFormed (snd (cleanup now c)).
Proof. intros H. unfold wellFormed, cleanup. cbn. apply NoDup_keys_filter, H. Qed.

Lemma memoryCheck_wellFormed c : wellFormed c -> wellFormed (memoryCheck c).
Proof.
  intros H. unfold Cache.memoryCheck.
  destruct (Qgtb _ _); [apply evictLRU_wellFormed|]; exact H.
Qed.

Lemma sizeCheck_wellFormed c : wellFormed c -> wellFormed (sizeCheck c).
Proof.
  intros H. unfold sizeCheck.
  destruct (_ >? _)%Z; [apply evictLRU_wellFormed|]; exact H.
Qed.

Lemma set_wellFormed key value ttl' now now' c :
  wellFormed c -> wellFormed (set key value ttl' now now' c).
Proof.
  intros H. unfold Cache.set, Cache.evictIfNecessary.
  apply sizeCheck_wellFormed, memoryCheck_wellFormed, cleanup_wellFormed,
    store_wellFormed, H.
Qed.

Lemma new_wellFormed options : wellFormed (@new T options).
Proof. constructor. Qed.

(** The limits of a cache never change. *)
Lemma memoryCheck_maxSize c : maxSize (memoryCheck c) = maxSize c.
Proof. unfold Cache.memoryCheck. destruct (Qgtb _ _); reflexivity. Qed.

Lemma sizeCheck_maxSize c : maxSize (sizeCheck c) = maxSize c.
Proof. unfold sizeCheck. destruct (_ >? _)%Z; reflexivity. Qed.

Lemma set_maxSize key value ttl' now now' c :
  maxSize (set key value ttl' now now' c) = maxSize c.
Proof.
  unfold Cache.set, Cache.evictIfNecessary.
  rewrite sizeCheck_maxSize, memoryCheck_maxSize. reflexivity.
Qed.

(** *** The size check *)

Lemma sizeCheck_size c :
  wellFormed c -> (0 <= maxSize c)%Z ->
  size (sizeCheck c) = Z.min (size c) (maxSize c).
Proof.
  intros Hwf Hmax. unfold sizeCheck.
  destruct (Z.gtb_spec (size c) (maxSize c)) as [Hgt|Hle]; [|lia].
  pose proof (evictLRU_length (size c - maxSize c) c Hwf) as Hlen.
  unfold size, evicted in *. lia.
Qed.

(** Everything the checks leave was there before. *)
Lemma evictLRU_incl count c kv :
  In kv (cache (evictLRU count c)) -> In kv (cache c).
Proof. rewrite evictLRU_cache, In_deleteAll. tauto. Qed.

Lemma evictIfNecessary_incl now c kv :
  In kv (cache (evictIfNecessary now c)) -> In kv (cache c).
Proof.
  unfold Cache.evictIfNecessary, sizeCheck, Cache.memoryCheck.
  intros H.
  assert (H1 : In kv (cache (snd (cleanup now c)))).
  { destruct (_ >? _)%Z; [apply evictLRU_incl in H|];
      destruct (Qgtb _ _); try apply evictLRU_incl in H; exact H. }
  unfold cleanup in H1. cbn in H1. apply filter_In in H1. tauto.
Qed.

(** *** An entry that was just read *)

Lemma firstn_app_short {A} (n : nat) (l1 l2 : list A) :
  (n <= length l1)%nat -> firstn n (l1 ++ l2)%list = firstn n l1.
Proof.
  intros H. rewrite firstn_app.
  replace (n - length l1)%nat with 0%nat by lia. cbn. apply app_nil_r.
Qed.

Lemma evictLRU_keeps_newest count c m key item :
  cache c = (m ++ [(key, item)])%list ->
  wellFormed c ->
  List.Forall (fun kv => (lastAccessed (snd kv) <= lastAccessed item)%Z) m ->
  (count < size c)%Z ->
  mapGet key (cache (evictLRU count c)) = Some item.
Proof.
  intros Hc Hwf Hold Hcount.
  apply In_mapGet; [apply evictLRU_wellFormed, Hwf|].
  rewrite evictLRU_cache, In_deleteAll. unfold evicted, size in *.
  rewrite Hc in *. rewrite length_app in *. cbn [length] in *.
  split; [apply in_or_app; right; left; reflexivity|].
  rewrite sortByAccess_last by exact Hold.
  rewrite firstn_app_short by (rewrite sortByAccess_length; lia).
  cbn [fst]. intros Hin. unfold keys in Hin.
  apply in_map_iff in Hin as (kv & Hk & Hin).
  apply firstn_incl in Hin.
  apply (Permutation_in _ (sortByAccess_perm m)) in Hin.
  unfold wellFormed, keys in Hwf. rewrite Hc, map_app in Hwf. cbn in Hwf.
  apply NoDup_remove_2 in Hwf. apply Hwf. rewrite app_nil_r.
  rewrite <- Hk. apply in_map, Hin.
Qed.

(** *** What [set] stores, and keeps *)

(** An entry found under the key after [set] is the one [set] made. *)
Lemma set_entry c key value ttl' (t t' : Z) item :
  mapGet key (cache (set key value ttl' t t' c)) = Some item ->
  item = mkItem value t (orZ ttl' (defaultTTL c)) 0 t.
Proof.
  intros Hg.
  apply mapGet_Some_In, evictIfNecessary_incl in Hg.
  rewrite store_cache in Hg. apply in_app_or in Hg as [Hin|[[= <-]|[]]].
  - apply In_mapDelete in Hin. cbn in Hin. tauto.
  - reflexivity.
Qed.

(** Within the limits [set] keeps the entry it stores: the entry is not
    expired when the eviction runs, the memory estimate is within its
    limit, the cache may hold an entry, and nothing stored was accessed
    after the call. *)
Lemma set_keeps_entry c key value ttl' (t t' : Z) :
  wellFormed c -> (1 <= maxSize c)%Z ->
  (t' - t <= orZ ttl' (defaultTTL c))%Z ->
  Qgtb (Cache.memoryUsageMB T estimateSize
          (snd (cleanup t' (store key value ttl' t c))))
       (maxMemoryUsage c) = false ->
  List.Forall (fun kv => (lastAccessed (snd kv) <= t)%Z) (cache c) ->
  mapGet key (cache (set key value ttl' t t' c))
  = Some (mkItem value t (orZ ttl' (defaultTTL c)) 0 t).
Proof.
  intros Hwf Hmax Hlive Hmem Hold.
  set (item := mkItem value t (orZ ttl' (defaultTTL c)) 0 t).
  set (cleaned := snd (cleanup t' (store key value ttl' t c))).
  assert (Hmem' : Qgtb (Cache.memoryUsageMB T estimateSize cleaned)
                    (maxMemoryUsage cleaned) = false) by exact Hmem.
  unfold Cache.set, Cache.evictIfNecessary, Cache.memoryCheck.
  fold cleaned. rewrite Hmem'.
  assert (Hcl : cache cleaned
                = (List.filter (fun kv => negb (expired t' (snd kv)))
                     (mapDelete key (cache c)) ++ [(key, item)])%list).
  { unfold cleaned, cleanup. cbn [snd cache withCache].
    rewrite store_cache, List.filter_app. cbn [List.filter snd].
    unfold expired at 2. cbn [timestamp ttl].
    destruct (Z.gtb_spec (t' - t) (orZ ttl' (defaultTTL c))); [lia | reflexivity]. }
  assert (Hwc : wellFormed cleaned).
  { apply (cleanup_wellFormed t'), store_wellFormed, Hwf. }
  unfold sizeCheck. destruct (Z.gtb_spec (size cleaned) (maxSize cleaned)) as [Hgt|_].
  - eapply evictLRU_keeps_newest; [exact Hcl | exact Hwc | | cbn in *; lia].
    rewrite List.Forall_forall in *. intros kv Hin.
    apply filter_In in Hin as [Hin _]. apply In_mapDelete in Hin as [Hin _].
    apply Hold, Hin.
  - apply In_mapGet; [exact Hwc|]. rewrite Hcl.
    apply in_or_app. right; left; reflexivity.
Qed.

(** *** The two checks of [set], one after the other *)

Lemma sizeCheck_incl c kv : In kv (cache (sizeCheck c)) -> In kv (cache c).
Proof.
  unfold sizeCheck. destruct (_ >? _)%Z; [apply evictLRU_incl | exact id].
Qed.

Lemma sizeCheck_oldest c (gone kept : string * CacheItem T) :
  wellFormed c ->
  In gone (cache c) -> ~ In gone (cache (sizeCheck c)) ->
  In kept (cache (sizeCheck c)) ->
  olderThan gone kept.
Proof.
  intros Hwf Hg Hng Hk. unfold sizeCheck in Hng, Hk.
  destruct (size c >? maxSize c)%Z; [|contradiction].
  eapply evictLRU_oldest; eassumption.
Qed.

(** Whether an entry of a cache is still there after part of the cache was
    evicted can be told from its key. *)
Lemma still_there_dec c c' (kv : string * CacheItem T) :
  wellFormed c -> (forall x, In x (cache c') -> In x (cache c)) ->
  In kv (cache c) ->
  In kv (cache c') \/ ~ In kv (cache c').
Proof.
  intros Hwf Hincl Hin.
  destruct (mapGet (fst kv) (cache c')) as [item|] eqn:E.
  - left. apply mapGet_Some_In in E.
    assert (Heq : (fst kv, item) = kv).
    { apply (NoDup_keys_inj (cache c)); [exact Hwf | apply Hincl, E | exact Hin
                                         | reflexivity]. }
    rewrite <- Heq. exact E.
  - right. intros Hin'. apply mapGet_None_keys in E. apply E.
    apply in_map. exact Hin'.
Qed.

(** Least recently used first, over the memory check and the size check
    together. *)
Lemma checks_oldest c (gone kept : string * CacheItem T) :
  wellFormed c ->
  In gone (cache c) -> ~ In gone (cache (sizeCheck (memoryCheck c))) ->
  In kept (cache (sizeCheck (memoryCheck c))) ->
  olderThan gone kept.
Proof.
  intros Hwf Hg Hng Hk.
  assert (Hwm : wellFormed (memoryCheck c)) by apply memoryCheck_wellFormed, Hwf.
  assert (Hincl : forall x, In x (cache (memoryCheck c)) -> In x (cache c)).
  { intros x. unfold Cache.memoryCheck.
    destruct (Qgtb _ _); [apply evictLRU_incl | exact id]. }
  destruct (still_there_dec c (memoryCheck c) gone Hwf Hincl Hg) as [Hin|Hout].
  - apply (sizeCheck_oldest (memoryCheck c)); assumption.
  - apply sizeCheck_incl in Hk.
    unfold Cache.memoryCheck in Hout, Hk.
    destruct (Qgtb _ _); [|contradiction].
    apply (evictLRU_oldest (ceilFifth (size c)) c); assumption.
Qed.

End WithData.

(** *** Reading *)

Section Nullable.

Context {V : Type}.
Variable estimateSize : option V -> Z.
Variable ceilFifth : Z -> Z.

Local Abbreviation T := (option V).
Local Abbreviation set := (Cache.set T estimateSize ceilFifth).
Local Abbreviation memoryCheck := (Cache.memoryCheck T estimateSize ceilFifth).
Local Abbreviation memoryUsageMB := (Cache.memoryUsageMB T estimateSize).

(** A miss on a key that is not stored. *)
Lemma get_absent key now (c : LRUCache T) :
  mapGet key (cache c) = None -> get key now c = (None, c).
Proof. intros H. unfold get. rewrite H. reflexivity. Qed.

(** A hit: the data, and the entry moves to the end with its access
    recorded. *)
Lemma get_fresh key now (c : LRUCache T) item :
  mapGet key (cache c) = Some item ->
  (now - timestamp item <= ttl item)%Z ->
  get key now c
  = (data item,
     withCache c
       (mapDelete key (cache c)
        ++ [(key, mkItem (data item) (timestamp item) (ttl item)
                    (accessCount item + 1) now)])%list).
Proof.
  intros Hg Hle. unfold get, expired. rewrite Hg.
  destruct (Z.gtb_spec (now - timestamp item) (ttl item)) as [Hgt|_]; [lia|].
  cbn. rewrite mapSet_fresh by apply mapGet_mapDelete. reflexivity.
Qed.

(** An expired entry is deleted. *)
Lemma get_expired key now (c : LRUCache T) item :
  mapGet key (cache c) = Some item ->
  (now - timestamp item > ttl item)%Z ->
  get key now c = (None, withCache c (mapDelete key (cache c))).
Proof.
  intros Hg Hgt. unfold get, expired. rewrite Hg.
  destruct (Z.gtb_spec (now - timestamp item) (ttl item)) as [_|Hle]; [|lia].
  reflexivity.
Qed.

(** [has] tells whether an entry is there and fresh; [get] returns what is
    not [null] when, besides, the data of the entry are not [null]. *)
Lemma has_spec key now (c : LRUCache T) :
  fst (has key now c) = true
  <-> exists item, mapGet key (cache c) = Some item /\
                   (now - timestamp item <= ttl item)%Z.
Proof.
  unfold has, expired. destruct (mapGet key (cache c)) as [item|]; cbn.
  - destruct (Z.gtb_spec (now - timestamp item) (ttl item)) as [Hgt|Hle]; cbn.
    + split; [discriminate|]. intros (item' & [= <-] & H). lia.
    + split; [eauto|reflexivity].
  - split; [discriminate|]. intros (item & [=] & _).
Qed.

Lemma get_not_null key now (c : LRUCache T) :
  fst (get key now c) <> None
  <-> exists item, mapGet key (cache c) = Some item /\
                   (now - timestamp item <= ttl item)%Z /\
                   data item <> None.
Proof.
  unfold get, expired. destruct (mapGet key (cache c)) as [item|]; cbn.
  - destruct (Z.gtb_spec (now - timestamp item) (ttl item)) as [Hgt|Hle]; cbn.
    + split; [congruence|]. intros (item' & [= <-] & H & _). lia.
    + split; [eauto|]. intros (item' & [= <-] & _ & H). exact H.
  - split; [congruence|]. intros (item & [=] & _).
Qed.

Lemma get_wellFormed key now (c : LRUCache T) :
  wellFormed c -> wellFormed (snd (get key now c)).
Proof.
  intros H. unfold get. destruct (mapGet key (cache c)) as [item|] eqn:E; [|exact H].
  destruct (expired now item); unfold wellFormed; cbn.
  - apply NoDup_keys_filter, H.
  - rewrite mapSet_fresh by apply mapGet_mapDelete. apply NoDup_keys_snoc, H.
Qed.

(** *** The two claims *)

(** C6.  [set] called at time [t] stores the data under the key with [t]
    as timestamp and, to live, the time given or [defaultTTL] when none,
    or zero, is given; within the limits of the cache the entry is there
    once [set] returns (else [set]'s own eviction may have removed it).
    While the entry is there, [get] returns the data stored as long as
    [now - t] is at most the time to live, and after that deletes the
    entry and returns [null].  [has] answers [true] exactly when an entry
    is stored under the key and has not expired, which is when [get] would
    not return [null], provided the data stored are not [null] themselves.
    A key that is not stored, never stored or deleted, yields [null]. *)
Theorem get_respects_ttl (c : LRUCache T) key value ttl' (t t' now : Z) :
  let live := orZ ttl' (defaultTTL c) in
  let c' := set key value ttl' t t' c in
  (forall item,
     mapGet key (cache c') = Some item -> item = mkItem value t live 0 t) /\
  (wellFormed c -> (1 <= maxSize c)%Z -> (t' - t <= live)%Z ->
   Qgtb (memoryUsageMB (snd (cleanup t' (store key value ttl' t c))))
        (maxMemoryUsage c) = false ->
   List.Forall (fun kv => (lastAccessed (snd kv) <= t)%Z) (cache c) ->
   mapGet key (cache c') = Some (mkItem value t live 0 t) /\
   ((now - t <= live)%Z -> fst (get key now c') = value)) /\
  (mapGet key (cache c') <> None ->
   ((now - t <= live)%Z -> fst (get key now c') = value) /\
   ((now - t > live)%Z ->
    fst (get key now c') = None /\
    cache (snd (get key now c')) = mapDelete key (cache c') /\
    mapGet key (cache (snd (get key now c'))) = None)) /\
  (fst (has key now c) = true
   <-> exists item, mapGet key (cache c) = Some item /\
                    (now - timestamp item <= ttl item)%Z) /\
  (fst (get key now c) <> None
   <-> exists item, mapGet key (cache c) = Some item /\
                    (now - timestamp item <= ttl item)%Z /\
                    data item <> None) /\
  ((forall item, mapGet key (cache c) = Some item -> data item <> None) ->
   (fst (has key now c) = true <-> fst (get key now c) <> None)) /\
  (mapGet key (cache c) = None -> get key now c = (None, c)) /\
  (forall options, mapGet key (cache (@new T options)) = None) /\
  (mapGet key (cache (snd (delete key c))) = None).
Proof.
  intros live c'.
  assert (Hread : forall item,
            mapGet key (cache c') = Some item ->
            ((now - t <= live)%Z -> fst (get key now c') = value) /\
            ((now - t > live)%Z ->
             fst (get key now c') = None /\
             cache (snd (get key now c')) = mapDelete key (cache c') /\
             mapGet key (cache (snd (get key now c'))) = None)).
  { intros item Hg.
    pose proof (set_entry estimateSize ceilFifth c key value ttl' t t' item Hg)
      as ->.
    split; intros Ht.
    - rewrite (get_fresh _ _ _ _ Hg); [reflexivity | exact Ht].
    - rewrite (get_expired _ _ _ _ Hg); [|exact Ht]. cbn.
      repeat split. apply mapGet_mapDelete. }
  split; [apply set_entry|].
  split; [|split; [|split; [|split; [|split; [|split; [|split]]]]]].
  - intros Hwf Hmax Hlive Hmem Hold.
    pose proof (set_keeps_entry estimateSize ceilFifth c key value ttl' t t'
                  Hwf Hmax Hlive Hmem Hold) as Hg.
    split; [exact Hg|]. apply (Hread _ Hg).
  - intros Hthere. destruct (mapGet key (cache c')) as [item|] eqn:Hg;
      [|contradiction]. apply (Hread item). reflexivity.
  - apply has_spec.
  - apply get_not_null.
  - intros Hdata. rewrite has_spec, get_not_null.
    split; intros (item & Hg & Ht); [|destruct Ht; eauto].
    exists item. repeat split; try assumption. apply Hdata, Hg.
  - apply get_absent.
  - intros options. reflexivity.
  - cbn. apply mapGet_mapDelete.
Qed.

(** C7.  After [set] the cache holds at most [maxSize] entries, for a
    limit that is not negative.  [set] stores the entry and drops what has
    expired; then, when the memory estimate is over its limit, it evicts a
    fifth of the entries, rounded up, whatever their number is; and then,
    when there are still more than [maxSize], as many as are too many.
    So when the memory estimate is within its limit, the size after [set]
    is the smaller of [maxSize] and the number of entries that have not
    expired: when storing pushed that number past [maxSize], exactly the
    entries too many are evicted and the size is [maxSize].  Whatever the
    two checks evict was accessed no later than whatever they keep.  A
    [get] that finds a fresh entry returns its data, gives the entry the
    time of the call as [lastAccessed] and moves it to the end of the map,
    so that, the other entries having been accessed no later, an eviction
    that leaves anything leaves that entry. *)
Theorem set_bounded_lru (c : LRUCache T) key value ttl' (now now' : Z) :
  wellFormed c ->
  let stored := snd (cleanup now' (store key value ttl' now c)) in
  let overMemory := Qgtb (memoryUsageMB stored) (maxMemoryUsage c) in
  let c' := set key value ttl' now now' c in
  wellFormed c' /\
  ((0 <= maxSize c)%Z -> (size c' <= maxSize c)%Z) /\
  (overMemory = false ->
   c' = sizeCheck stored /\
   ((0 <= maxSize c)%Z -> size c' = Z.min (size stored) (maxSize c)) /\
   ((0 <= maxSize c)%Z -> (size stored > maxSize c)%Z -> size c' = maxSize c) /\
   ((size stored <= maxSize c)%Z -> c' = stored)) /\
  (overMemory = true ->
   c' = sizeCheck (evictLRU (ceilFifth (size stored)) stored)) /\
  (forall gone kept,
     In gone (cache stored) -> ~ In gone (cache c') -> In kept (cache c') ->
     olderThan gone kept) /\
  (forall k item t,
     mapGet k (cache c) = Some item ->
     (t - timestamp item <= ttl item)%Z ->
     let read := snd (get k t c) in
     let item' :=
       mkItem (data item) (timestamp item) (ttl item) (accessCount item + 1) t in
     fst (get k t c) = data item /\
     cache read = (mapDelete k (cache c) ++ [(k, item')])%list /\
     (List.Forall (fun kv => (lastAccessed (snd kv) <= t)%Z) (cache c) ->
      forall count, (count < size read)%Z ->
      mapGet k (cache (evictLRU count read)) = Some item')).
Proof.
  intros Hwf stored overMemory c'.
  assert (Hws : wellFormed stored).
  { apply cleanup_wellFormed, store_wellFormed, Hwf. }
  assert (Hwm : wellFormed (memoryCheck stored)).
  { apply memoryCheck_wellFormed, Hws. }
  assert (Hc' : c' = sizeCheck (memoryCheck stored)) by reflexivity.
  assert (Hms : maxSize (memoryCheck stored) = maxSize c).
  { rewrite memoryCheck_maxSize. reflexivity. }
  split; [apply set_wellFormed, Hwf|].
  split; [|split; [|split; [|split]]].
  - intros Hmax. rewrite Hc', sizeCheck_size, Hms; [lia | exact Hwm | lia].
  - intros Hmem.
    assert (Hm : memoryCheck stored = stored).
    { unfold Cache.memoryCheck. fold memoryUsageMB.
      change (maxMemoryUsage stored) with (maxMemoryUsage c).
      fold overMemory. rewrite Hmem. reflexivity. }
    rewrite Hm in Hc'. split; [exact Hc'|]. split; [|split].
    + intros Hmax. rewrite Hc', sizeCheck_size; [|exact Hws|exact Hmax].
      reflexivity.
    + intros Hmax Hgt. rewrite Hc', sizeCheck_size; [|exact Hws|exact Hmax].
      change (maxSize stored) with (maxSize c). lia.
    + intros Hle. rewrite Hc'. unfold sizeCheck.
      change (maxSize stored) with (maxSize c).
      destruct (Z.gtb_spec (size stored) (maxSize c)); [lia | reflexivity].
  - intros Hmem. rewrite Hc'. unfold Cache.memoryCheck. fold memoryUsageMB.
    change (maxMemoryUsage stored) with (maxMemoryUsage c).
    fold overMemory. rewrite Hmem. reflexivity.
  - intros gone kept Hg Hng Hk. rewrite Hc' in Hng, Hk.
    apply (checks_oldest estimateSize ceilFifth stored); assumption.
  - intros k item t Hg Ht read item'.
    assert (Hread : cache read = (mapDelete k (cache c) ++ [(k, item')])%list).
    { unfold read. rewrite (get_fresh _ _ _ _ Hg Ht). reflexivity. }
    split; [rewrite (get_fresh _ _ _ _ Hg Ht); reflexivity|].
    split; [exact Hread|].
    intros Hold count Hcount.
    apply (evictLRU_keeps_newest count read (mapDelete k (cache c))); try assumption.
    + apply get_wellFormed, Hwf.
    + cbn. unfold mapDelete. rewrite List.Forall_forall in *.
      intros kv Hin. apply filter_In in Hin as [Hin _]. apply Hold, Hin.
Qed.

End Nullable.

(** A cache of two texts, ["a"] stored at 10 and ["b"] at 20, each to live
    for 1000: ["a"] is there once [set] returns, is read back at 500 and
    is gone at 1011. *)
Lemma get_respects_ttl_witness :
  let c' := Cache.set (option string) Samples.nullableSize Samples.fifth
              "a" (Some "alpha") None 10 10 Samples.smallN in
  mapGet "a" (cache c') = Some (mkItem (Some "alpha") 10 1000 0 10) /\
  fst (get "a" 500 c') = Some "alpha" /\
  fst (has "a" 500 c') = true /\
  fst (get "a" 1011 c') = None /\
  mapGet "a" (cache (snd (get "a" 1011 c'))) = None /\
  fst (get "z" 500 c') = None.
Proof.
  intros c'.
  pose proof (fun now =>
    get_respects_ttl Samples.nullableSize Samples.fifth Samples.smallN
      "a" (Some "alpha") None 10 10 now) as H.
  destruct (H 500%Z) as (_ & Hkept & _).
  destruct Hkept as [Hthere Hlive];
    [constructor | vm_compute; discriminate | vm_compute; discriminate
    | reflexivity | constructor |].
  destruct (H 1011%Z) as (_ & _ & Hdead & _).
  destruct (proj2 (Hdead ltac:(vm_compute; discriminate)))
    as (Hnull & _ & Hgone); [vm_compute; reflexivity|].
  destruct (get_respects_ttl Samples.nullableSize Samples.fifth c'
              "a" None None 0 0 500) as (_ & _ & _ & Hhas & _).
  destruct (get_respects_ttl Samples.nullableSize Samples.fifth c'
              "z" None None 0 0 500) as (_ & _ & _ & _ & _ & _ & Hmiss & _).
  split; [exact Hthere|].
  split; [apply Hlive; vm_compute; discriminate|].
  split; [apply Hhas; eexists; split; [exact Hthere | vm_compute; discriminate]|].
  split; [exact Hnull|]. split; [exact Hgone|].
  rewrite Hmiss; reflexivity.
Defined.

(** The claim, taken to the letter, fails in three ways.  Stored at 10 to live
    for 0, a text is still read back at 500: a time to live of zero stands
    for the default of the cache.  An entry whose data are [null] is there
    for [has] while [get] returns [null].  And on a cache whose memory
    limit a single entry exceeds, [set] evicts the entry it has just
    stored, so that [get] returns [null] at the very time of the call. *)
Lemma get_claim_fails :
  let set := Cache.set (option string) Samples.nullableSize Samples.fifth in
  let zero := set "k" (Some "v") (Some 0%Z) 10 10 Samples.smallN in
  let null := set "n" None None 10 10 Samples.smallN in
  let tiny : LRUCache (option string) :=
    Cache.new (Cache.mkOptions (Some 2%Z) (Some 1000%Z) (Some (1 # 1000000)%Q)) in
  let evicted := set "k" (Some "v") None 10 10 tiny in
  ((500 - 10 > 0)%Z /\ fst (get "k" 500 zero) = Some "v") /\
  (fst (has "n" 20 null) = true /\ fst (get "n" 20 null) = None) /\
  ((10 - 10 <= 1000)%Z /\ fst (get "k" 10 evicted) = None).
Proof.
  cbv zeta. repeat split; try (vm_compute; discriminate).
Qed.

(** The sample cache, limited to two entries: ["a"] is read at 25, then
    ["c"] is stored at 30.  The cache is back at two entries and the one
    that went is ["b"], the least recently used. *)
Lemma set_bounded_lru_witness :
  let read := snd (get "a" 25 Samples.filledN) in
  let c' := Cache.set (option string) Samples.nullableSize Samples.fifth
              "c" (Some "gamma") None 30 30 read in
  size c' = 2%Z /\ keys (cache c') = ["a"; "c"] /\ mapGet "b" (cache c') = None.
Proof.
  intros read c'.
  assert (Hwf : wellFormed read).
  { apply get_wellFormed. unfold Samples.filledN.
    do 2 apply set_wellFormed. apply new_wellFormed. }
  pose proof (set_bounded_lru Samples.nullableSize Samples.fifth read "c"
                (Some "gamma") None 30 30 Hwf) as (_ & _ & Hwithin & _).
  destruct (Hwithin ltac:(reflexivity)) as (_ & _ & Hfull & _).
  split; [apply Hfull; vm_compute; [discriminate | reflexivity]|].
  split; reflexivity.
Defined.

(** The claim, taken to the letter, fails in two ways.  A cache of five
    entries at most holds five of ten bytes each under a memory limit of
    55 bytes;
    storing a sixth pushes the size past the limit by one, and the memory
    check evicts two, a fifth of six rounded up: four entries are left,
    not five.  And a cache made with a limit of -1 keeps that limit, which
    no number of entries is within. *)
Lemma set_claim_fails :
  let set := Cache.set (option string) Samples.nullableSize Samples.fifth in
  let five : LRUCache (option string) :=
    Cache.new (Cache.mkOptions (Some 5%Z) (Some 1000%Z) (Some (55 # 1048576)%Q)) in
  let full :=
    set "k5" (Some "v") None 5 5
      (set "k4" (Some "v") None 4 4
         (set "k3" (Some "v") None 3 3
            (set "k2" (Some "v") None 2 2
               (set "k1" (Some "v") None 1 1 five)))) in
  let negative : LRUCache (option string) :=
    Cache.new (Cache.mkOptions (Some (-1)%Z) None None) in
  (size full = 5%Z /\ maxSize full = 5%Z /\
   size (set "k6" (Some "v") None 6 6 full) = 4%Z) /\
  (maxSize negative = (-1)%Z /\
   (size (set "a" (Some "alpha") None 10 10 negative) > maxSize negative)%Z).
Proof.
  cbv zeta. repeat split; vm_compute; reflexivity.
Qed.

End CacheSpec.


(** ** Persistence *)

Module PersistenceSpec.

Section Runtime.

Variable dateOfString : string -> Date.
Variable toISOString : Z -> string.

Local Abbreviation reviver := (Persistence.reviver dateOfString).
Local Abbreviation parseWith := (Persistence.parseWith dateOfString).
Local Abbreviation stringify := (Persistence.stringify toISOString).
Local Abbreviation save := (Persistence.save toISOString).
Local Abbreviation load := (Persistence.load dateOfString toISOString).
Local Abbreviation restoredAt := (Persistence.restoredAt dateOfString toISOString).

(** The reviver leaves arrays and objects as they are. *)
Lemma parseWith_arr items :
  parseWith (JArr items) = VArr (List.map parseWith items).
Proof. reflexivity. Qed.

Lemma parseWith_obj fields :
  parseWith (JObj fields)
  = VObj (List.map (fun kv => (fst kv, parseWith (snd kv))) fields).
Proof. reflexivity. Qed.

(** A parsed text is written back as it was. *)
Lemma stringify_parse : forall j : Json, stringify (parse j) = Some j.
Proof.
  fix IH 1. intros [| b | n | s | items | fields]; cbn; try reflexivity.
  - do 2 f_equal. induction items as [|x items IHl]; cbn; [reflexivity|].
    rewrite IH, IHl. reflexivity.
  - do 2 f_equal. induction fields as [|[k x] fields IHl]; cbn; [reflexivity|].
    rewrite IH, IHl. reflexivity.
Qed.

(** Loading a text is parsing it with the reviver. *)
Lemma load_parseWith (raw : Json) : load raw = Some (parseWith raw).
Proof. unfold Persistence.load, reviveDates. rewrite stringify_parse. reflexivity. Qed.

Local Abbreviation props := (writeProps stringify).

Lemma find_props (k : string) (fields : list (string * JsValue)) kv j :
  List.find (fun kv => String.eqb (fst kv) k) fields = Some kv ->
  stringify (snd kv) = Some j ->
  List.find (fun kv => String.eqb (fst kv) k)
    (List.map (fun kv => (fst kv, parseWith (snd kv))) (props fields))
  = Some (fst kv, parseWith j).
Proof.
  induction fields as [|[k' x] fields IH]; cbn; [discriminate|].
  destruct (String.eqb_spec k' k) as [->|Hne].
  - intros [= <-] Hj. cbn in Hj. rewrite Hj. cbn.
    rewrite String.eqb_refl. reflexivity.
  - intros Hf Hj. destruct (stringify x); cbn.
    + apply String.eqb_neq in Hne. rewrite Hne. apply IH; assumption.
    + apply IH; assumption.
Qed.

(** What stands at a path of a state stands, written and revived, at the
    same path of the state saved and loaded. *)
Lemma getPath_roundtrip (path : list Step) :
  forall (state v : JsValue) (jv : Json),
    getPath state path = Some v ->
    stringify v = Some jv ->
    exists raw, save state = Some raw /\
                getPath (parseWith raw) path = Some (parseWith jv).
Proof.
  induction path as [|st path IH]; intros state v jv Hp Hv; cbn in Hp.
  - injection Hp as ->. exists jv. split; [exact Hv | reflexivity].
  - destruct (getStep state st) as [child|] eqn:Hs; [|discriminate].
    destruct (IH child v jv Hp Hv) as (rawc & Hsave & Hget).
    unfold Persistence.save in *.
    destruct st as [k|i], state; try discriminate; cbn in Hs.
    + destruct (List.find _ fields) as [kv|] eqn:Hf; [|discriminate].
      injection Hs as <-.
      exists (JObj (props fields)). split; [reflexivity|].
      change (match snd <$> List.find (fun kv => String.eqb (fst kv) k)
                      (List.map (fun kv => (fst kv, parseWith (snd kv)))
                         (props fields)) with
              | Some v' => getPath v' path
              | None => None
              end = Some (parseWith jv)).
      rewrite (find_props k fields kv rawc Hf Hsave). exact Hget.
    + exists (JArr (List.map (fun x => nullish (stringify x) JNull) items)).
      split; [reflexivity|].
      change (match nth_error
                      (List.map parseWith
                         (List.map (fun x => nullish (stringify x) JNull) items)) i with
              | Some v' => getPath v' path
              | None => None
              end = Some (parseWith jv)).
      rewrite !nth_error_map, Hs. cbn [option_map]. rewrite Hsave. exact Hget.
Qed.

Lemma reviver_string (s : string) (ms : Z) :
  parseWith (JStr s) = VDate (ValidDate ms)
  <-> datePatternTest s = true /\ dateOfString s = ValidDate ms.
Proof.
  cbn. destruct (datePatternTest s); [|split; [discriminate | intros [[=] _]]].
  destruct (dateOfString s) as [ms'|].
  - split; [intros [= ->]; split; reflexivity | intros [_ [= ->]]; reflexivity].
  - split; [discriminate | intros [_ [=]]].
Qed.

Lemma reviver_plain (s : string) :
  datePatternTest s = false \/ dateOfString s = InvalidDate ->
  parseWith (JStr s) = VStr s.
Proof.
  cbn. intros [H|H]; rewrite H; [reflexivity|].
  destruct (datePatternTest s); reflexivity.
Qed.

Lemma restoredAt_intro state path v jv :
  getPath state path = Some v -> stringify v = Some jv ->
  restoredAt state path (parseWith jv).
Proof.
  intros Hp Hv.
  destruct (getPath_roundtrip path state v jv Hp Hv) as (raw & Hsave & Hget).
  exists raw, (parseWith raw). rewrite load_parseWith. auto.
Qed.

(** C9, as the code has it.  Loading parses the stored text with the
    reviver, which visits every value of the snapshot and turns a string
    into a Date exactly when the string contains a match of
    [\d{4}-\d{2}-\d{2}T] and the runtime reads it as a valid date.  So, at
    any path of a state: a valid Date, whose ISO text the runtime reads back
    as the same instant, is restored as that Date; a text that matches the
    pattern and reads as a valid date is restored as a Date, not as the
    text; any other text is restored as it was; and an Invalid Date, which
    is written as [null], is restored as [null]. *)
Theorem reviveDates_roundtrip (state : JsValue) (path : list Step) :
  (forall raw, load raw = Some (parseWith raw)) /\
  (forall s ms,
     parseWith (JStr s) = VDate (ValidDate ms)
     <-> datePatternTest s = true /\ dateOfString s = ValidDate ms) /\
  (forall s,
     datePatternTest s = false \/ dateOfString s = InvalidDate ->
     parseWith (JStr s) = VStr s) /\
  (forall items, parseWith (JArr items) = VArr (List.map parseWith items)) /\
  (forall fields,
     parseWith (JObj fields)
     = VObj (List.map (fun kv => (fst kv, parseWith (snd kv))) fields)) /\
  (forall ms,
     getPath state path = Some (VDate (ValidDate ms)) ->
     datePatternTest (toISOString ms) = true ->
     dateOfString (toISOString ms) = ValidDate ms ->
     restoredAt state path (VDate (ValidDate ms))) /\
  (forall s ms,
     getPath state path = Some (VStr s) ->
     datePatternTest s = true -> dateOfString s = ValidDate ms ->
     restoredAt state path (VDate (ValidDate ms))) /\
  (forall s,
     getPath state path = Some (VStr s) ->
     datePatternTest s = false \/ dateOfString s = InvalidDate ->
     restoredAt state path (VStr s)) /\
  (getPath state path = Some (VDate InvalidDate) ->
   restoredAt state path VNull).
Proof.
  split; [exact load_parseWith|].
  split; [exact reviver_string|].
  split; [exact reviver_plain|].
  split; [exact parseWith_arr|].
  split; [exact parseWith_obj|].
  split; [|split; [|split]].
  - intros ms Hp Hpat Hread.
    rewrite <- (proj2 (reviver_string (toISOString ms) ms) (conj Hpat Hread)).
    apply (restoredAt_intro state path _ _ Hp). reflexivity.
  - intros s ms Hp Hpat Hread.
    rewrite <- (proj2 (reviver_string s ms) (conj Hpat Hread)).
    apply (restoredAt_intro state path _ _ Hp). reflexivity.
  - intros s Hp Hplain. rewrite <- (reviver_plain s Hplain).
    apply (restoredAt_intro state path _ _ Hp). reflexivity.
  - intros Hp. apply (restoredAt_intro state path _ JNull Hp). reflexivity.
Qed.

End Runtime.

(** The sample runtime writes and reads the sample instant, and reads
    nothing into a text that only starts like a date. *)
Example sample_runtime :
  Samples.sampleISO Samples.instant = Samples.instantText /\
  Samples.sampleDate Samples.instantText = ValidDate Samples.instant /\
  Samples.sampleISO 0 = "1970-01-01T00:00:00.000Z" /\
  Samples.sampleISO 951782400000 = "2000-02-29T00:00:00.000Z" /\
  Samples.sampleDate "2000-02-29T00:00:00.000Z" = ValidDate 951782400000 /\
  Samples.sampleDate "2023-02-30T00:00:00.000Z" = InvalidDate /\
  datePatternTest "due 2024-01-15T, call first" = true /\
  Samples.sampleDate "due 2024-01-15T, call first" = InvalidDate.
Proof. vm_compute. repeat split. Qed.

(** In the sample state the invoice's date comes back as the Date it was,
    and its notes, a text that reads like a date, come back as a Date
    too. *)
Lemma reviveDates_roundtrip_witness :
  let invoice := [Key "invoices"; Index 0] in
  restoredAt Samples.sampleDate Samples.sampleISO Samples.snapshot
    (invoice ++ [Key "date"])%list (VDate (ValidDate Samples.instant)) /\
  restoredAt Samples.sampleDate Samples.sampleISO Samples.snapshot
    (invoice ++ [Key "notes"])%list (VDate (ValidDate Samples.instant)) /\
  restoredAt Samples.sampleDate Samples.sampleISO Samples.snapshot
    (invoice ++ [Key "customerName"])%list (VStr "Asha Traders").
Proof.
  intros invoice. split; [|split].
  - apply (proj1 (proj2 (proj2 (proj2 (proj2 (proj2
      (reviveDates_roundtrip Samples.sampleDate Samples.sampleISO
         Samples.snapshot (invoice ++ [Key "date"])%list))))))); reflexivity.
  - apply (proj1 (proj2 (proj2 (proj2 (proj2 (proj2 (proj2
      (reviveDates_roundtrip Samples.sampleDate Samples.sampleISO
         Samples.snapshot (invoice ++ [Key "notes"])%list))))))) Samples.instantText);
      reflexivity.
  - apply (proj1 (proj2 (proj2 (proj2 (proj2 (proj2 (proj2 (proj2
      (reviveDates_roundtrip Samples.sampleDate Samples.sampleISO
         Samples.snapshot (invoice ++ [Key "customerName"])%list)))))))));
      [reflexivity | left; reflexivity].
Defined.

(** C9 as stated fails on a Date that is not valid: the due date of the
    sample invoice is a Date before saving and [null], not a Date, after
    loading. *)
Lemma invalid_date_not_restored :
  let path := [Key "invoices"; Index 0; Key "dueDate"] in
  exists raw loaded,
    getPath Samples.snapshot path = Some (VDate InvalidDate) /\
    Persistence.save Samples.sampleISO Samples.snapshot = Some raw /\
    Persistence.load Samples.sampleDate Samples.sampleISO raw = Some loaded /\
    getPath loaded path = Some VNull /\
    ~ (exists d, getPath loaded path = Some (VDate d)).
Proof.
  intros path. eexists _, _.
  split; [reflexivity|]. split; [reflexivity|]. split; [reflexivity|].
  split; [reflexivity|]. intros [d Hd]. vm_compute in Hd. discriminate.
Qed.

End PersistenceSpec.


(** ** Start-up seeding *)

Module StartupSpec.

Section Runtime.

Variable dateOfString : string -> Date.
Variable toISOString : Z -> string.
Variable JSON_parse : string -> option Json.
Variable asAppState : JsValue -> PartialAppState.
Variable mockContacts : list Contact.t.
Variable mockProducts : list Product.t.
Variable mockTaxes : list Tax.t.
Variable mockAccounts : list Account.t.
Variable mockPurchaseOrders : list PurchaseOrder.t.
Variable mockInvoices : list Invoice.t.

Local Abbreviation init :=
  (Startup.init dateOfString toISOString JSON_parse asAppState mockContacts
     mockProducts mockTaxes mockAccounts mockPurchaseOrders mockInvoices).
Local Abbreviation mockPayload :=
  (Startup.mockPayload mockContacts mockProducts mockTaxes mockAccounts
     mockPurchaseOrders mockInvoices).

(** With a client, [dbLoadAll] throws or returns the data. *)
Lemma dbLoadAll_configured (b : Backend) :
  dbLoadAll true b = Threw \/ exists data, dbLoadAll true b = Returned (Some data).
Proof.
  unfold dbLoadAll. cbn.
  destruct (get (b_contacts b)), (get (b_products b)), (get (b_taxes b)),
    (get (b_accounts b)), (get (b_purchaseOrders b)), (get (b_invoices b)),
    (get (b_salesOrders b)), (get (b_vendorBills b)), (get (b_payments b)),
    (get (b_ledger b)); eauto.
Qed.

(** The stock of a product after normalisation. *)
Lemma normaliseStock_spec (p : Product.t) :
  Product.stockQty (normaliseStock p)
  = Some (match Product.type p with
          | Goods => match Product.stockQty p with Some q => q | None => 0%Q end
          | Service => 0%Q
          end) /\
  Product.id (normaliseStock p) = Product.id p /\
  Product.name (normaliseStock p) = Product.name p /\
  Product.type (normaliseStock p) = Product.type p.
Proof. destruct p as [? ? [] ? ? ? ? ? ? ? [] ?]; cbn; repeat split. Qed.

(** C4.  What the start-up effect does, case by case.  A text stored under
    ['shiv-accounts-store-v1'] (one that is not empty) is handed to
    [JSON.parse] and the backend is never queried: when the text parses,
    the snapshot is revived and dispatched as the one seed; when it does
    not, [init] throws there and then, and nothing is seeded from any
    source.  With nothing (or an empty text) stored: when the backend is
    configured and [dbLoadAll] returns its data, the data are dispatched
    with the products normalised and an empty audit trail; when the
    backend is not configured, or [dbLoadAll] throws, the mock data are
    dispatched with the products normalised.  Normalising keeps the stock
    of a product of type Goods, or makes it 0 when there is none, and
    makes it 0 for any other product. *)
Theorem init_precedence (localStorage : string -> option string)
  (supabase : bool) (b : Backend) :
  (forall raw,
     localStorage STORAGE_KEY = Some raw -> raw <> "" ->
     (forall j,
        JSON_parse raw = Some j ->
        init localStorage supabase b
        = [ Dispatch (seed (asAppState (parseWith dateOfString j))) ]) /\
     (JSON_parse raw = None -> init localStorage supabase b = []) /\
     ~ In QueryBackend (init localStorage supabase b)) /\
  (localStorage STORAGE_KEY = None \/ localStorage STORAGE_KEY = Some "" ->
   (forall data,
      supabase = true -> dbLoadAll supabase b = Returned (Some data) ->
      init localStorage supabase b
      = [ QueryBackend; Dispatch (seed (backendPayload data)) ]) /\
   (supabase = true -> dbLoadAll supabase b = Threw ->
    init localStorage supabase b = [ QueryBackend; Dispatch (seed mockPayload) ]) /\
   (supabase = false ->
    init localStorage supabase b = [ Dispatch (seed mockPayload) ])) /\
  (forall data,
     p_products (backendPayload data)
     = Some (List.map normaliseStock (d_products data)) /\
     p_contacts (backendPayload data) = Some (d_contacts data) /\
     p_accounts (backendPayload data) = Some (d_accounts data) /\
     p_invoices (backendPayload data) = Some (d_invoices data) /\
     p_ledger (backendPayload data) = Some (d_ledger data) /\
     p_audit (backendPayload data) = Some []) /\
  (p_products mockPayload = Some (List.map normaliseStock mockProducts) /\
   p_contacts mockPayload = Some mockContacts /\
   p_accounts mockPayload = Some mockAccounts /\
   p_invoices mockPayload = Some mockInvoices /\
   p_ledger mockPayload = Some []) /\
  (forall p,
     Product.stockQty (normaliseStock p)
     = Some (match Product.type p with
             | Goods => match Product.stockQty p with Some q => q | None => 0%Q end
             | Service => 0%Q
             end)).
Proof.
  split; [|split; [|split; [|split]]].
  - intros raw Hraw Hne.
    assert (E : init localStorage supabase b
                = match JSON_parse raw with
                  | Some j => [ Dispatch (seed (asAppState (parseWith dateOfString j))) ]
                  | None => []
                  end).
    { unfold Startup.init. rewrite Hraw.
      destruct raw as [|ch raw']; [congruence|]. cbn [truthyStr].
      destruct (JSON_parse _) as [j|]; [|reflexivity].
      unfold reviveDates.
      rewrite PersistenceSpec.stringify_parse. reflexivity. }
    rewrite E. split; [|split].
    + intros j ->. reflexivity.
    + intros ->. reflexivity.
    + destruct (JSON_parse raw); [intros [H|[]]; discriminate | intros []].
  - intros Hnone.
    assert (E : init localStorage supabase b = seedWithoutSnapshot
                  mockContacts mockProducts mockTaxes mockAccounts
                  mockPurchaseOrders mockInvoices supabase b).
    { unfold Startup.init. destruct Hnone as [-> | ->]; reflexivity. }
    rewrite E. unfold seedWithoutSnapshot.
    split; [|split].
    + intros data -> Hd. rewrite Hd. reflexivity.
    + intros -> Hd. rewrite Hd. reflexivity.
    + intros ->. reflexivity.
  - intros data. repeat split.
  - repeat split.
  - intros p. apply normaliseStock_spec.
Qed.

End Runtime.

(** The cases on the sample data, where the backend holds two products and
    the mock data one.  A stored snapshot wins over a working backend; a
    stored text that is no JSON leaves the store unseeded, working backend
    or not; with nothing stored the backend's two products are seeded, and
    without a backend, or with one that fails, the one product of the mock
    data. *)
Lemma init_precedence_witness :
  let run := Startup.init Samples.sampleDate Samples.sampleISO Samples.sampleParse
               Samples.sampleView [Samples.buyer] [Samples.chair] []
               Samples.chart [] [] in
  let seeded := fun effects : list Effect =>
    match effects with
    | [ Dispatch (seed payload) ] | [ QueryBackend; Dispatch (seed payload) ] =>
        length <$> p_products payload
    | _ => None
    end in
  run (Samples.store "{}") true Samples.backend
  = [ Dispatch (seed (Samples.sampleView (VObj []))) ] /\
  run (Samples.store "not json") true Samples.backend = [] /\
  (run Samples.nothingStored true Samples.backend
   = [ QueryBackend;
       Dispatch (seed (backendPayload
                         (mkDbData [Samples.buyer] [Samples.chair; Samples.delivery]
                            [] Samples.chart [] [] [] [] [] []))) ] /\
   seeded (run Samples.nothingStored true Samples.backend) = Some 2%nat) /\
  seeded (run Samples.nothingStored true Samples.noBackend) = Some 1%nat /\
  seeded (run Samples.nothingStored false Samples.noBackend) = Some 1%nat.
Proof.
  intros run seeded.
  pose proof (fun ls sb b =>
    init_precedence Samples.sampleDate Samples.sampleISO
      Samples.sampleParse Samples.sampleView [Samples.buyer] [Samples.chair] []
      Samples.chart [] [] ls sb b) as H.
  split; [|split; [|split; [|split]]].
  - destruct (proj1 (H (Samples.store "{}") true Samples.backend) "{}"
                eq_refl ltac:(discriminate)) as (Hok & _ & _).
    exact (Hok (JObj []) eq_refl).
  - destruct (proj1 (H (Samples.store "not json") true Samples.backend)
                "not json" eq_refl ltac:(discriminate)) as (_ & Hbad & _).
    exact (Hbad eq_refl).
  - destruct (proj1 (proj2 (H Samples.nothingStored true Samples.backend))
                (or_introl eq_refl)) as (Hdata & _ & _).
    pose proof (Hdata _ eq_refl eq_refl) as E. fold run in E.
    split; [exact E|]. rewrite E. reflexivity.
  - destruct (proj1 (proj2 (H Samples.nothingStored true Samples.noBackend))
                (or_introl eq_refl)) as (_ & Hthrew & _).
    pose proof (Hthrew eq_refl eq_refl) as E. fold run in E.
    rewrite E. reflexivity.
  - destruct (proj1 (proj2 (H Samples.nothingStored false Samples.noBackend))
                (or_introl eq_refl)) as (_ & _ & Hmock).
    pose proof (Hmock eq_refl) as E. fold run in E.
    rewrite E. reflexivity.
Defined.

End StartupSpec.

(** * Further properties of the code *)

(** ** The rate limiter: its other methods *)

Module RateLimiterMore.
Import RateLimiter.

(** The answer of [isRateLimited] in closed form. *)
Lemma isRateLimited_answer (rl : t) (identifier : string)
  (config : RateLimitConfig) (now now' : Z) :
  fst (isRateLimited rl identifier config now now')
  = blockedNow rl identifier now
    || (Z.of_nat (length (recentRequests rl identifier config now))
        >=? maxRequests config)%Z.
Proof.
  unfold isRateLimited, recentRequests.
  destruct (blockedNow rl identifier now); [reflexivity|].
  cbv zeta. rewrite RateLimiterSpec.removeExpiredBlock_requests.
  destruct (_ >=? _)%Z; reflexivity.
Qed.

Lemma filter_idem {A} (f : A -> bool) (l : list A) :
  List.filter f (List.filter f l) = List.filter f l.
Proof.
  induction l as [|x l IH]; cbn; [reflexivity|].
  destruct (f x) eqn:E; cbn; [rewrite E, IH|]; auto.
Qed.

Lemma filter_all {A} (f : A -> bool) (l : list A) :
  (forall x, In x l -> f x = true) -> List.filter f l = l.
Proof.
  induction l as [|x l IH]; cbn; intros H; [reflexivity|].
  rewrite (H x (or_introl eq_refl)). f_equal. apply IH. auto.
Qed.

Lemma filter_filter_weaker {A} (f g : A -> bool) (l : list A) :
  (forall x, f x = true -> g x = true) ->
  List.filter f (List.filter g l) = List.filter f l.
Proof.
  intros H. induction l as [|x l IH]; cbn; [reflexivity|].
  destruct (g x) eqn:Eg; cbn.
  - destruct (f x); [f_equal|]; exact IH.
  - destruct (f x) eqn:Ef; [|exact IH].
    rewrite (H x Ef) in Eg. discriminate.
Qed.

(** X1.  What is left to an identifier is never negative, never more than the
    limit, and, outside an active block, it is zero exactly when
    [isRateLimited] refuses. *)
Theorem remaining_zero_iff_refused (rl : t) (identifier : string)
  (config : RateLimitConfig) (now now' : Z) :
  (0 <= now)%Z ->
  ~ activeBlock rl identifier now ->
  (0 <= getRemainingRequests rl identifier config now
   <= Z.max 0 (maxRequests config))%Z /\
  (fst (isRateLimited rl identifier config now now') = true
   <-> getRemainingRequests rl identifier config now = 0%Z).
Proof.
  intros Hnow Hnb.
  assert (Eb : blockedNow rl identifier now = false).
  { destruct (blockedNow rl identifier now) eqn:E; [|reflexivity].
    exfalso. apply Hnb, RateLimiterSpec.blockedNow_iff; assumption. }
  rewrite isRateLimited_answer, Eb. cbn [orb].
  unfold getRemainingRequests, recentRequests.
  set (count := Z.of_nat (length _)).
  assert (0 <= count)%Z by (unfold count; lia).
  split; [lia|]. rewrite Z.geb_le. lia.
Qed.

Lemma remaining_zero_iff_refused_witness :
  getRemainingRequests Samples.limiter "10.0.0.7" Samples.tight 61000 = 0%Z /\
  fst (isRateLimited Samples.limiter "10.0.0.7" Samples.tight 61000 61001) = true /\
  getRemainingRequests Samples.limiter "10.0.0.7" Samples.tight 200000 = 2%Z.
Proof.
  assert (Hnb : forall now, ~ activeBlock Samples.limiter "10.0.0.7" now).
  { intros now (u & Hu & _). vm_compute in Hu. discriminate. }
  pose proof (remaining_zero_iff_refused Samples.limiter "10.0.0.7" Samples.tight
                61000 61001 ltac:(lia) (Hnb _)) as [_ Hiff].
  split; [reflexivity|]. split; [apply Hiff; reflexivity | reflexivity].
Defined.

(** X2.  A call that is let through uses up exactly one of the remaining
    requests, when the window is positive and short enough for [cleanup] to
    keep what the window still counts. *)
Theorem admitted_call_uses_one (rl : t) (identifier : string)
  (config : RateLimitConfig) (now now' : Z) :
  (0 < windowMs config)%Z ->
  (now' - now + windowMs config <= maxAge)%Z ->
  fst (isRateLimited rl identifier config now now') = false ->
  getRemainingRequests (snd (isRateLimited rl identifier config now now'))
    identifier config now
  = (getRemainingRequests rl identifier config now - 1)%Z.
Proof.
  intros Hw Hage Hadm.
  pose proof Hadm as Hans. rewrite isRateLimited_answer in Hans.
  apply orb_false_iff in Hans as [Eb Hcount].
  unfold isRateLimited in *. rewrite Eb in *. cbv zeta in *.
  rewrite RateLimiterSpec.removeExpiredBlock_requests in *.
  unfold recentRequests in Hcount.
  set (valid := List.filter _ (nullish (requests rl !! identifier) [])) in *.
  rewrite Hcount. cbn [snd].
  unfold getRemainingRequests at 1.
  rewrite RateLimiterSpec.cleanup_keeps_now by lia.
  cbn [nullish].
  assert (Hkeep : List.filter (fun time => (now' - time <? maxAge)%Z) valid = valid).
  { apply filter_all. intros x Hin. apply filter_In in Hin as [_ Hx].
    apply Z.ltb_lt in Hx. apply Z.ltb_lt. lia. }
  rewrite Hkeep, List.filter_app. cbn [List.filter].
  replace (now - now <? windowMs config)%Z with true
    by (symmetry; apply Z.ltb_lt; lia).
  unfold valid at 1. rewrite filter_idem. fold valid.
  rewrite length_app. cbn [length].
  unfold getRemainingRequests. fold valid.
  rewrite Z.geb_leb in Hcount. apply Z.leb_gt in Hcount. lia.
Qed.

Lemma admitted_call_uses_one_witness :
  let roomy := mkConfig 5 60000 None in
  getRemainingRequests Samples.limiter "10.0.0.7" roomy 61000 = 3%Z /\
  getRemainingRequests
    (snd (isRateLimited Samples.limiter "10.0.0.7" roomy 61000 61001))
    "10.0.0.7" roomy 61000 = (3 - 1)%Z.
Proof.
  intros roomy. split; [reflexivity|].
  apply (admitted_call_uses_one Samples.limiter "10.0.0.7" roomy 61000 61001);
    [reflexivity | vm_compute; discriminate | reflexivity].
Defined.

(** X3.  [clearUser] gives an identifier a fresh start, whatever was recorded or
    blocked, and changes the answer for no other identifier. *)
Theorem clearUser_resets (rl : t) (identifier : string)
  (config : RateLimitConfig) (now now' : Z) :
  (1 <= maxRequests config)%Z ->
  fst (isRateLimited (clearUser rl identifier) identifier config now now') = false /\
  getRemainingRequests (clearUser rl identifier) identifier config now
  = maxRequests config /\
  getTimeUntilReset (clearUser rl identifier) identifier config now = 0%Z /\
  (forall other, other <> identifier ->
     fst (isRateLimited (clearUser rl identifier) other config now now')
     = fst (isRateLimited rl other config now now')).
Proof.
  intros Hmax. split; [|split; [|split]].
  - rewrite isRateLimited_answer. unfold blockedNow, recentRequests, clearUser.
    cbn [requests blockedUsers]. rewrite !lookup_delete_eq. cbn.
    rewrite Z.geb_leb. apply Z.leb_gt. lia.
  - unfold getRemainingRequests, clearUser. cbn [requests].
    rewrite lookup_delete_eq. cbn. lia.
  - unfold getTimeUntilReset, clearUser. cbn [requests].
    rewrite lookup_delete_eq. reflexivity.
  - intros other Hne. rewrite !isRateLimited_answer.
    unfold blockedNow, recentRequests, clearUser. cbn [requests blockedUsers].
    rewrite !lookup_delete_ne by congruence. reflexivity.
Qed.

Lemma clearUser_resets_witness :
  fst (isRateLimited (clearUser Samples.limiter "10.0.0.7") "10.0.0.7"
         Samples.tight 61000 61001) = false /\
  fst (isRateLimited Samples.limiter "10.0.0.7" Samples.tight 61000 61001) = true.
Proof.
  split; [|reflexivity].
  apply (clearUser_resets Samples.limiter "10.0.0.7" Samples.tight 61000 61001).
  vm_compute. discriminate.
Defined.

(** X4.  [cleanup] is invisible: with a window of at most a day, what a later
    call answers and what is left to an identifier are the same with and
    without an earlier [cleanup]. *)
Theorem cleanup_is_invisible (rl : t) (identifier : string)
  (config : RateLimitConfig) (swept now now' : Z) :
  (windowMs config <= maxAge)%Z ->
  (swept <= now)%Z ->
  fst (isRateLimited (cleanup swept rl) identifier config now now')
  = fst (isRateLimited rl identifier config now now') /\
  getRemainingRequests (cleanup swept rl) identifier config now
  = getRemainingRequests rl identifier config now.
Proof.
  intros Hw Hsw.
  assert (Hrecent : recentRequests (cleanup swept rl) identifier config now
                    = recentRequests rl identifier config now).
  { unfold recentRequests, cleanup. cbn [requests].
    rewrite lookup_omap.
    destruct (requests rl !! identifier) as [reqs|]; cbn; [|reflexivity].
    assert (E : List.filter (fun time => (now - time <? windowMs config)%Z)
                  (List.filter (fun time => (swept - time <? maxAge)%Z) reqs)
                = List.filter (fun time => (now - time <? windowMs config)%Z) reqs).
    { apply filter_filter_weaker. intros x Hx.
      apply Z.ltb_lt in Hx. apply Z.ltb_lt. lia. }
    destruct (List.filter (fun time => (swept - time <? maxAge)%Z) reqs);
      cbn; rewrite <- E; reflexivity. }
  assert (Hblocked : blockedNow (cleanup swept rl) identifier now
                     = blockedNow rl identifier now).
  { unfold blockedNow, cleanup. cbn [blockedUsers].
    destruct (blockedUsers rl !! identifier) as [u|] eqn:Eu.
    - destruct (decide (swept >= u)%Z) as [Hge|Hlt].
      + rewrite map_lookup_filter_None_2.
        * cbn. unfold truthyNum. destruct (u =? 0)%Z; [reflexivity|].
          symmetry. apply Z.ltb_ge. lia.
        * right. intros x Hx. cbn. rewrite Eu in Hx. injection Hx as <-. tauto.
      + erewrite map_lookup_filter_Some_2; [reflexivity | exact Eu | exact Hlt].
    - rewrite map_lookup_filter_None_2; [reflexivity | left; exact Eu]. }
  split.
  - rewrite !isRateLimited_answer, Hrecent, Hblocked. reflexivity.
  - unfold getRemainingRequests. fold (recentRequests (cleanup swept rl) identifier config now).
    fold (recentRequests rl identifier config now). rewrite Hrecent. reflexivity.
Qed.

Lemma cleanup_is_invisible_witness :
  getRemainingRequests (cleanup 90000000 Samples.limiter) "10.0.0.7"
    Samples.tight 90000000
  = getRemainingRequests Samples.limiter "10.0.0.7" Samples.tight 90000000 /\
  requests (cleanup 90000000 Samples.limiter) !! "10.0.0.7" = None.
Proof.
  split; [|reflexivity].
  apply (cleanup_is_invisible Samples.limiter "10.0.0.7" Samples.tight
           90000000 90000000 90000001); [vm_compute; discriminate | lia].
Defined.

Lemma fold_min_spec (rest : list Z) (first : Z) :
  In (fold_left Z.min rest first) (first :: rest) /\
  forall t, In t (first :: rest) -> (fold_left Z.min rest first <= t)%Z.
Proof.
  revert first. induction rest as [|x rest IH]; intros first; cbn.
  - split; [left; reflexivity | intros t [<-|[]]; lia].
  - destruct (IH (Z.min first x)) as [Hin Hle]. split.
    + destruct Hin as [E|Hin']; [|right; right; exact Hin'].
      rewrite <- E. destruct (Z.min_spec first x) as [[_ ->]|[_ ->]]; auto.
    + intros t [<-|[<-|Ht]].
      * specialize (Hle (Z.min first x) (or_introl eq_refl)). lia.
      * specialize (Hle (Z.min first x) (or_introl eq_refl)). lia.
      * apply Hle. right; assumption.
Qed.

(** X5.  [getTimeUntilReset] is zero for an identifier with no recorded request;
    otherwise it is a wait, never negative, after which the oldest recorded
    request of the identifier is out of the window. *)
Theorem wait_outlasts_oldest (rl : t) (identifier : string)
  (config : RateLimitConfig) (now : Z) :
  let wait := getTimeUntilReset rl identifier config now in
  (0 <= wait)%Z /\
  (requests rl !! identifier = None -> wait = 0%Z) /\
  (forall reqs,
     requests rl !! identifier = Some reqs -> reqs <> [] ->
     exists oldest,
       In oldest reqs /\
       (forall t, In t reqs -> (oldest <= t)%Z) /\
       wait = Z.max 0 (oldest + windowMs config - now) /\
       ((now + wait) - oldest <? windowMs config)%Z = false).
Proof.
  cbv zeta. unfold getTimeUntilReset. split; [|split].
  - destruct (nullish _ _); lia.
  - intros ->. reflexivity.
  - intros reqs -> Hne. cbn [nullish].
    destruct reqs as [|first rest]; [congruence|].
    destruct (fold_min_spec rest first) as [Hin Hle].
    exists (fold_left Z.min rest first).
    split; [exact Hin|]. split; [exact Hle|]. split; [reflexivity|].
    apply Z.ltb_ge. lia.
Qed.

Lemma wait_outlasts_oldest_witness :
  getTimeUntilReset Samples.limiter "10.0.0.7" Samples.tight 20000 = 41000%Z /\
  exists oldest,
    In oldest [1000; 59000; 60500]%Z /\
    ((20000 + getTimeUntilReset Samples.limiter "10.0.0.7" Samples.tight 20000)
     - oldest <? 60000)%Z = false.
Proof.
  split; [reflexivity|].
  destruct (proj2 (proj2 (wait_outlasts_oldest Samples.limiter "10.0.0.7"
                            Samples.tight 20000))
              [1000; 59000; 60500]%Z eq_refl ltac:(discriminate))
    as (oldest & Hin & _ & _ & Hout).
  exists oldest. split; assumption.
Defined.

(** X6.  While a block lasts, a call answers [true] and changes nothing: no
    request is recorded and the block is not extended.  Once it is over, a
    call that is let through removes it. *)
Theorem block_holds_then_lapses (rl : t) (identifier : string)
  (config : RateLimitConfig) (now now' blockedUntil : Z) :
  (0 <= now)%Z ->
  blockedUsers rl !! identifier = Some blockedUntil ->
  ((now < blockedUntil)%Z ->
   isRateLimited rl identifier config now now' = (true, rl)) /\
  ((blockedUntil <= now)%Z -> (blockedUntil <= now')%Z ->
   fst (isRateLimited rl identifier config now now') = false ->
   blockedUsers (snd (isRateLimited rl identifier config now now')) !! identifier
   = None).
Proof.
  intros Hnow Hb. split.
  - intros Hlt. unfold isRateLimited.
    replace (blockedNow rl identifier now) with true; [reflexivity|].
    symmetry. apply RateLimiterSpec.blockedNow_iff; [exact Hnow|].
    exists blockedUntil. split; assumption.
  - intros Hle Hle' Hadm.
    pose proof Hadm as Hans. rewrite isRateLimited_answer in Hans.
    apply orb_false_iff in Hans as [Eb Hcount].
    unfold recentRequests in Hcount.
    unfold isRateLimited in *. rewrite Eb in *. cbv zeta in *.
    rewrite RateLimiterSpec.removeExpiredBlock_requests in *.
    rewrite Hcount. cbn [snd]. unfold cleanup. cbn [blockedUsers].
    apply map_lookup_filter_None_2.
    destruct (blockedUsers (removeExpiredBlock rl identifier now) !! identifier)
      as [u|] eqn:Eu; [right | left; reflexivity].
    intros x [= <-]. cbn.
    unfold removeExpiredBlock in Eu. rewrite Hb in Eu. unfold truthyNum in Eu.
    destruct (blockedUntil =? 0)%Z.
    + rewrite Hb in Eu. injection Eu as <-. lia.
    + destruct (Z.geb_spec now blockedUntil); [|lia].
      cbn [blockedUsers] in Eu. rewrite lookup_delete_eq in Eu. discriminate.
Qed.

Lemma block_holds_then_lapses_witness :
  let blocked :=
    snd (isRateLimited Samples.limiter "10.0.0.7" Samples.tight 61000 61001) in
  isRateLimited blocked "10.0.0.7" Samples.tight 200000 200001 = (true, blocked) /\
  blockedUsers (snd (isRateLimited blocked "10.0.0.7" Samples.tight 400000 400001))
    !! "10.0.0.7" = None.
Proof.
  intros blocked.
  pose proof (block_holds_then_lapses blocked "10.0.0.7" Samples.tight
                200000 200001 361000 ltac:(lia) eq_refl) as [Hhold _].
  pose proof (block_holds_then_lapses blocked "10.0.0.7" Samples.tight
                400000 400001 361000 ltac:(lia) eq_refl) as [_ Hlapse].
  split; [apply Hhold; lia|].
  apply Hlapse; [lia | lia | reflexivity].
Defined.

End RateLimiterMore.

(** ** The cache: its other methods *)

Module CacheMore.
Import Cache.

Section WithData.

Context {T : Type}.
Variable estimateSize : T -> Z.
Variable ceilFifth : Z -> Z.

Implicit Types (m : Entries T) (c : LRUCache T) (key : string)
  (item : CacheItem T).

Local Abbreviation set := (Cache.set T estimateSize ceilFifth).
Local Abbreviation getStats := (Cache.getStats estimateSize).

Lemma filter_split_length {A} (f : A -> bool) (l : list A) :
  (length (List.filter f l) + length (List.filter (fun x => negb (f x)) l)
   = length l)%nat.
Proof.
  induction l as [|x l IH]; cbn; [reflexivity|].
  destruct (f x); cbn; lia.
Qed.

(** X7.  [cleanup] removes the expired entries and nothing else, reports how
    many they were, and finds nothing left to remove at the same time. *)
Theorem cleanup_removes_expired (now : Z) c :
  let removed := fst (cleanup now c) in
  let c' := snd (cleanup now c) in
  removed
  = Z.of_nat (length (List.filter (fun kv => expired now (snd kv)) (cache c))) /\
  (removed + size c' = size c)%Z /\
  (forall kv, In kv (cache c') <-> In kv (cache c) /\ expired now (snd kv) = false) /\
  fst (cleanup now c') = 0%Z /\
  snd (cleanup now c') = c'.
Proof.
  cbv zeta. unfold cleanup, size. cbn [fst snd cache withCache].
  pose proof (filter_split_length (fun kv : string * CacheItem T =>
                                     expired now (snd kv)) (cache c)) as Hlen.
  set (kept := List.filter (fun kv => negb (expired now (snd kv))) (cache c)) in *.
  assert (Hkept : List.filter (fun kv => negb (expired now (snd kv))) kept = kept).
  { unfold kept. apply RateLimiterMore.filter_idem. }
  split; [lia|]. split; [lia|]. split; [|split].
  - intros kv. unfold kept. rewrite filter_In, negb_true_iff. tauto.
  - rewrite Hkept. lia.
  - rewrite Hkept. reflexivity.
Qed.

Lemma mapGet_mapDelete_other key k m :
  k <> key -> mapGet k (mapDelete key m) = mapGet k m.
Proof.
  intros Hne. unfold mapGet, mapDelete.
  induction m as [|[k' it] m IH]; cbn; [reflexivity|].
  destruct (String.eqb_spec k' key) as [->|Hk]; cbn.
  - destruct (String.eqb_spec key k); [congruence | exact IH].
  - destruct (String.eqb_spec k' k); [reflexivity | exact IH].
Qed.

(** X8.  [delete] tells whether the key was stored, removes its entry and
    touches no other key. *)
Theorem delete_removes_one key c :
  (fst (delete key c) = true <-> mapGet key (cache c) <> None) /\
  mapGet key (cache (snd (delete key c))) = None /\
  (forall k, k <> key ->
     mapGet k (cache (snd (delete key c))) = mapGet k (cache c)) /\
  (forall now, fst (has key now (snd (delete key c))) = false) /\
  (wellFormed c -> mapGet key (cache c) <> None ->
   (size (snd (delete key c)) = size c - 1)%Z).
Proof.
  unfold delete. cbn [fst snd cache withCache].
  split; [|split; [|split; [|split]]].
  - destruct (mapHas key (cache c)) eqn:E.
    + split; [|reflexivity]. intros _ Hn.
      apply CacheSpec.mapHas_mapGet in Hn. congruence.
    + apply CacheSpec.mapHas_mapGet in E. split; [discriminate | congruence].
  - apply CacheSpec.mapGet_mapDelete.
  - intros k Hne. apply mapGet_mapDelete_other, Hne.
  - intros now. unfold has. cbn [cache withCache].
    rewrite CacheSpec.mapGet_mapDelete. reflexivity.
  - intros Hwf Hin. unfold size. cbn [cache withCache].
    assert (Hk : In key (keys (cache c))).
    { destruct (in_dec string_dec key (keys (cache c))) as [H|H]; [exact H|].
      apply CacheSpec.mapGet_None_keys in H. contradiction. }
    pose proof (CacheSpec.mapDelete_length key (cache c) Hwf Hk). lia.
Qed.

Lemma count_fold (now : Z) m (a b : Z) :
  fold_left
    (fun (n : Z * Z) (kv : string * CacheItem T) =>
       if expired now (snd kv) then (fst n + 1, snd n)%Z else (fst n, snd n + 1)%Z)
    m (a, b)
  = ((a + Z.of_nat (length (List.filter (fun kv => expired now (snd kv)) m)))%Z,
     (b + Z.of_nat (length (List.filter (fun kv => negb (expired now (snd kv))) m)))%Z).
Proof.
  revert a b. induction m as [|kv m IH]; intros a b; cbn [fold_left List.filter].
  - cbn. f_equal; lia.
  - destruct (expired now (snd kv)); cbn [fst snd negb]; rewrite IH;
      cbn [length]; f_equal; lia.
Qed.

(** X9.  The statistics add up: every entry is counted once, as active or as
    expired; the expired ones are those [cleanup] would remove at that time,
    the active ones those it would leave. *)
Theorem getStats_adds_up (now : Z) c :
  (activeEntries (getStats now c) + expiredEntries (getStats now c)
   = totalEntries (getStats now c))%Z /\
  expiredEntries (getStats now c) = fst (cleanup now c) /\
  activeEntries (getStats now c) = size (snd (cleanup now c)) /\
  (cache c = [] -> hitRate (getStats now c) = 0%Q).
Proof.
  unfold Cache.getStats. cbn [activeEntries expiredEntries totalEntries hitRate].
  rewrite count_fold. cbn [fst snd].
  pose proof (filter_split_length (fun kv : string * CacheItem T =>
                                     expired now (snd kv)) (cache c)) as Hlen.
  unfold cleanup, size. cbn [fst snd cache withCache].
  split; [lia|]. split; [lia|]. split; [lia|].
  intros E. unfold getHitRate, size. rewrite E. reflexivity.
Qed.

(** X10.  [set] neither alters nor invents the entry of another key: what is
    found under another key afterwards is what was there before. *)
Theorem set_spares_other_keys key value ttl' (now now' : Z) c k item :
  wellFormed c -> k <> key ->
  mapGet k (cache (set key value ttl' now now' c)) = Some item ->
  mapGet k (cache c) = Some item.
Proof.
  intros Hwf Hne Hg.
  apply CacheSpec.mapGet_Some_In, CacheSpec.evictIfNecessary_incl in Hg.
  rewrite CacheSpec.store_cache in Hg.
  apply in_app_or in Hg as [Hin|[[= E _]|[]]]; [|congruence].
  apply CacheSpec.In_mapDelete in Hin as [Hin _].
  apply CacheSpec.In_mapGet; assumption.
Qed.

End WithData.

Section Nullable.

Context {V : Type}.
Variable estimateSize : option V -> Z.
Variable ceilFifth : Z -> Z.

Local Abbreviation getOrSet := (Cache.getOrSet V estimateSize ceilFifth).


End Nullable.


Lemma delete_removes_one_witness :
  size (snd (delete "a" Samples.filled)) = (size Samples.filled - 1)%Z /\
  fst (delete "a" Samples.filled) = true /\
  fst (delete "z" Samples.filled) = false.
Proof.
  split; [|split; reflexivity].
  apply (delete_removes_one "a" Samples.filled).
  - unfold Samples.filled. do 2 apply CacheSpec.set_wellFormed.
    apply CacheSpec.new_wellFormed.
  - discriminate.
Defined.

Lemma set_spares_other_keys_witness :
  mapGet "b" (cache (Cache.set string Samples.textSize Samples.fifth
                       "a" "again" None 30 30 Samples.filled))
  = Some (mkItem "beta" 20 1000 0 20) /\
  mapGet "b" (cache Samples.filled) = Some (mkItem "beta" 20 1000 0 20).
Proof.
  assert (H : mapGet "b" (cache (Cache.set string Samples.textSize Samples.fifth
                                   "a" "again" None 30 30 Samples.filled))
              = Some (mkItem "beta" 20 1000 0 20)) by reflexivity.
  split; [exact H|].
  apply (set_spares_other_keys Samples.textSize Samples.fifth "a" "again" None
           30 30 Samples.filled "b" _) in H; [exact H | | discriminate].
  unfold Samples.filled. do 2 apply CacheSpec.set_wellFormed.
  apply CacheSpec.new_wellFormed.
Defined.


(** At 1015 the entry stored at 10 has expired and the one stored at 20 has
    not. *)
Lemma getStats_adds_up_witness :
  expiredEntries (Cache.getStats Samples.textSize 1015 Samples.filled) = 1%Z /\
  activeEntries (Cache.getStats Samples.textSize 1015 Samples.filled) = 1%Z /\
  fst (cleanup 1015 Samples.filled) = 1%Z.
Proof.
  pose proof (getStats_adds_up Samples.textSize 1015 Samples.filled)
    as (_ & He & Ha & _).
  split; [rewrite He; reflexivity|]. split; [rewrite Ha; reflexivity|].
  reflexivity.
Defined.

End CacheMore.

(** ** The payment server beyond the verification *)

Module ServerMore.
Import Server.

Local Open Scope Z_scope.

Section Verify.

Variable hmacSha256Hex : string -> string -> string.
Variable toPaise : Q -> Z.

Local Abbreviation verify := (Server.verify hmacSha256Hex).

(** What a success tells about the request and the stored record. *)
Lemma verify_200 env st b fetched rnd clk :
  status (fst (verify env st b fetched rnd clk)) = 200 ->
  exists oid pid order p,
    truthy (razorpay_order_id b) = Some oid /\
    truthy (razorpay_payment_id b) = Some pid /\
    List.find (fun o => String.eqb (o_id o) oid) (orders st) = Some order /\
    snd (verify env st b fetched rnd clk)
    = mkStorage (payments st ++ [p]) (orders st) /\
    sp_razorpay_order_id p = oid /\
    sp_razorpay_payment_id p = pid /\
    sp_amount p = (o_amount order / 100)%Q /\
    sp_invoice_id p = invoice_id b.
Proof.
  unfold Server.verify.
  destruct (truthy (razorpay_order_id b)) as [oid|],
    (truthy (razorpay_payment_id b)) as [pid|],
    (truthy (razorpay_signature b)) as [sig|]; try (cbn; discriminate).
  destruct (truthy (orElse _ _)); [|cbn; discriminate].
  destruct (negb _); [cbn; discriminate|].
  destruct (List.find _ _) as [order|] eqn:F; [|cbn; discriminate].
  cbn. intros _. eexists oid, pid, order, _.
  repeat split; try reflexivity. exact F.
Qed.

(** The answer's status depends on the request, the environment and the
    stored orders only. *)
Lemma verify_status_orders env st st' b f f' r r' c c' :
  orders st = orders st' ->
  status (fst (verify env st b f r c)) = status (fst (verify env st' b f' r' c')).
Proof.
  intros E. unfold Server.verify. rewrite E.
  destruct (truthy (razorpay_order_id b)), (truthy (razorpay_payment_id b)),
    (truthy (razorpay_signature b)); try reflexivity.
  destruct (truthy (orElse _ _)); [|reflexivity].
  destruct (negb _); [reflexivity|].
  destruct (List.find _ _); reflexivity.
Qed.

(** X13.  A verification that succeeded succeeds again when the same request is
    sent once more, and stores a second record for the same Razorpay
    payment with the same amount: the handler does not recognise a payment
    it has already recorded. *)
Theorem verify_replay_records_twice env st b f1 r1 c1 f2 r2 c2 :
  status (fst (verify env st b f1 r1 c1)) = 200 ->
  let st1 := snd (verify env st b f1 r1 c1) in
  let out := verify env st1 b f2 r2 c2 in
  status (fst out) = 200 /\
  exists p1 p2,
    payments (snd out) = (payments st ++ [p1; p2])%list /\
    orders (snd out) = orders st /\
    sp_razorpay_payment_id p1 = sp_razorpay_payment_id p2 /\
    sp_razorpay_order_id p1 = sp_razorpay_order_id p2 /\
    sp_amount p1 = sp_amount p2.
Proof.
  intros H1 st1 out.
  destruct (verify_200 _ _ _ _ _ _ H1)
    as (oid & pid & order & p1 & Ho & Hp & F & Hst & Eo & Ep & Ea & _).
  assert (H2 : status (fst out) = 200).
  { subst out st1. rewrite <- H1. apply verify_status_orders.
    rewrite Hst. reflexivity. }
  split; [exact H2|].
  destruct (verify_200 _ _ _ _ _ _ H2)
    as (oid' & pid' & order' & p2 & Ho' & Hp' & F' & Hst' & Eo' & Ep' & Ea' & _).
  exists p1, p2. subst out. rewrite Hst'. subst st1. rewrite Hst. cbn.
  rewrite Hst in F'. cbn in F'.
  rewrite Ho in Ho'. injection Ho' as <-.
  rewrite Hp in Hp'. injection Hp' as <-.
  rewrite F in F'. injection F' as <-.
  rewrite <- app_assoc, Eo, Ep, Ea, Eo', Ep', Ea'. cbn.
  repeat split; reflexivity.
Qed.

Lemma find_payment_none (x : string) (l : list StoredPayment) :
  List.find (fun p => String.eqb (sp_id p) x
                      || String.eqb (sp_razorpay_payment_id p) x) l = None
  <-> forall p, In p l -> sp_id p <> x /\ sp_razorpay_payment_id p <> x.
Proof.
  split.
  - intros H p Hin.
    pose proof (find_none _ _ H p Hin) as F. cbn in F.
    apply orb_false_iff in F. destruct F as [F1 F2].
    split; intros E; rewrite E, String.eqb_refl in *; discriminate.
  - intros H. induction l as [|p l IH]; cbn; [reflexivity|].
    destruct (H p (or_introl eq_refl)) as [H1 H2].
    apply String.eqb_neq in H1, H2. rewrite H1, H2. cbn.
    apply IH. intros q Hin. apply H. right; exact Hin.
Qed.

Lemma getPayment_404 (st : Storage) (x : string) :
  getPayment st x = LookupError 404 "Payment not found"
  <-> forall p, In p (payments st) ->
        sp_id p <> x /\ sp_razorpay_payment_id p <> x.
Proof.
  unfold getPayment. rewrite <- find_payment_none.
  destruct (List.find _ (payments st)); split; intros E; try reflexivity;
    discriminate E.
Qed.

(** X14.  Looking a payment up answers 404 exactly when no stored record has the
    text as its own id or as its Razorpay payment id.  After a verification
    that succeeded, the lookup under the id the answer carries finds a
    record; when nothing was stored under that id before, it is the record
    of this verification, and the lookup answers with the amount, the
    currency, the status, the method and the date of the verification's own
    answer. *)
Theorem getPayment_after_verify env st b fetched rnd clk :
  (forall x, getPayment st x = LookupError 404 "Payment not found"
             <-> forall p, In p (payments st) ->
                   sp_id p <> x /\ sp_razorpay_payment_id p <> x) /\
  (forall id amount currency st_ method created,
     fst (verify env st b fetched rnd clk)
     = mkResponse 200 (VerifiedBody id amount currency st_ method created) ->
     id = "payment_" ++ showZ (clk 0%nat) ++ "_" ++ rnd /\
     getPayment (snd (verify env st b fetched rnd clk)) id
     <> LookupError 404 "Payment not found" /\
     ((forall p, In p (payments st) ->
         sp_id p <> id /\ sp_razorpay_payment_id p <> id) ->
      exists rpid,
        getPayment (snd (verify env st b fetched rnd clk)) id
        = LookupFound id rpid amount currency st_ method created
            (ValidDate (clk 2%nat)))).
Proof.
  split; [intros x; apply getPayment_404|].
  intros id amount currency st_ method created.
  unfold Server.verify.
  destruct (truthy (razorpay_order_id b)) as [oid|],
    (truthy (razorpay_payment_id b)) as [pid|],
    (truthy (razorpay_signature b)) as [sig|]; try discriminate.
  destruct (truthy (orElse _ _)); [|discriminate].
  destruct (negb _); [discriminate|].
  destruct (List.find _ (orders st)) as [order|]; [|discriminate].
  cbn [fst snd]. intros [= <- <- <- <- <- <-].
  set (p := mkStored _ _ _ _ _ _ _ _ _ _ _ _ _).
  set (id := (_ ++ _)%string) in *.
  assert (Eid : sp_id p = id) by reflexivity.
  split; [reflexivity|]. split.
  - intros E. pose proof (proj1 (getPayment_404 _ _) E) as E'.
    destruct (E' p) as [E1 _]; [|exact (E1 Eid)].
    cbn. apply in_app_iff. right. left. reflexivity.
  - intros Hfresh. apply find_payment_none in Hfresh.
    unfold getPayment. cbn [payments].
    assert (Efind : List.find
              (fun q => String.eqb (sp_id q) id
                        || String.eqb (sp_razorpay_payment_id q) id)
              (payments st ++ [p])%list = Some p).
    { clear - Hfresh Eid. induction (payments st) as [|q l IH]; cbn in *.
      - rewrite String.eqb_refl. reflexivity.
      - destruct (String.eqb (sp_id q) id || String.eqb (sp_razorpay_payment_id q) id);
          [discriminate|]. apply IH. exact Hfresh. }
    rewrite Efind. exists pid. reflexivity.
Qed.

(** X15.  An order created for an amount and then paid.  The order is asked
    of Razorpay for the amount in paise; when Razorpay answers with the
    amount it was asked for, and no order of that id was stored before, a
    correctly signed verification for the new order succeeds and records,
    as the amount, the hundredth of these paise; nothing but the one order
    and the one payment is added to the storage. *)
Theorem order_then_payment (env : Env) (st : Storage) (cb : CreateBody)
  (created : OrderOptions -> Result RazorpayOrder) (clk1 clk2 : Clock)
  (b : Body) (fetched : Result PaymentDetails) (rnd : string)
  (a : Q) (order : RazorpayOrder) (secret pid : string) :
  c_amount cb = Some a ->
  (0 < a)%Q ->
  created (orderOptions toPaise a cb clk1) = Returned order ->
  ro_amount order = inject_Z (opt_amount (orderOptions toPaise a cb clk1)) ->
  (forall o, In o (orders st) -> o_id o <> ro_id order) ->
  truthy (orElse (RAZORPAY_KEY_SECRET env) (VITE_RAZORPAY_KEY_SECRET env))
  = Some secret ->
  truthy (razorpay_order_id b) = Some (ro_id order) ->
  truthy (razorpay_payment_id b) = Some pid ->
  truthy (razorpay_signature b)
  = Some (hmacSha256Hex secret (ro_id order ++ "|" ++ pid)) ->
  let st1 := snd (createOrder toPaise st cb created clk1) in
  let out := verify env st1 b fetched rnd clk2 in
  opt_amount (orderOptions toPaise a cb clk1) = toPaise a /\
  status (fst out) = 200 /\
  exists o p,
    snd out = mkStorage (payments st ++ [p]) (orders st ++ [o]) /\
    o_id o = ro_id order /\
    o_amount o = inject_Z (toPaise a) /\
    sp_razorpay_order_id p = ro_id order /\
    sp_razorpay_payment_id p = pid /\
    sp_amount p = (inject_Z (toPaise a) / 100)%Q.
Proof.
  intros Ha Hpos Hc Hecho Hfresh Hsecret Ho Hp Hs st1 out.
  assert (Hst1 : st1 = mkStorage (payments st)
                         (orders st
                          ++ [mkOrder (ro_id order) (ro_amount order)
                                (ro_currency order) (ro_receipt order)
                                (ro_status order) (ValidDate (clk1 1%nat))])).
  { subst st1. unfold createOrder. rewrite Ha.
    assert (E : Qle_bool a 0 = false).
    { destruct (Qle_bool a 0) eqn:E; [|reflexivity].
      apply Qle_bool_iff in E. exfalso. exact (Qlt_not_le _ _ Hpos E). }
    rewrite E, Hc. reflexivity. }
  assert (Hfind : List.find (fun o => String.eqb (o_id o) (ro_id order))
                    (orders st1)
                  = Some (mkOrder (ro_id order) (ro_amount order)
                            (ro_currency order) (ro_receipt order)
                            (ro_status order) (ValidDate (clk1 1%nat)))).
  { rewrite Hst1. cbn. clear - Hfresh.
    induction (orders st) as [|o l IH]; cbn.
    - rewrite String.eqb_refl. reflexivity.
    - destruct (String.eqb_spec (o_id o) (ro_id order)) as [E|_].
      + exfalso. apply (Hfresh o); [left; reflexivity | exact E].
      + apply IH. intros o' Hin. apply Hfresh. right; exact Hin. }
  split; [reflexivity|].
  subst out. unfold Server.verify.
  rewrite Ho, Hp, Hs, Hsecret, String.eqb_refl, Hfind. cbn.
  split; [reflexivity|].
  eexists _, _. rewrite Hst1. cbn. split; [reflexivity|].
  rewrite Hecho. cbn. repeat split; reflexivity.
Qed.

(** What holds of every stored payment, given the stored orders. *)
Local Abbreviation backed secret orders :=
  (fun p : StoredPayment =>
     sp_razorpay_signature p
     = hmacSha256Hex secret
         (sp_razorpay_order_id p ++ "|" ++ sp_razorpay_payment_id p) /\
     exists o, In o orders /\ o_id o = sp_razorpay_order_id p /\
               sp_amount p = (o_amount o / 100)%Q).

Lemma serve_backed env secret st req :
  truthy (orElse (RAZORPAY_KEY_SECRET env) (VITE_RAZORPAY_KEY_SECRET env))
  = Some secret ->
  Forall (backed secret (orders st)) (payments st) ->
  Forall (backed secret (orders (serve hmacSha256Hex toPaise env st req)))
    (payments (serve hmacSha256Hex toPaise env st req)).
Proof.
  intros Hsecret Hinv. destruct req as [b created clk|b fetched rnd clk|pid];
    cbn [serve]; [| |exact Hinv].
  - unfold createOrder.
    destruct (c_amount b) as [a|]; [|exact Hinv].
    destruct (Qle_bool a 0); [exact Hinv|].
    destruct (created _) as [|order]; [exact Hinv|]. cbn.
    eapply List.Forall_impl; [|exact Hinv]. cbn.
    intros p (Hs & o & Hin & Ho). split; [exact Hs|].
    exists o. split; [apply in_app_iff; left; exact Hin | exact Ho].
  - unfold Server.verify.
    destruct (truthy (razorpay_order_id b)) as [oid|],
      (truthy (razorpay_payment_id b)) as [pid|],
      (truthy (razorpay_signature b)) as [sig|]; try exact Hinv.
    rewrite Hsecret.
    destruct (String.eqb_spec (hmacSha256Hex secret (oid ++ "|" ++ pid)) sig)
      as [Hsig|_]; [|exact Hinv]. cbn [negb].
    destruct (List.find _ (orders st)) as [order|] eqn:F; [|exact Hinv].
    cbn. apply Forall_app. split; [exact Hinv|].
    constructor; [|constructor]. cbn. split; [symmetry; exact Hsig|].
    apply find_some in F. destruct F as [Hin Heq].
    apply String.eqb_eq in Heq.
    exists order. repeat split; assumption.
Qed.

Lemma serve_unconfigured env st req :
  truthy (orElse (RAZORPAY_KEY_SECRET env) (VITE_RAZORPAY_KEY_SECRET env)) = None ->
  payments (serve hmacSha256Hex toPaise env st req) = payments st.
Proof.
  intros Hsecret. destruct req as [b created clk|b fetched rnd clk|pid];
    cbn [serve]; [| |reflexivity].
  - unfold createOrder.
    destruct (c_amount b) as [a|]; [|reflexivity].
    destruct (Qle_bool a 0); [reflexivity|].
    destruct (created _); reflexivity.
  - unfold Server.verify.
    destruct (truthy (razorpay_order_id b)), (truthy (razorpay_payment_id b)),
      (truthy (razorpay_signature b)); try reflexivity.
    rewrite Hsecret. reflexivity.
Qed.

(** X16.  Whatever requests the server has handled, one after the other, since
    it started: every payment it holds carries a signature that is the
    keyed digest, under the configured secret, of its order id and payment
    id, and belongs to a stored order of that id whose amount, divided by
    100, is the payment's.  A server without a configured secret holds no
    payment at all. *)
Theorem stored_payments_are_backed (env : Env) (requests : list Request) :
  let st := fold_left (serve hmacSha256Hex toPaise env) requests start in
  match truthy (orElse (RAZORPAY_KEY_SECRET env) (VITE_RAZORPAY_KEY_SECRET env)) with
  | Some secret =>
      Forall
        (fun p =>
           sp_razorpay_signature p
           = hmacSha256Hex secret
               (sp_razorpay_order_id p ++ "|" ++ sp_razorpay_payment_id p) /\
           exists o, In o (orders st) /\ o_id o = sp_razorpay_order_id p /\
                     sp_amount p = (o_amount o / 100)%Q)
        (payments st)
  | None => payments st = []
  end.
Proof.
  cbv zeta.
  destruct (truthy (orElse _ _)) as [secret|] eqn:Hsecret.
  - assert (G : forall st,
               Forall (backed secret (orders st)) (payments st) ->
               Forall (backed secret
                         (orders (fold_left (serve hmacSha256Hex toPaise env) requests st)))
                 (payments (fold_left (serve hmacSha256Hex toPaise env) requests st))).
    { induction requests as [|req requests IH]; intros st Hinv; cbn;
        [exact Hinv|].
      apply IH. apply serve_backed; assumption. }
    apply G. constructor.
  - assert (G : forall st,
               payments (fold_left (serve hmacSha256Hex toPaise env) requests st)
               = payments st).
    { induction requests as [|req requests IH]; intros st; cbn; [reflexivity|].
      rewrite IH. apply serve_unconfigured. exact Hsecret. }
    apply G.
Qed.

End Verify.

(** An order for 354 rupees is asked of Razorpay as 35400 paise and
    is recorded, after the verification, as 354 rupees. *)
Lemma order_then_payment_witness :
  let cb := mkCreateBody (Some (354)%Q) None None in
  let created := fun opts : OrderOptions =>
    Returned (mkRazorpayOrder "order_9" (inject_Z (opt_amount opts))
                (opt_currency opts) (opt_receipt opts) "created") in
  let b := mkBody (Some "order_9") (Some "pay_9") (Some "secret/order_9|pay_9")
             None None None in
  let st1 := snd (createOrder Samples.toPaise Samples.storage cb created
                    Samples.clk) in
  let out := Server.verify Samples.sampleMac Samples.env st1 b Threw "k3x9"
               Samples.clk in
  status (fst out) = 200 /\
  exists o p,
    snd out = mkStorage [p] (orders Samples.storage ++ [o]) /\
    (sp_amount p == 354)%Q.
Proof.
  intros cb created b st1 out.
  destruct (order_then_payment Samples.sampleMac Samples.toPaise Samples.env
              Samples.storage
              cb created Samples.clk Samples.clk b Threw "k3x9"
              (354)%Q
              (mkRazorpayOrder "order_9" 35400%Q "INR"
                 "receipt_1700000000000" "created")
              "secret" "pay_9" eq_refl eq_refl eq_refl eq_refl
              ltac:(intros o [<-|[]]; discriminate)
              eq_refl eq_refl eq_refl eq_refl)
    as (_ & H200 & o & p & Hst & _ & _ & _ & _ & Hamount).
  split; [exact H200|].
  exists o, p. split; [exact Hst|].
  rewrite Hamount. reflexivity.
Defined.

Lemma verify_replay_records_twice_witness :
  let st1 := snd (Server.verify Samples.sampleMac Samples.env Samples.storage
                    Samples.body (Returned Samples.details) "k3x9" Samples.clk) in
  let out := Server.verify Samples.sampleMac Samples.env st1 Samples.body
               Threw "q7w2" Samples.clk in
  status (fst out) = 200 /\ length (payments (snd out)) = 2%nat.
Proof.
  intros st1 out.
  destruct (verify_replay_records_twice Samples.sampleMac Samples.env
              Samples.storage Samples.body (Returned Samples.details) "k3x9"
              Samples.clk Threw "q7w2" Samples.clk eq_refl)
    as (H200 & p1 & p2 & Hp & _).
  split; [exact H200|].
  fold st1 in Hp. fold out in Hp. rewrite Hp. reflexivity.
Defined.

End ServerMore.

(** ** The posting flows, reduced into the store *)

Module FlowsMore.

Local Open Scope Q_scope.

Lemma dispatchAll_app state a b :
  dispatchAll state (a ++ b)%list = dispatchAll (dispatchAll state a) b.
Proof. apply fold_left_app. Qed.

(** Reducing actions that keep the ledger appends the dispatched batches,
    in order. *)
Lemma dispatchAll_ledger actions : forall state,
  Forall keepsLedger actions ->
  ledger (dispatchAll state actions)
  = (ledger state ++ concat (appended actions))%list.
Proof.
  induction actions as [|a actions IH]; intros state H; cbn.
  - symmetry. apply app_nil_r.
  - inversion H as [|? ? Ha Hrest]; subst.
    change (ledger (dispatchAll (reducer state a) actions)
            = (ledger state
               ++ concat (appended (a :: actions)))%list).
    rewrite (IH _ Hrest).
    destruct a; cbn in Ha; try contradiction; cbn; try reflexivity.
    rewrite <- app_assoc. reflexivity.
Qed.

Lemma postInvoice_keeps state inv clk :
  Forall keepsLedger (Invoices.postInvoice state inv clk).
Proof.
  unfold Invoices.postInvoice.
  destruct (Invoices.findAr state), (Invoices.findSales state),
    (Invoices.findCogs state), (Invoices.findInventory state);
    repeat constructor.
Qed.

Lemma savePayment_keeps parseFloat state form rnd clk :
  Forall keepsLedger (Payments.savePayment parseFloat state form rnd clk).
Proof.
  unfold Payments.savePayment.
  destruct (parseFloat _) as [amount|]; [|constructor].
  destruct (_ || _)%bool; [constructor|].
  destruct (List.find _ (contacts state)) as [contact|]; [|constructor].
  repeat (apply Forall_app; split).
  - unfold Payments.ledgerPostings.
    destruct (match List.find (nameHas "cash") (accounts state) with
              | Some c => Some c | None => _ end); [|constructor].
    destruct (List.find (nameHas "accounts receivable") _); [|constructor].
    destruct (List.find (nameHas "accounts payable") _); [|constructor].
    destruct (Payments.f_type form); repeat constructor.
  - destruct (Payments.truthyOpt _); repeat constructor.
  - destruct (Payments.truthyOpt _); repeat constructor.
  - repeat constructor.
Qed.

Lemma postToLedgerAndInventory_keeps state bill clk :
  Forall keepsLedger (VendorBills.postToLedgerAndInventory state bill clk).
Proof.
  unfold VendorBills.postToLedgerAndInventory.
  destruct (List.find (nameHas "inventory") _); [|constructor].
  destruct (List.find (nameHas "accounts payable") _); repeat constructor.
Qed.

(** The batches a flow appends, behind what the ledger held. *)
Lemma flow_ledger state actions :
  Forall keepsLedger actions ->
  ledger (dispatchAll state actions)
  = (ledger state ++ concat (appended actions))%list /\
  firstn (length (ledger state)) (ledger (dispatchAll state actions))
  = ledger state.
Proof.
  intros Hk. rewrite (dispatchAll_ledger _ _ Hk). split; [reflexivity|].
  rewrite firstn_app, Nat.sub_diag, firstn_all. cbn. apply app_nil_r.
Qed.

(** X17.  The posting flows only ever add to the ledger.  Whatever posting
    an invoice, recording a payment by hand or posting a vendor bill
    dispatches, reduced into the store, leaves the entries the ledger held
    in their places and adds behind them four entries or none for an
    invoice, two or none for a payment and for a bill; every entry added
    names the document it comes from: the invoice, the payment under the
    id it is recorded with, the bill. *)
Theorem flows_only_append
  (parseFloat : string -> option Q) (state : AppState) (clk : Clock) :
  let appends := fun actions (n : nat) (type : ReferenceType) (document : string) =>
    exists added,
      ledger (dispatchAll state actions) = (ledger state ++ added)%list /\
      firstn (length (ledger state)) (ledger (dispatchAll state actions))
      = ledger state /\
      (added = [] \/ length added = n) /\
      Forall (fun e => LedgerEntry.referenceType e = type /\
                       LedgerEntry.referenceId e = Some document) added in
  (forall inv,
     appends (Invoices.postInvoice state inv clk) 4%nat RefInvoice (Invoice.id inv)) /\
  (forall form rnd,
     appends (Payments.savePayment parseFloat state form rnd clk) 2%nat RefPayment
       ("PMT-" ++ showZ (clk 0%nat))) /\
  (forall bill,
     appends (VendorBills.postToLedgerAndInventory state bill clk) 2%nat RefBill
       (VendorBill.id bill)).
Proof.
  cbv zeta. repeat split.
  - intros inv.
    destruct (flow_ledger state _ (postInvoice_keeps state inv clk)) as [E F].
    eexists. split; [exact E|]. split; [exact F|].
    unfold Invoices.postInvoice.
    destruct (Invoices.findAr state), (Invoices.findSales state),
      (Invoices.findCogs state), (Invoices.findInventory state);
      cbn; try (split; [left; reflexivity | constructor]).
    split; [right; reflexivity | repeat constructor].
  - intros form rnd.
    destruct (flow_ledger state _ (savePayment_keeps parseFloat state form rnd clk))
      as [E F].
    eexists. split; [exact E|]. split; [exact F|].
    unfold Payments.savePayment.
    destruct (parseFloat _) as [amount|]; [|cbn; split; [left; reflexivity | constructor]].
    destruct (_ || _)%bool; [cbn; split; [left; reflexivity | constructor]|].
    destruct (List.find _ (contacts state)) as [contact|];
      [|cbn; split; [left; reflexivity | constructor]].
    unfold Payments.ledgerPostings.
    destruct (match List.find (nameHas "cash") (accounts state) with
              | Some c => Some c | None => _ end);
      [destruct (List.find (nameHas "accounts receivable") _);
       [destruct (List.find (nameHas "accounts payable") _)|]|];
      cbn [Payment.type Payment.invoiceId Payment.billId];
      try destruct (Payments.f_type form);
      destruct (Payments.truthyOpt _), (Payments.truthyOpt _); cbn;
      first [ split; [left; reflexivity | constructor]
            | split; [right; reflexivity | repeat constructor] ].
  - intros bill.
    destruct (flow_ledger state _ (postToLedgerAndInventory_keeps state bill clk))
      as [E F].
    eexists. split; [exact E|]. split; [exact F|].
    unfold VendorBills.postToLedgerAndInventory.
    destruct (List.find (nameHas "inventory") _);
      [destruct (List.find (nameHas "accounts payable") _)|]; cbn;
      first [ split; [left; reflexivity | constructor]
            | split; [right; reflexivity | repeat constructor] ].
Qed.

Lemma Forall2_map_self {A} (R : A -> A -> Prop) (f : A -> A) (l : list A) :
  (forall x, R x (f x)) -> Forall2 R l (List.map f l).
Proof.
  intros H. induction l as [|x l IH]; cbn; constructor; [apply H | exact IH].
Qed.

(** What a flow that posted leaves in the products. *)
Lemma bill_products state bill clk :
  VendorBills.postToLedgerAndInventory state bill clk <> [] ->
  let s1 := dispatchAll state (VendorBills.postToLedgerAndInventory state bill clk) in
  products s1 = List.map (VendorBills.increaseStock bill) (products state) /\
  accounts s1 = accounts state.
Proof.
  unfold VendorBills.postToLedgerAndInventory.
  destruct (List.find (nameHas "inventory") _); [|congruence].
  destruct (List.find (nameHas "accounts payable") _); [|congruence].
  intros _. cbn. split; reflexivity.
Qed.

Lemma invoice_products state inv clk :
  Invoices.postInvoice state inv clk <> [] ->
  products (dispatchAll state (Invoices.postInvoice state inv clk))
  = List.map (Invoices.reduceStock inv) (products state).
Proof.
  unfold Invoices.postInvoice.
  destruct (Invoices.findAr state), (Invoices.findSales state),
    (Invoices.findCogs state), (Invoices.findInventory state); try congruence.
  intros _. reflexivity.
Qed.

Lemma increaseStock_id bill p :
  Product.id (VendorBills.increaseStock bill p) = Product.id p /\
  Product.type (VendorBills.increaseStock bill p) = Product.type p.
Proof.
  unfold VendorBills.increaseStock. destruct (_ && _); split; reflexivity.
Qed.

Lemma reduceStock_id inv p :
  Product.id (Invoices.reduceStock inv p) = Product.id p /\
  Product.type (Invoices.reduceStock inv p) = Product.type p.
Proof.
  unfold Invoices.reduceStock. destruct (_ && _); split; reflexivity.
Qed.

(** X18.  Goods bought and then sold.  When a vendor bill is posted and
    then an invoice, both flows finding their accounts, the products keep
    their ids, their types and their places, and the stock of each is
    what the two steps make of it, in this order: a product of type Goods
    with a quantity above zero on the bill has that quantity added to its
    stock (none counting as zero), and one with a quantity above zero on
    the invoice then has that quantity taken off, not below zero; the
    stock of any other product is as it was. *)
Theorem bill_then_invoice_stock (state : AppState)
  (bill : VendorBill.t) (inv : Invoice.t) (clk1 clk2 : Clock) :
  let s1 := dispatchAll state (VendorBills.postToLedgerAndInventory state bill clk1) in
  let s2 := dispatchAll s1 (Invoices.postInvoice s1 inv clk2) in
  VendorBills.postToLedgerAndInventory state bill clk1 <> [] ->
  Invoices.postInvoice s1 inv clk2 <> [] ->
  Forall2
    (fun p p2 =>
       let bought := lineQty (VendorBill.items bill) (Product.id p) in
       let sold := lineQty (Invoice.items inv) (Product.id p) in
       Product.id p2 = Product.id p /\ Product.type p2 = Product.type p /\
       Product.stockQty p2
       = if ProductType_eqb (Product.type p) Goods then
           if Qgtb bought 0 then
             if Qgtb sold 0
             then Some (Qmax 0 (stockOf p + bought - sold))
             else Some (stockOf p + bought)
           else
             if Qgtb sold 0
             then Some (Qmax 0 (stockOf p - sold))
             else Product.stockQty p
         else Product.stockQty p)
    (products state) (products s2).
Proof.
  intros s1 s2 Hbill Hinv.
  subst s2. rewrite (invoice_products _ _ _ Hinv).
  destruct (bill_products _ _ _ Hbill) as [Hp _]. fold s1 in Hp. rewrite Hp.
  rewrite List.map_map. apply Forall2_map_self. intros p.
  destruct (reduceStock_id inv (VendorBills.increaseStock bill p)) as [E1 E2].
  destruct (increaseStock_id bill p) as [E3 E4].
  cbv zeta. split; [congruence|]. split; [congruence|].
  unfold Invoices.reduceStock. rewrite E3, E4.
  unfold VendorBills.increaseStock, stockOf.
  destruct (ProductType_eqb (Product.type p) Goods);
    rewrite ?andb_true_r, ?andb_false_r;
    [|reflexivity].
  destruct (Qgtb (lineQty (VendorBill.items bill) (Product.id p)) 0),
    (Qgtb (lineQty (Invoice.items inv) (Product.id p)) 0); reflexivity.
Qed.

(** Ten chairs bought and ten sold, on the sample books: twenty chairs in
    between, and max(0, 10 + 10 - 10) in the end. *)
Lemma bill_then_invoice_stock_witness :
  let s1 := dispatchAll Samples.state
              (VendorBills.postToLedgerAndInventory Samples.state Samples.bill
                 Samples.clk) in
  let inv := Samples.invoiceOf [Samples.item "p1" 10] 1180 in
  let s2 := dispatchAll s1 (Invoices.postInvoice s1 inv Samples.clk) in
  List.map stockOf (products s1) = [20; 0] /\
  List.map Product.stockQty (products s2)
  = [ Some (Qmax 0 (10 + 10 - 10)); Some 0 ].
Proof.
  intros s1 inv s2. split; [reflexivity|].
  pose proof (bill_then_invoice_stock Samples.state Samples.bill inv
                Samples.clk Samples.clk
                ltac:(vm_compute; discriminate) ltac:(vm_compute; discriminate))
    as H.
  fold s1 in H. fold s2 in H.
  remember (products s2) as after eqn:Ea.
  change (products Samples.state) with [Samples.chair; Samples.delivery] in H.
  inversion H as [|p p2 l l2 (_ & _ & Hchair) Hrest]; subst.
  inversion Hrest as [|q q2 l' l2' (_ & _ & Hdelivery) Hnil]; subst.
  inversion Hnil; subst. cbn. rewrite Hchair, Hdelivery. reflexivity.
Defined.

Section SavePayment.

Variable parseFloat : string -> option Q.

Local Abbreviation savePayment := (Payments.savePayment parseFloat).

(** The ledger postings of a payment write the ledger and nothing else,
    and not even the ledger unless the receivables and the payables
    account are both found. *)
Lemma ledgerPostings_frame state payment clk st :
  let s := dispatchAll st (Payments.ledgerPostings state payment clk) in
  payments s = payments st /\ invoices s = invoices st /\
  vendorBills s = vendorBills st /\ audit s = audit st /\
  products s = products st /\
  (List.find (nameHas "accounts receivable") (accounts state) = None \/
   List.find (nameHas "accounts payable") (accounts state) = None ->
   ledger s = ledger st).
Proof.
  unfold Payments.ledgerPostings.
  destruct (match List.find (nameHas "cash") (accounts state) with
            | Some c => Some c | None => _ end);
    [|cbn; repeat split; reflexivity].
  destruct (List.find (nameHas "accounts receivable") _);
    [|cbn; repeat split; reflexivity].
  destruct (List.find (nameHas "accounts payable") _);
    [|cbn; repeat split; reflexivity].
  destruct (Payment.type payment); cbn; repeat split;
    intros [?|?]; discriminate.
Qed.

(** X20.  A payment recorded by hand.  When the amount reads as a number other
    than zero and the contact is found, the payment is put in front of the
    payments with that amount and contact, and one audit entry is added;
    a linked invoice has the amount added to what was paid, whatever its
    total, and without a link no invoice and no bill changes.  The ledger
    is written only when the receivables and the payables account are both
    found, whichever way the payment goes: without one of them the payment
    is recorded and the ledger stays as it was. *)
Theorem savePayment_records (state : AppState) (form : Payments.Form)
  (rnd : Z) (clk : Clock) (amount : Q) (contact : Contact.t) :
  parseFloat (if truthyStr (Payments.f_amount form)
              then Payments.f_amount form else "0") = Some amount ->
  ~ amount == 0 ->
  truthyStr (Payments.f_contactId form) = true ->
  List.find (fun c => String.eqb (Contact.id c) (Payments.f_contactId form))
    (contacts state) = Some contact ->
  let s' := dispatchAll state (savePayment state form rnd clk) in
  (exists payment,
     payments s' = payment :: payments state /\
     Payment.amount payment = amount /\
     Payment.type payment = Payments.f_type form /\
     Payment.contactId payment = Payments.f_contactId form /\
     Payment.contactName payment = Contact.name contact) /\
  length (audit s') = S (length (audit state)) /\
  products s' = products state /\
  (List.find (nameHas "accounts receivable") (accounts state) = None \/
   List.find (nameHas "accounts payable") (accounts state) = None ->
   ledger s' = ledger state) /\
  (Payments.f_linkType form = Payments.LinkInvoice ->
   truthyStr (Payments.f_linkId form) = true ->
   Forall2
     (fun i i' =>
        if String.eqb (Invoice.id i) (Payments.f_linkId form)
        then i' = Invoices.payInvoice i amount else i' = i)
     (invoices state) (invoices s') /\
   vendorBills s' = vendorBills state) /\
  (Payments.f_linkType form = Payments.LinkNone ->
   invoices s' = invoices state /\ vendorBills s' = vendorBills state).
Proof.
  intros Hparse Hnz Hcid Hfind s'. subst s'. unfold Payments.savePayment.
  rewrite Hparse.
  assert (Hz : Qeq_bool amount 0 = false).
  { destruct (Qeq_bool amount 0) eqn:E; [|reflexivity].
    apply Qeq_bool_iff in E. contradiction. }
  rewrite Hz, Hcid, Hfind. cbn [negb orb].
  assert (Hid : Contact.id contact = Payments.f_contactId form).
  { apply find_some in Hfind. destruct Hfind as [_ E].
    apply String.eqb_eq in E. exact E. }
  rewrite dispatchAll_app.
  match goal with
  | |- context [dispatchAll state (Payments.ledgerPostings state ?p clk)] =>
      destruct (ledgerPostings_frame state p clk state)
        as (Hp & Hi & Hv & Ha & Hpr & Hl);
      set (s1 := dispatchAll state (Payments.ledgerPostings state p clk)) in *
  end.
  clearbody s1.
  assert (Hinv : Forall2
                   (fun i i' =>
                      if String.eqb (Invoice.id i) (Payments.f_linkId form)
                      then i' = Invoices.payInvoice i amount else i' = i)
                   (invoices state)
                   (List.map
                      (fun inv =>
                         if decide (Some (Invoice.id inv)
                                    = Some (Payments.f_linkId form))
                         then Invoices.payInvoice inv amount else inv)
                      (invoices state))).
  { apply Forall2_map_self. intros i.
    destruct (decide (Some (Invoice.id i) = Some (Payments.f_linkId form)))
      as [E|N].
    - injection E as ->. rewrite String.eqb_refl. reflexivity.
    - destruct (String.eqb_spec (Invoice.id i) (Payments.f_linkId form));
        [congruence | reflexivity]. }
  destruct (Payments.f_linkType form) eqn:Hlink;
    cbn [Payment.invoiceId Payment.billId Payments.truthyOpt];
    destruct (truthyStr (Payments.f_linkId form)) eqn:Ht; cbn;
    rewrite ?Hp, ?Hi, ?Hv, ?Ha, ?Hpr;
    (repeat split;
     try (eexists; repeat split; eauto; fail);
     try (intros; discriminate);
     try exact Hl; try exact Hinv;
     try (rewrite length_app; cbn; lia)).
Qed.

End SavePayment.

(** Forty rupees paid to the sample contact on books without a receivables
    account: the payment is recorded, the ledger is not written. *)
Lemma savePayment_records_witness :
  let state := mkAppState [Samples.buyer] [Samples.chair] []
                 [Samples.acct "a1" "Cash" Asset "A100";
                  Samples.acct "a4" "Accounts Payable" Liability "L100"]
                 [] [] [] [] [] [] [] in
  let s' := dispatchAll state
              (Payments.savePayment Samples.parseSample state Samples.form 7
                 Samples.clk) in
  (exists payment,
     payments s' = [payment] /\ Payment.amount payment = 40 /\
     Payment.contactName payment = "Asha Traders") /\
  ledger s' = [].
Proof.
  intros state s'.
  destruct (savePayment_records Samples.parseSample state Samples.form 7
              Samples.clk 40 Samples.buyer eq_refl
              ltac:(discriminate) eq_refl eq_refl)
    as ((payment & Hp & Ha & _ & _ & Hn) & _ & _ & Hl & _).
  split.
  - exists payment. repeat split; assumption.
  - apply Hl. left. reflexivity.
Defined.

End FlowsMore.

(** ** The balances of the reports *)

Module ReportsMore.
Import Reports.

Local Open Scope Q_scope.

Lemma sumQ_cons {A} (f : A -> Q) (x : A) (l : list A) :
  sumQ f (x :: l) == f x + sumQ f l.
Proof.
  change (x :: l) with ([x] ++ l)%list. rewrite sumQ_app.
  unfold sumQ at 1. cbn. ring.
Qed.

(** The entries of account [id]. *)
Local Abbreviation entriesOf id ledger :=
  (List.filter (fun e => String.eqb (LedgerEntry.accountId e) id) ledger).

Local Abbreviation step :=
  (fun (map : gmap string Totals) e =>
     let cur := nullish (map !! LedgerEntry.accountId e) (mkTotals 0 0) in
     <[LedgerEntry.accountId e :=
         mkTotals (debit cur + LedgerEntry.debit e)
                  (credit cur + LedgerEntry.credit e)]> map).

Lemma entriesOf_cons id e (ledger : list LedgerEntry.t) :
  entriesOf id (e :: ledger)
  = if String.eqb (LedgerEntry.accountId e) id
    then e :: entriesOf id ledger else entriesOf id ledger.
Proof. reflexivity. Qed.

Lemma totals_fold (ledger : list LedgerEntry.t) : forall (m : gmap string Totals) id,
  let r := fold_left step ledger m in
  debit (nullish (r !! id) (mkTotals 0 0))
  == debit (nullish (m !! id) (mkTotals 0 0))
     + sumQ LedgerEntry.debit (entriesOf id ledger) /\
  credit (nullish (r !! id) (mkTotals 0 0))
  == credit (nullish (m !! id) (mkTotals 0 0))
     + sumQ LedgerEntry.credit (entriesOf id ledger) /\
  (is_Some (r !! id)
   <-> is_Some (m !! id) \/ exists e, In e ledger /\ LedgerEntry.accountId e = id).
Proof.
  induction ledger as [|e ledger IH]; intros m id r.
  - subst r. unfold sumQ; cbn. repeat split; try ring.
    + intros H; left; exact H.
    + intros [H|[e [[] _]]]; exact H.
  - destruct (IH (step m e) id) as (Hd & Hc & Hs).
    cbv beta zeta in Hd, Hc, Hs. subst r.
    rewrite entriesOf_cons.
    destruct (String.eqb_spec (LedgerEntry.accountId e) id) as [E|N].
    + subst id. rewrite lookup_insert_eq in Hd, Hc, Hs. cbn in Hd, Hc.
      split; [apply (Qeq_trans _ _ _ Hd); rewrite sumQ_cons; ring|].
      split; [apply (Qeq_trans _ _ _ Hc); rewrite sumQ_cons; ring|].
      split.
      * intros _. right. exists e. split; [left; reflexivity | reflexivity].
      * intros _. apply Hs. left. eexists; reflexivity.
    + rewrite lookup_insert_ne in Hd, Hc, Hs by exact N.
      split; [exact Hd|]. split; [exact Hc|].
      split.
      * intros H. apply Hs in H. destruct H as [H|(e' & Hin & He')];
          [left; exact H | right; exists e'; split; [right; exact Hin | exact He']].
      * intros [H|(e' & [<-|Hin] & He')]; apply Hs;
          [left; exact H | contradiction | right; exists e'; split; assumption].
Qed.

(** X21.  The balance the reports compute for an account is made of the ledger
    entries that carry the account's id and of no other entry: with [D]
    and [C] the debits and credits of those entries, an asset shows its
    opening balance plus [D - C], a liability or equity account its
    opening balance plus [C - D], an income account [C - D] and an expense
    account [D - C], their opening balance left out.  The totals hold an
    account id exactly when some entry carries it. *)
Theorem computedBalance_from_entries (ledger : list LedgerEntry.t)
  (acc : Account.t) :
  let D := sumQ LedgerEntry.debit (entriesOf (Account.id acc) ledger) in
  let C := sumQ LedgerEntry.credit (entriesOf (Account.id acc) ledger) in
  computedBalance (ledgerTotals ledger) acc
  == match Account.type acc with
     | Asset => Account.balance acc + (D - C)
     | Liability | Equity => Account.balance acc + (C - D)
     | Income => C - D
     | Expense => D - C
     end /\
  (forall id, is_Some (ledgerTotals ledger !! id)
              <-> exists e, In e ledger /\ LedgerEntry.accountId e = id) /\
  ((forall e, In e ledger -> LedgerEntry.accountId e <> Account.id acc) ->
   computedBalance (ledgerTotals ledger) acc
   == match Account.type acc with
      | Asset | Liability | Equity => Account.balance acc
      | Income | Expense => 0
      end).
Proof.
  intros D C.
  assert (Hmain : computedBalance (ledgerTotals ledger) acc
                  == match Account.type acc with
                     | Asset => Account.balance acc + (D - C)
                     | Liability | Equity => Account.balance acc + (C - D)
                     | Income => C - D
                     | Expense => D - C
                     end).
  { destruct (totals_fold ledger ∅ (Account.id acc)) as (Hd & Hc & _).
    cbn in Hd, Hc. rewrite lookup_empty in Hd, Hc. cbn in Hd, Hc.
    unfold computedBalance, ledgerTotals. subst D C.
    destruct (Account.type acc); rewrite Hd, Hc; ring. }
  split; [exact Hmain|]. split.
  - intros id. destruct (totals_fold ledger ∅ id) as (_ & _ & Hs).
    cbn in Hs. rewrite lookup_empty in Hs. unfold ledgerTotals.
    rewrite Hs. split; [intros [[x Hx]|H]; [discriminate | exact H] | intros H; right; exact H].
  - intros Habsent. rewrite Hmain. subst D C.
    replace (entriesOf (Account.id acc) ledger) with (@nil LedgerEntry.t).
    + unfold sumQ; cbn. destruct (Account.type acc); ring.
    + clear Hmain. induction ledger as [|e l IH]; cbn; [reflexivity|].
      destruct (String.eqb_spec (LedgerEntry.accountId e) (Account.id acc)) as [E|_].
      * exfalso. apply (Habsent e); [left; reflexivity | exact E].
      * apply IH. intros e' Hin. apply Habsent. right; exact Hin.
Qed.

End ReportsMore.

(** ** Roles, permissions and guarded routes *)

Module AccessMore.
Import Roles Rbac Routes.

(** X22.  The four guarded routes let in exactly the roles at or above theirs in
    the hierarchy: nobody signed in is sent to the login page, a role
    below the route's is sent to the dashboard of its own role, and any
    other user sees the page. *)
Theorem route_guards_follow_hierarchy (user : option User) :
  let guarded := fun (route : option User -> Outcome) (required : UserRole) =>
    route user
    = match user with
      | None => Navigate "/login"
      | Some u =>
          if hasRolePermission (u_role u) required then Children
          else Navigate (ROLE_DASHBOARDS (u_role u))
      end in
  guarded SystemPersonRoute SuperUser /\
  guarded AdminRoute Admin /\
  guarded InvoicingUserRoute InvoicingUser /\
  guarded ContactMasterRoute ContactMaster.
Proof.
  destruct user as [[i e n [] c k]|]; repeat split; reflexivity.
Qed.

(** X24.  Permissions grow with the hierarchy: a user whose role is at or above
    another user's has every permission that user has.  The administrator
    and the invoicing user have the same ones, and a user who is not
    signed in has none. *)
Theorem permissions_follow_hierarchy (higher lower : User) (perm : Permission) :
  hasRolePermission (u_role higher) (u_role lower) = true ->
  hasPermission (Some lower) perm = true ->
  hasPermission (Some higher) perm = true /\
  hasPermission None perm = false /\
  (u_role higher = Admin -> u_role lower = InvoicingUser ->
   forall p, hasPermission (Some higher) p = hasPermission (Some lower) p).
Proof.
  intros Hh Hp. unfold hasPermission in *.
  destruct (u_role higher), (u_role lower); try discriminate Hh;
    repeat split; try reflexivity; try discriminate;
    try (destruct perm; first [reflexivity | discriminate Hp]);
    intros _ _ p; destruct p; reflexivity.
Qed.

Lemma permissions_follow_hierarchy_witness :
  let clerk := mkUser "u2" "clerk@example.com" "Clerk" ContactMaster "Shiv" None in
  let owner := mkUser "u1" "owner@example.com" "Owner" Admin "Shiv" None in
  hasPermission (Some owner) payments_make = true /\
  hasPermission (Some clerk) reports_view = false.
Proof.
  intros clerk owner. split; [|reflexivity].
  exact (proj1 (permissions_follow_hierarchy owner clerk payments_make
                  eq_refl eq_refl)).
Defined.

End AccessMore.

(** ** Paging a long list *)

Module PagingMore.
Import VirtualScroll.

Section WithItems.

Context {T : Type} (filter : T -> string -> bool).

Local Abbreviation filteredItems := (VirtualScroll.filteredItems T filter).
Local Abbreviation paginatedItems := (VirtualScroll.paginatedItems T filter).
Local Abbreviation hasMore := (VirtualScroll.hasMore T filter).
Local Abbreviation loadMore := (VirtualScroll.loadMore T filter).

Lemma hasMore_iff allItems searchTerm page :
  hasMore allItems searchTerm page = true
  <-> (page * 1000 < length (filteredItems allItems searchTerm))%nat.
Proof.
  unfold VirtualScroll.hasMore, VirtualScroll.paginatedItems, pageSize.
  rewrite Nat.ltb_lt, length_firstn. lia.
Qed.

Lemma shown_all allItems searchTerm page :
  hasMore allItems searchTerm page = false ->
  paginatedItems allItems searchTerm page = filteredItems allItems searchTerm.
Proof.
  intros H. apply not_true_iff_false in H. rewrite hasMore_iff in H.
  unfold VirtualScroll.paginatedItems, pageSize. apply firstn_all2. lia.
Qed.

Lemma loads_page allItems searchTerm (k : nat) :
  Nat.iter k (loadMore allItems searchTerm) 1%nat
  = (1 + Nat.min k ((length (filteredItems allItems searchTerm) - 1) / 1000))%nat.
Proof.
  induction k as [|k IH]; [reflexivity|].
  rewrite Nat.iter_succ, IH.
  set (len := length (filteredItems allItems searchTerm)).
  pose proof (Nat.div_mod_eq (len - 1) 1000) as Hdiv.
  pose proof (Nat.mod_upper_bound (len - 1) 1000 ltac:(discriminate)) as Hmod.
  set (d := ((len - 1) / 1000)%nat) in *.
  set (r := ((len - 1) mod 1000)%nat) in *.
  unfold VirtualScroll.loadMore.
  destruct (hasMore allItems searchTerm _) eqn:E.
  - apply hasMore_iff in E. fold len in E. lia.
  - apply not_true_iff_false in E. rewrite hasMore_iff in E. fold len in E. lia.
Qed.

(** X25.  The list shows the items that pass the search, in their order, up
    to the first [page] thousands: what it shows is the beginning of what
    passes, item for item, and stops there.  More can be loaded exactly
    while some item is not shown.  Loading more [k] times from the first
    page leaves the page at [1 + k] as long as that many thousands do not
    cover what passes, and after that at the first page that does, where
    everything is shown and loading more changes nothing.  With an empty
    search term every item passes, whatever the filter; with any other,
    the items the filter accepts. *)
Theorem loadMore_reaches_everything (allItems : list T) (searchTerm : string)
  (k : nat) :
  let passing := filteredItems allItems searchTerm in
  let page := Nat.iter k (loadMore allItems searchTerm) 1%nat in
  (forall p,
     (exists rest, passing = (paginatedItems allItems searchTerm p ++ rest)%list) /\
     length (paginatedItems allItems searchTerm p)
     = Nat.min (p * 1000) (length passing) /\
     (forall i, (i < p * 1000)%nat ->
        nth_error (paginatedItems allItems searchTerm p) i = nth_error passing i) /\
     (forall i, (p * 1000 <= i)%nat ->
        nth_error (paginatedItems allItems searchTerm p) i = None)) /\
  (forall p, hasMore allItems searchTerm p = true
             <-> paginatedItems allItems searchTerm p <> passing) /\
  page = (1 + Nat.min k ((length passing - 1) / 1000))%nat /\
  ((k * 1000 < length passing)%nat -> page = (1 + k)%nat) /\
  ((length passing <= (1 + k) * 1000)%nat ->
   paginatedItems allItems searchTerm page = passing /\
   hasMore allItems searchTerm page = false /\
   loadMore allItems searchTerm page = page) /\
  (((1 + k) * 1000 < length passing)%nat ->
   hasMore allItems searchTerm page = true /\
   loadMore allItems searchTerm page = (2 + k)%nat) /\
  filteredItems allItems "" = allItems /\
  (searchTerm <> "" ->
   passing = List.filter (fun item => filter item searchTerm) allItems).
Proof.
  intros passing page.
  assert (Hpage : page = (1 + Nat.min k ((length passing - 1) / 1000))%nat)
    by apply loads_page.
  pose proof (Nat.div_mod_eq (length passing - 1) 1000) as Hdiv.
  pose proof (Nat.mod_upper_bound (length passing - 1) 1000 ltac:(discriminate))
    as Hmod.
  set (d := ((length passing - 1) / 1000)%nat) in *.
  set (r := ((length passing - 1) mod 1000)%nat) in *.
  split; [|split; [|split; [|split; [|split; [|split; [|split]]]]]].
  - intros p. unfold VirtualScroll.paginatedItems, pageSize. fold passing.
    split; [exists (skipn (p * 1000) passing); symmetry; apply firstn_skipn|].
    split; [apply length_firstn|]. split.
    + intros i Hi. rewrite nth_error_firstn.
      destruct (Nat.ltb_spec i (p * 1000)); [reflexivity | lia].
    + intros i Hi. rewrite nth_error_firstn.
      destruct (Nat.ltb_spec i (p * 1000)); [lia | reflexivity].
  - intros p. split.
    + intros H E. apply hasMore_iff in H.
      apply (f_equal (@length T)) in E.
      unfold VirtualScroll.paginatedItems, pageSize in E.
      rewrite length_firstn in E. fold passing in H, E. lia.
    + intros H. destruct (hasMore allItems searchTerm p) eqn:E; [reflexivity|].
      exfalso. apply H. apply shown_all. exact E.
  - exact Hpage.
  - intros Hk. rewrite Hpage. lia.
  - intros Hlen.
    assert (Hdone : hasMore allItems searchTerm page = false).
    { apply not_true_iff_false. rewrite hasMore_iff. fold passing.
      rewrite Hpage. lia. }
    split; [apply shown_all; exact Hdone|]. split; [exact Hdone|].
    unfold VirtualScroll.loadMore. rewrite Hdone. reflexivity.
  - intros Hlen.
    assert (Hmore : hasMore allItems searchTerm page = true).
    { rewrite hasMore_iff. fold passing. rewrite Hpage. lia. }
    split; [exact Hmore|].
    unfold VirtualScroll.loadMore. rewrite Hmore, Hpage. lia.
  - reflexivity.
  - intros Hterm. unfold passing, VirtualScroll.filteredItems.
    destruct searchTerm; [contradiction | reflexivity].
Qed.

End WithItems.

(** Five thousand numbered items, of which the search for the even ones
    lets 2500 pass.  One load shows the first 2000 of them and more can be
    loaded; a second load shows all 2500, and a third changes nothing. *)
Lemma loadMore_reaches_everything_witness :
  let passes := fun (item : nat) (search : string) =>
    String.eqb search "even" && Nat.even item in
  let items := List.seq 0 5000 in
  let page k := Nat.iter k (VirtualScroll.loadMore nat passes items "even") 1%nat in
  page 1%nat = 2%nat /\ page 2%nat = 3%nat /\ page 3%nat = 3%nat /\
  VirtualScroll.hasMore nat passes items "even" (page 1%nat) = true /\
  nth_error (VirtualScroll.paginatedItems nat passes items "even" (page 1%nat)) 1999
  = Some 3998%nat /\
  nth_error (VirtualScroll.paginatedItems nat passes items "even" (page 1%nat)) 2000
  = None /\
  VirtualScroll.paginatedItems nat passes items "even" (page 2%nat)
  = VirtualScroll.filteredItems nat passes items "even" /\
  VirtualScroll.hasMore nat passes items "even" (page 2%nat) = false.
Proof.
  intros passes items page.
  assert (Hlen : length (VirtualScroll.filteredItems nat passes items "even")
                 = 2500%nat) by (vm_compute; reflexivity).
  destruct (loadMore_reaches_everything passes items "even" 1%nat)
    as (Hshown & _ & _ & H1 & _ & Hmore & _).
  destruct (loadMore_reaches_everything passes items "even" 2%nat)
    as (_ & _ & _ & H2 & Hall & _).
  destruct (loadMore_reaches_everything passes items "even" 3%nat)
    as (_ & _ & H3 & _).
  cbv zeta in *. rewrite Hlen in *.
  fold (page 1%nat) in *. fold (page 2%nat) in *. fold (page 3%nat) in *.
  specialize (H1 ltac:(lia)). specialize (H2 ltac:(lia)).
  destruct (Hall ltac:(lia)) as (Heq & Hdone & _).
  destruct (Hmore ltac:(lia)) as (Hyes & _).
  destruct (Hshown (page 1%nat)) as (_ & _ & Hin & Hout).
  split; [exact H1|]. split; [exact H2|].
  split; [rewrite H3; reflexivity|].
  split; [exact Hyes|].
  split; [rewrite Hin by (rewrite H1; lia); vm_compute; reflexivity|].
  split; [apply Hout; rewrite H1; lia|].
  split; [exact Heq | exact Hdone].
Defined.

End PagingMore.
